(** * UrlContentProvider: the fetch pipeline, embedded and verified

    Shallow embedding of the URL normalizer, the HTTP error classifier, the
    scraper's failure construction, the fetch-record repository and the
    control-plane service, followed by the properties of the pipeline.

    Conventions of the embedding.
    - A JavaScript string is a [string]: a sequence of bytes, read as the
      UTF-8 encoding of the text.  Every operation below is exact on ASCII
      text; the places where non-ASCII text would need more than a byte view
      (Unicode white space in [trim], case mapping of non-ASCII letters) are
      named where they occur.
    - A JavaScript number that holds a count, a status code or a time stamp
      is a [Z].
    - Code that can throw returns a [Completion].  *)

From Stdlib Require Import ZArith Bool List Ascii String Lia.
From Stdlib Require Import DecimalString DecimalPos DecimalN.
From stdpp Require Import base option list gmap strings sorting.

Local Open Scope Z_scope.

(* ================================================================== *)
(** * JavaScript values and strings                                    *)
(* ================================================================== *)

Module Js.

(** The result of evaluating code that may throw. *)
Inductive Completion (E A : Type) : Type :=
| Return (a : A)
| Throw (e : E).
Arguments Return {E A} a.
Arguments Throw {E A} e.

Definition bind {E A B} (c : Completion E A) (k : A -> Completion E B)
  : Completion E B :=
  match c with
  | Return a => k a
  | Throw e => Throw e
  end.

(** [try { body } catch (e) { handler(e) }] *)
Definition try_catch {E A} (body : Completion E A) (handler : E -> A) : A :=
  match body with
  | Return a => a
  | Throw e => handler e
  end.

(** A value of an optional property: [undefined], [null], or present. *)
Inductive Opt (A : Type) : Type :=
| undefined
| null
| value (a : A).
Arguments undefined {A}.
Arguments null {A}.
Arguments value {A} a.

Definition of_option {A} (o : option A) : Opt A :=
  match o with
  | Some a => value a
  | None => undefined
  end.

(** An untyped property value, as far as the pipeline inspects one. *)
Inductive Val : Type :=
| VUndefined
| VNumber (n : Z)
| VString (s : string).

Definition truthy (v : Val) : bool :=
  match v with
  | VUndefined => false
  | VNumber n => negb (n =? 0)%Z
  | VString s => negb (s =? "")%string
  end.

(** [a || b] *)
Definition or (a b : Val) : Val := if truthy a then a else b.

(** [s || d] for an optional string: the default replaces [undefined]
    and the empty string. *)
Definition or_string (s : option string) (d : string) : string :=
  match s with
  | Some x => if (x =? "")%string then d else x
  | None => d
  end.

(** [`${n}`] for an integer. *)
Definition string_of_Z (n : Z) : string :=
  NilZero.string_of_int (Z.to_int n).

Definition code (c : ascii) : N := N_of_ascii c.

(** [String.prototype.trim] strips white space and line terminators.  On
    bytes these are TAB, LF, VT, FF, CR and SPACE; the non-ASCII members
    (U+00A0, U+FEFF, the Unicode space separators, U+2028, U+2029) are
    multi-byte sequences and are not stripped by this model. *)
Definition is_white_space (c : ascii) : bool :=
  let n := code c in
  ((9 <=? n) && (n <=? 13) || (n =? 32))%N.

Fixpoint trimStart (s : string) : string :=
  match s with
  | String c s' => if is_white_space c then trimStart s' else s
  | EmptyString => EmptyString
  end.

Fixpoint trimEnd (s : string) : string :=
  match s with
  | String c s' =>
      match trimEnd s' with
      | EmptyString => if is_white_space c then EmptyString else String c EmptyString
      | r => String c r
      end
  | EmptyString => EmptyString
  end.

Definition trim (s : string) : string := trimEnd (trimStart s).

(** [toLowerCase] on ASCII letters; bytes of non-ASCII text are kept. *)
Definition lower_ascii (c : ascii) : ascii :=
  let n := code c in
  if ((65 <=? n) && (n <=? 90))%N then ascii_of_N (n + 32) else c.

Fixpoint toLowerCase (s : string) : string :=
  match s with
  | String c s' => String (lower_ascii c) (toLowerCase s')
  | EmptyString => EmptyString
  end.

(** [s.startsWith(p)] *)
Definition startsWith (s p : string) : bool := String.prefix p s.

(** [s.substring(n)] *)
Fixpoint substring_from (n : nat) (s : string) : string :=
  match n, s with
  | O, _ => s
  | S n', String _ s' => substring_from n' s'
  | S _, EmptyString => EmptyString
  end.

(** [s.endsWith(c)] for a one-character [c]. *)
Fixpoint endsWith_char (s : string) (c : ascii) : bool :=
  match s with
  | EmptyString => false
  | String a EmptyString => Ascii.eqb a c
  | String _ s' => endsWith_char s' c
  end.

(** [s.slice(0, -1)] *)
Fixpoint slice_drop_last (s : string) : string :=
  match s with
  | EmptyString => EmptyString
  | String _ EmptyString => EmptyString
  | String a s' => String a (slice_drop_last s')
  end.

(** [s.includes(p)] *)
Fixpoint includes (s p : string) : bool :=
  String.prefix p s ||
  match s with
  | String _ s' => includes s' p
  | EmptyString => false
  end.

(** The longest prefix of [s] whose characters satisfy [p], and the rest. *)
Fixpoint span (p : ascii -> bool) (s : string) : string * string :=
  match s with
  | String c s' =>
      if p c then let '(a, b) := span p s' in (String c a, b)
      else (EmptyString, s)
  | EmptyString => (EmptyString, EmptyString)
  end.

(** [/^https?:\/\//] : the scheme prefix, matched case-sensitively
    (the regular expression carries no [i] flag). *)
Definition match_scheme_prefix (s : string) : option string :=
  if String.prefix "https://" s then Some (substring_from 8 s)
  else if String.prefix "http://" s then Some (substring_from 7 s)
  else None.

(** [s.replace(/^https?:\/\//, '')] *)
Definition strip_scheme_prefix (s : string) : string :=
  match match_scheme_prefix s with
  | Some rest => rest
  | None => s
  end.

(** The fallback's host pattern: a caret, a group of one or more
    characters other than [/], [?] and [#], then a group of any
    characters.  Group 1 is the longest non-empty run of non-delimiters;
    group 2 is what follows, up to the first line terminator (the dot
    of a regular expression does not match LF or CR).  *)
Definition is_host_delim (c : ascii) : bool :=
  let n := code c in ((n =? 47) || (n =? 63) || (n =? 35))%N.

Definition is_line_terminator (c : ascii) : bool :=
  let n := code c in ((n =? 10) || (n =? 13))%N.

Definition match_host_rest (s : string) : option (string * string) :=
  let '(g1, rest) := span (fun c => negb (is_host_delim c)) s in
  match g1 with
  | EmptyString => None
  | _ => Some (g1, fst (span (fun c => negb (is_line_terminator c)) rest))
  end.

(** [m[1]] and [m[2]] for the result [m] of matching a pattern with two
    groups: reading an index of [null] throws a [TypeError]. *)
Inductive TypeError : Type :=
| TypeError_null_index (i : nat).

Definition group1 (m : option (string * string)) : Completion TypeError string :=
  match m with
  | Some (g1, _) => Return g1
  | None => Throw (TypeError_null_index 1)
  end.

Definition group2 (m : option (string * string)) : Completion TypeError string :=
  match m with
  | Some (_, g2) => Return g2
  | None => Throw (TypeError_null_index 2)
  end.

(** [if (m)] for a match result. *)
Definition matched (m : option (string * string)) : bool :=
  match m with
  | Some _ => true
  | None => false
  end.

End Js.

(* ================================================================== *)
(** * The platform's URL class                                          *)
(* ================================================================== *)

(** [new URL(input)] is not code of the repository: it is the URL parser
    of the JavaScript platform (the WHATWG URL Standard, basic URL parser
    without base URL).  The normalizer only ever hands it a string that
    begins with [http://] or [https://], so the model covers the two
    schemes [http] and [https]; any other input is answered with a
    failure and is never produced by the normalizer.

    The host parser of the standard (percent-decoding, IDNA processing,
    IPv4 and IPv6 literals) is a parameter [host_parser] of the model.
    General statements hold for every host parser; the concrete one used
    for evaluation, [domain_host_parser], covers ASCII domain names.  *)

Module URL.

Record t : Type := mk {
  scheme : string;          (* http or https *)
  host : string;            (* serialized host *)
  port_number : option N;   (* None: null (absent or the scheme's default) *)
  path : list string;       (* path segments, percent-encoded *)
  query : option string;    (* None: null *)
  fragment : option string  (* None: null *)
}.

(** ** Percent-encoding *)

Definition hex_digit (n : N) : ascii :=
  if (n <? 10)%N then ascii_of_N (48 + n) else ascii_of_N (55 + n).

Definition percent_encode_byte (c : ascii) : string :=
  let n := Js.code c in
  String "%" (String (hex_digit (n / 16)) (String (hex_digit (n mod 16)) EmptyString)).

(** C0 control percent-encode set: C0 controls and everything above [~]. *)
Definition in_c0_control_set (c : ascii) : bool :=
  let n := Js.code c in ((n <? 32) || (126 <? n))%N.

(** fragment percent-encode set: adds SPACE, the double quote, [<], [>]
    and the backtick. *)
Definition in_fragment_set (c : ascii) : bool :=
  let n := Js.code c in
  in_c0_control_set c ||
  ((n =? 32) || (n =? 34) || (n =? 60) || (n =? 62) || (n =? 96))%N.

(** query percent-encode set: C0 control set and SPACE, the double quote,
    [#], [<], [>]; the special-query set (used for http and https) adds
    the single quote. *)
Definition in_special_query_set (c : ascii) : bool :=
  let n := Js.code c in
  in_c0_control_set c ||
  ((n =? 32) || (n =? 34) || (n =? 35) || (n =? 60) || (n =? 62) || (n =? 39))%N.

(** path percent-encode set: the query set and [?], [^], the backtick,
    [{] and [}].  ([^] joined the set in a later revision of the standard
    and engines differ on it; no statement below depends on it.) *)
Definition in_path_set (c : ascii) : bool :=
  let n := Js.code c in
  in_c0_control_set c ||
  ((n =? 32) || (n =? 34) || (n =? 35) || (n =? 60) || (n =? 62) ||
   (n =? 63) || (n =? 94) || (n =? 96) || (n =? 123) || (n =? 125))%N.

Fixpoint percent_encode (in_set : ascii -> bool) (s : string) : string :=
  match s with
  | String c s' =>
      (if in_set c then percent_encode_byte c else String c EmptyString)
      +:+ percent_encode in_set s'
  | EmptyString => EmptyString
  end.

(** ** Preprocessing of the input *)

Definition is_c0_or_space (c : ascii) : bool := (Js.code c <=? 32)%N.

Definition is_tab_or_newline (c : ascii) : bool :=
  let n := Js.code c in ((n =? 9) || (n =? 10) || (n =? 13))%N.

Fixpoint strip_leading (p : ascii -> bool) (s : string) : string :=
  match s with
  | String c s' => if p c then strip_leading p s' else s
  | EmptyString => EmptyString
  end.

Fixpoint strip_trailing (p : ascii -> bool) (s : string) : string :=
  match s with
  | String c s' =>
      match strip_trailing p s' with
      | EmptyString => if p c then EmptyString else String c EmptyString
      | r => String c r
      end
  | EmptyString => EmptyString
  end.

Fixpoint remove_all (p : ascii -> bool) (s : string) : string :=
  match s with
  | String c s' => if p c then remove_all p s' else String c (remove_all p s')
  | EmptyString => EmptyString
  end.

Definition preprocess (input : string) : string :=
  remove_all is_tab_or_newline
    (strip_trailing is_c0_or_space (strip_leading is_c0_or_space input)).

(** ** Scheme *)

(** scheme start state and scheme state, for the two schemes of the
    model: letters are lowercased, the scheme ends at the first [:]. *)
Definition split_scheme (s : string) : option (string * string) :=
  let '(sch, rest) := Js.span (fun c => negb (Ascii.eqb c ":")) s in
  match rest with
  | String _ after =>
      let l := Js.toLowerCase sch in
      if (l =? "http")%string || (l =? "https")%string then Some (l, after) else None
  | EmptyString => None
  end.

Definition default_port (sch : string) : N :=
  if (sch =? "https")%string then 443%N else 80%N.

(** ** Authority *)

Definition is_slash (c : ascii) : bool :=
  let n := Js.code c in ((n =? 47) || (n =? 92))%N.

(** The characters that end the authority of a special URL. *)
Definition is_authority_end (c : ascii) : bool :=
  let n := Js.code c in ((n =? 47) || (n =? 92) || (n =? 63) || (n =? 35))%N.

(** authority state: what follows the last [@] of the authority is
    handed to the host state; [None] when there is no [@]. *)
Fixpoint after_last_at (s : string) : option string :=
  match s with
  | String c s' =>
      match after_last_at s' with
      | Some r => Some r
      | None => if Ascii.eqb c "@" then Some s' else None
      end
  | EmptyString => None
  end.

(** host state: the host ends at the first [:] outside square brackets. *)
Fixpoint split_host_port (inside_brackets : bool) (s : string)
  : string * option string :=
  match s with
  | String c s' =>
      if Ascii.eqb c ":" && negb inside_brackets then (EmptyString, Some s')
      else
        let ib := if Ascii.eqb c "[" then true
                  else if Ascii.eqb c "]" then false else inside_brackets in
        let '(h, p) := split_host_port ib s' in (String c h, p)
  | EmptyString => (EmptyString, None)
  end.

Definition is_digit (c : ascii) : bool :=
  let n := Js.code c in ((48 <=? n) && (n <=? 57))%N.

Fixpoint all_chars (p : ascii -> bool) (s : string) : bool :=
  match s with
  | String c s' => p c && all_chars p s'
  | EmptyString => true
  end.

Fixpoint decimal_value (acc : N) (s : string) : N :=
  match s with
  | String c s' => decimal_value (10 * acc + (Js.code c - 48))%N s'
  | EmptyString => acc
  end.

(** port state.  [Some None]: no port or the default port. *)
Definition parse_port (sch : string) (p : option string) : option (option N) :=
  match p with
  | None => Some None
  | Some EmptyString => Some None
  | Some digits =>
      if all_chars is_digit digits then
        let n := decimal_value 0 digits in
        if (65535 <? n)%N then None
        else if (n =? default_port sch)%N then Some None
        else Some (Some n)
      else None
  end.

(** ** Path, query and fragment *)

(** Split at every [/] and [\]: the last piece is the one that is ended
    by the end of the path. *)
Fixpoint split_segments (s : string) : list string :=
  match s with
  | String c s' =>
      if is_slash c then EmptyString :: split_segments s'
      else
        match split_segments s' with
        | seg :: segs => String c seg :: segs
        | [] => [String c EmptyString]
        end
  | EmptyString => [EmptyString]
  end.

Definition is_single_dot (buffer : string) : bool :=
  let l := Js.toLowerCase buffer in
  (l =? ".")%string || (l =? "%2e")%string.

Definition is_double_dot (buffer : string) : bool :=
  let l := Js.toLowerCase buffer in
  (l =? "..")%string || (l =? ".%2e")%string ||
  (l =? "%2e.")%string || (l =? "%2e%2e")%string.

(** shorten a path (of a scheme other than [file]) *)
Definition shorten (p : list string) : list string := removelast p.

(** path state, one segment at a time; [segs] are the raw segments that
    remain, the last of which is ended by the end of the path. *)
Fixpoint path_state (acc : list string) (segs : list string) : list string :=
  match segs with
  | [] => acc
  | raw :: rest =>
      let buffer := percent_encode in_path_set raw in
      let is_last := match rest with [] => true | _ => false end in
      let acc' :=
        if is_double_dot buffer then
          (if is_last then shorten acc ++ [EmptyString] else shorten acc)
        else if is_single_dot buffer then
          (if is_last then acc ++ [EmptyString] else acc)
        else acc ++ [buffer] in
      path_state acc' rest
  end.

Definition is_query_or_fragment_start (c : ascii) : bool :=
  let n := Js.code c in ((n =? 63) || (n =? 35))%N.

(** path start state and path state on what follows the authority. *)
Definition parse_path (after_authority : string) : list string * string :=
  let body :=
    match after_authority with
    | String c s' => if is_slash c then s' else after_authority
    | EmptyString => EmptyString
    end in
  let '(raw, rest) := Js.span (fun c => negb (is_query_or_fragment_start c)) body in
  (path_state [] (split_segments raw), rest).

(** query state and fragment state *)
Definition parse_query_fragment (rest : string) : option string * option string :=
  match rest with
  | String c s' =>
      if Ascii.eqb c "?" then
        let '(q, r) := Js.span (fun c => negb (Ascii.eqb c "#")) s' in
        (Some (percent_encode in_special_query_set q),
         match r with
         | String _ f => Some (percent_encode in_fragment_set f)
         | EmptyString => None
         end)
      else (None, Some (percent_encode in_fragment_set s'))
  | EmptyString => (None, None)
  end.

(** ** The parser *)

Definition parse (host_parser : string -> option string) (input : string)
  : option t :=
  match split_scheme (preprocess input) with
  | None => None
  | Some (sch, after_colon) =>
      let after_slashes := strip_leading is_slash after_colon in
      let '(authority, after_authority) :=
        Js.span (fun c => negb (is_authority_end c)) after_slashes in
      let host_and_port :=
        match after_last_at authority with
        | Some r => r
        | None => authority
        end in
      match host_and_port with
      | EmptyString => None
      | _ =>
        let '(host_string, port_string) := split_host_port false host_and_port in
        match host_string with
        | EmptyString => None
        | _ =>
          match host_parser host_string with
          | None => None
          | Some h =>
            match parse_port sch port_string with
            | None => None
            | Some p =>
              let '(segments, rest) := parse_path after_authority in
              let '(q, f) := parse_query_fragment rest in
              Some (mk sch h p segments q f)
            end
          end
        end
      end
  end.

(** ** The getters the normalizer reads *)

Definition protocol (u : t) : string := scheme u +:+ ":".

Definition hostname (u : t) : string := host u.

Definition string_of_N (n : N) : string := NilZero.string_of_uint (N.to_uint n).

Definition port (u : t) : string :=
  match port_number u with
  | Some n => string_of_N n
  | None => EmptyString
  end.

Fixpoint serialize_path (p : list string) : string :=
  match p with
  | seg :: rest => "/" +:+ seg +:+ serialize_path rest
  | [] => EmptyString
  end.

Definition pathname (u : t) : string := serialize_path (path u).

(** [search] and [hash] are empty for a null and for an empty component. *)
Definition with_mark (mark : string) (component : option string) : string :=
  match component with
  | Some EmptyString => EmptyString
  | Some s => mark +:+ s
  | None => EmptyString
  end.

Definition search (u : t) : string := with_mark "?" (query u).

Definition hash (u : t) : string := with_mark "#" (fragment u).

(** ** A concrete host parser for ASCII domain names

    The host parser of the standard on a host string that is an ASCII
    domain name: no percent sign, no square bracket, no label that begins
    with [xn--], and a last label that is not a number.  On such a string
    domain-to-ASCII is ASCII lowercasing and the result is checked for
    forbidden domain code points.  Every other host string (IPv4 and IPv6
    literals, percent-encoded or non-ASCII hosts, punycode labels) is
    outside this concrete parser, which answers it with a failure; no
    general statement below depends on that answer.  *)

Definition is_forbidden_domain_code_point (c : ascii) : bool :=
  let n := Js.code c in
  ((n <=? 32) || (n =? 34) || (n =? 35) || (n =? 37) || (n =? 47) ||
   (n =? 58) || (n =? 60) || (n =? 62) || (n =? 63) || (n =? 64) ||
   (n =? 91) || (n =? 92) || (n =? 93) || (n =? 94) || (n =? 124) ||
   (127 <=? n))%N.

Fixpoint split_labels (s : string) : list string :=
  match s with
  | String c s' =>
      if Ascii.eqb c "." then EmptyString :: split_labels s'
      else
        match split_labels s' with
        | l :: ls => String c l :: ls
        | [] => [String c EmptyString]
        end
  | EmptyString => [EmptyString]
  end.

Definition is_hex_digit (c : ascii) : bool :=
  let n := Js.code c in
  ((48 <=? n) && (n <=? 57) || (97 <=? n) && (n <=? 102))%N.

(** The last label (ignoring one trailing empty label) looks like a
    number to the ends-in-a-number checker. *)
Definition label_is_number (l : string) : bool :=
  match l with
  | EmptyString => false
  | String "0" (String "x" r) => all_chars is_hex_digit r
  | _ => all_chars is_digit l
  end.

Definition ends_in_a_number (labels : list string) : bool :=
  match rev labels with
  | EmptyString :: l :: _ => label_is_number l
  | l :: _ => label_is_number l
  | [] => false
  end.

Definition domain_host_parser (input : string) : option string :=
  let d := Js.toLowerCase input in
  let labels := split_labels d in
  if negb (all_chars (fun c => negb (is_forbidden_domain_code_point c)) d) then None
  else if existsb (fun l => Js.startsWith l "xn--") labels then None
  else if ends_in_a_number labels then None
  else match d with
       | EmptyString => None
       | _ => Some d
       end.

End URL.

(* ================================================================== *)
(** * api/src/utils/url-normalizer.util.ts                             *)
(* ================================================================== *)

Module UrlNormalizer.

Section WithPlatform.

(** [new URL(s)]: [None] when the constructor throws. *)
Variable new_URL : string -> option URL.t.

(** The pieces of the [try] block of [normalize], after the URL
    object has been built. *)

(** [hostname]: lowercased, one leading [www.] removed. *)
Definition normalized_hostname (urlObj : URL.t) : string :=
  let hostname := Js.toLowerCase (URL.hostname urlObj) in
  if Js.startsWith hostname "www." then Js.substring_from 4 hostname
  else hostname.

(** [pathname]: empty for the root path, else without one trailing
    slash. *)
Definition normalized_pathname (urlObj : URL.t) : string :=
  let pathname := URL.pathname urlObj in
  if String.eqb pathname "/" then EmptyString
  else if Js.endsWith_char pathname "/" && (1 <? String.length pathname)%nat
       then Js.slice_drop_last pathname
       else pathname.

Definition rebuild (urlObj : URL.t) : string :=
  let hostname := normalized_hostname urlObj in
  let normalized := URL.protocol urlObj +:+ "//" +:+ hostname in
  let normalized :=
    match URL.port urlObj with
    | EmptyString => normalized
    | p => normalized +:+ ":" +:+ p
    end in
  let pathname := normalized_pathname urlObj in
  let normalized := normalized +:+ pathname in
  let normalized := normalized +:+ URL.search urlObj in
  let normalized := normalized +:+ URL.hash urlObj in
  Js.strip_scheme_prefix normalized.

(** The [catch] block of [normalize]. *)
Definition fallback (url : string) : string :=
  let fallback := Js.trim url in
  let fallback := Js.strip_scheme_prefix fallback in
  match Js.match_host_rest fallback with
  | Some (g1, g2) =>
      let hostname := Js.toLowerCase g1 in
      let hostname :=
        if Js.startsWith hostname "www." then Js.substring_from 4 hostname
        else hostname in
      hostname +:+ g2
  | None => fallback
  end.

(** [workingUrl] at the call of [new URL]: trimmed, and with
    [https://] in front unless the scheme pattern matches. *)
Definition workingUrl (url : string) : string :=
  let workingUrl := Js.trim url in
  match Js.match_scheme_prefix workingUrl with
  | Some _ => workingUrl
  | None => "https://" +:+ workingUrl
  end.

(** The [try] block: the only call that can throw is [new URL]. *)
Definition normalize_try (url : string) : Js.Completion unit string :=
  match new_URL (workingUrl url) with
  | Some urlObj => Js.Return (rebuild urlObj)
  | None => Js.Throw tt
  end.

Definition normalize (url : string) : string :=
  Js.try_catch (normalize_try url) (fun _ => fallback url).

Definition getCanonicalUrl (url : string) : string :=
  let normalized := normalize url in
  "https://" +:+ normalized.

Definition areEquivalent (url1 url2 : string) : bool :=
  (normalize url1 =? normalize url2)%string.

(** The [catch] block of [normalize] statement by statement, as code
    that may throw: [hostMatch[1]] and [hostMatch[2]] throw when
    [hostMatch] is [null], and only the [if] keeps them from it. *)
Definition fallback_block (url : string) : Js.Completion Js.TypeError string :=
  let fallback := Js.trim url in
  let fallback := Js.strip_scheme_prefix fallback in
  let hostMatch := Js.match_host_rest fallback in
  if Js.matched hostMatch then
    Js.bind (Js.group1 hostMatch) (fun g1 =>
    let hostname := Js.toLowerCase g1 in
    let hostname :=
      if Js.startsWith hostname "www." then Js.substring_from 4 hostname
      else hostname in
    Js.bind (Js.group2 hostMatch) (fun g2 =>
    Js.Return (hostname +:+ Js.or_string (Some g2) "")))
  else Js.Return fallback.

(** [normalize] and [getCanonicalUrl] as code that may throw: what the
    [try] block throws is caught, what the [catch] block throws is not. *)
Definition normalize_completion (url : string) : Js.Completion Js.TypeError string :=
  match normalize_try url with
  | Js.Return normalized => Js.Return normalized
  | Js.Throw _ => fallback_block url
  end.

Definition getCanonicalUrl_completion (url : string)
  : Js.Completion Js.TypeError string :=
  Js.bind (normalize_completion url) (fun normalized =>
  Js.Return ("https://" +:+ normalized)).

(** [getHostname]: the [try] block builds the URL object as [normalize]
    does; the [catch] block works on the untrimmed [url] and returns it
    unchanged when the host pattern does not match. *)
Definition getHostname (url : string) : string :=
  match new_URL (workingUrl url) with
  | Some urlObj => normalized_hostname urlObj
  | None =>
      match Js.match_host_rest (Js.strip_scheme_prefix url) with
      | Some (g1, _) =>
          let hostname := Js.toLowerCase g1 in
          if Js.startsWith hostname "www." then Js.substring_from 4 hostname
          else hostname
      | None => url
      end
  end.

End WithPlatform.

End UrlNormalizer.

(** The normalizer on the platform's URL parser, with the host parser for
    ASCII domain names. *)
Definition new_URL : string -> option URL.t := URL.parse URL.domain_host_parser.
Definition canonical : string -> string := UrlNormalizer.getCanonicalUrl new_URL.

(* ================================================================== *)
(** * Messages of the queue protocol (interfaces/scrape.interface.ts)   *)
(* ================================================================== *)

(** Time stamps ([Date]) are milliseconds since the epoch. *)

Module ScrapeRequest.
Record t : Type := mk {
  id : string;
  url : string;
  userAgent : option string;
  timeout : option Z;
  retryCount : option Z;
  priority : option Z
}.
End ScrapeRequest.

Module ScrapeResult.
Record t : Type := mk {
  id : string;
  url : string;
  success : bool;
  content : option string;
  contentType : option string;
  httpStatus : option Z;
  errorMessage : option string;
  finalUrl : option string;
  responseTime : Z;
  contentLength : Z;
  contentHash : option string;
  userAgent : string;
  redirectChain : option (list string);
  scrapedAt : Z
}.
End ScrapeResult.

Module ScrapeFailure.
Record t : Type := mk {
  id : string;
  url : string;
  errorMessage : string;
  retryCount : Z;
  maxRetries : Z;
  canRetry : bool;
  httpStatus : option Z;
  failedAt : Z
}.
End ScrapeFailure.

Module ScrapeStarted.
Record t : Type := mk {
  id : string;
  url : string;
  startedAt : Z;
  userAgent : string
}.
End ScrapeStarted.

Inductive QueueNames : Type :=
| SCRAPE_REQUESTS
| SCRAPE_STARTED
| SCRAPE_RESULTS
| SCRAPE_FAILURES.

Inductive FetchStatus : Type :=
| PENDING
| PROCESSING
| SUCCESS
| FAILED
| ARCHIVED.

Definition FetchStatus_eqb (a b : FetchStatus) : bool :=
  match a, b with
  | PENDING, PENDING | PROCESSING, PROCESSING | SUCCESS, SUCCESS
  | FAILED, FAILED | ARCHIVED, ARCHIVED => true
  | _, _ => false
  end.

(** The value of the string enum, as a template literal prints it. *)
Definition FetchStatus_string (s : FetchStatus) : string :=
  match s with
  | PENDING => "PENDING"
  | PROCESSING => "PROCESSING"
  | SUCCESS => "SUCCESS"
  | FAILED => "FAILED"
  | ARCHIVED => "ARCHIVED"
  end.

Module HttpStatusCode.
Definition OK : Z := 200.
Definition BAD_REQUEST : Z := 400.
Definition UNAUTHORIZED : Z := 401.
Definition FORBIDDEN : Z := 403.
Definition NOT_FOUND : Z := 404.
Definition TIMEOUT : Z := 408.
Definition TOO_MANY_REQUESTS : Z := 429.
Definition INTERNAL_SERVER_ERROR : Z := 500.
Definition BAD_GATEWAY : Z := 502.
Definition SERVICE_UNAVAILABLE : Z := 503.
Definition GATEWAY_TIMEOUT : Z := 504.
End HttpStatusCode.

(** A message on one of the four queues. *)
Inductive Message : Type :=
| MsgRequest (m : ScrapeRequest.t)
| MsgStarted (m : ScrapeStarted.t)
| MsgResult (m : ScrapeResult.t)
| MsgFailure (m : ScrapeFailure.t).

(* ================================================================== *)
(** * scraper/src/utils/http-error-handler.ts                          *)
(* ================================================================== *)

Module HttpErrorHandler.

(** An object that was thrown, as far as the classifier reads it: the
    properties [name], [message], [status] and [code]. *)
Record ErrorObject : Type := mkError {
  name : option string;
  message : option string;
  status : Js.Val;
  code : Js.Val
}.

(** [new Error(msg)] *)
Definition Error (msg : string) : ErrorObject :=
  mkError (Some "Error") (Some msg) Js.VUndefined Js.VUndefined.

(** The [TypeError] the engine throws when a property of [null] is read
    (wording of V8, the engine of Node.js). *)
Definition TypeError_null_property (prop : string) : ErrorObject :=
  mkError (Some "TypeError")
    (Some ("Cannot read properties of null (reading '" +:+ prop +:+ "')"))
    Js.VUndefined Js.VUndefined.

Record HttpErrorResult : Type := mkResult {
  canRetry : bool;
  errorMessage : string;
  httpStatus : option Z;
  isTemporary : bool
}.

Definition Outcome : Type := Js.Completion ErrorObject HttpErrorResult.

Definition handleHttpStatus (status : Z) (message : string) : HttpErrorResult :=
  if (status =? HttpStatusCode.OK) then
    mkResult false "Success" (Some status) false
  else if (status =? HttpStatusCode.BAD_REQUEST) || (status =? HttpStatusCode.UNAUTHORIZED)
       || (status =? HttpStatusCode.FORBIDDEN) || (status =? HttpStatusCode.NOT_FOUND) then
    mkResult false
      ("Client error " +:+ Js.string_of_Z status +:+ ": " +:+ message)
      (Some status) false
  else if (status =? HttpStatusCode.TIMEOUT) || (status =? HttpStatusCode.TOO_MANY_REQUESTS) then
    mkResult true
      ("Rate limited or timeout " +:+ Js.string_of_Z status +:+ ": " +:+ message)
      (Some status) true
  else if (status =? HttpStatusCode.INTERNAL_SERVER_ERROR) || (status =? HttpStatusCode.BAD_GATEWAY)
       || (status =? HttpStatusCode.SERVICE_UNAVAILABLE) || (status =? HttpStatusCode.GATEWAY_TIMEOUT) then
    mkResult true
      ("Server error " +:+ Js.string_of_Z status +:+ ": " +:+ message)
      (Some status) true
  else if (200 <=? status) && (status <? 300) then
    mkResult false "Success" (Some status) false
  else if (400 <=? status) && (status <? 500) then
    mkResult false
      ("Client error " +:+ Js.string_of_Z status +:+ ": " +:+ message)
      (Some status) false
  else if (500 <=? status) then
    mkResult true
      ("Server error " +:+ Js.string_of_Z status +:+ ": " +:+ message)
      (Some status) true
  else
    mkResult false
      ("Unknown status " +:+ Js.string_of_Z status +:+ ": " +:+ message)
      (Some status) false.

Definition handleChromeNetworkError (errorMessage : string) : HttpErrorResult :=
  if Js.includes errorMessage "ERR_CONNECTION_REFUSED" then
    mkResult true "Connection refused" (Some HttpStatusCode.SERVICE_UNAVAILABLE) true
  else if Js.includes errorMessage "ERR_CONNECTION_TIMED_OUT"
       || Js.includes errorMessage "ERR_TIMED_OUT" then
    mkResult true "Connection timeout" (Some HttpStatusCode.TIMEOUT) true
  else if Js.includes errorMessage "ERR_NAME_NOT_RESOLVED" then
    mkResult false "DNS resolution failed" (Some HttpStatusCode.NOT_FOUND) false
  else if Js.includes errorMessage "ERR_CERT_" then
    mkResult false "SSL certificate error" (Some HttpStatusCode.BAD_GATEWAY) false
  else if Js.includes errorMessage "ERR_NETWORK_CHANGED"
       || Js.includes errorMessage "ERR_INTERNET_DISCONNECTED" then
    mkResult true "Network connectivity issue" (Some HttpStatusCode.SERVICE_UNAVAILABLE) true
  else
    mkResult true ("Chrome network error: " +:+ errorMessage)
      (Some HttpStatusCode.SERVICE_UNAVAILABLE) true.

(** [error?.prop]: [undefined] when [error] is [null]. *)
Definition optional_chain (error : option ErrorObject) (prop : ErrorObject -> Js.Val)
  : Js.Val :=
  match error with
  | Some e => prop e
  | None => Js.VUndefined
  end.

(** [error.message]: reading a property of [null] throws. *)
Definition read_message (error : option ErrorObject)
  : Js.Completion ErrorObject (option string) :=
  match error with
  | Some e => Js.Return (message e)
  | None => Js.Throw (TypeError_null_property "message")
  end.

(** [m?.includes(p)], as a condition. *)
Definition message_includes (m : option string) (p : string) : bool :=
  match m with
  | Some s => Js.includes s p
  | None => false
  end.

Definition val_is_string (v : Js.Val) (s : string) : bool :=
  match v with
  | Js.VString x => String.eqb x s
  | _ => false
  end.

(** [`${v}`] *)
Definition val_to_string (v : Js.Val) : string :=
  match v with
  | Js.VString s => s
  | Js.VNumber n => Js.string_of_Z n
  | Js.VUndefined => "undefined"
  end.

(** The rest of [handle], once [error] is known to be an object. *)
Definition classify_error (e : ErrorObject) : HttpErrorResult :=
  if message_includes (message e) "net::ERR_" then
    handleChromeNetworkError (default "" (message e))
  else if (match name e with Some n => String.eqb n "TimeoutError" | None => false end)
       || message_includes (message e) "timeout" then
    mkResult true "Request timeout" (Some HttpStatusCode.TIMEOUT) true
  else if val_is_string (code e) "ENOTFOUND" then
    mkResult false ("DNS resolution failed: " +:+ val_to_string (code e)) None false
  else if val_is_string (code e) "ECONNREFUSED" then
    mkResult true ("Connection refused: " +:+ val_to_string (code e)) None true
  else if val_is_string (code e) "ECONNRESET" || val_is_string (code e) "ETIMEDOUT" then
    mkResult true ("Connection error: " +:+ val_to_string (code e)) None true
  else
    mkResult true (Js.or_string (message e) "Unknown error") None true.

(** [handle(error, response?)].  [error] is [None] for [null];
    [response] is [None] when the argument is omitted, and otherwise
    carries the value of [response.status()]. *)
Definition handle (error : option ErrorObject) (response : option Z) : Outcome :=
  let httpStatus :=
    Js.or (Js.or (match response with
                  | Some s => Js.VNumber s
                  | None => Js.VUndefined
                  end)
                 (optional_chain error status))
          (optional_chain error code) in
  match httpStatus with
  | Js.VNumber n =>
      Js.bind (read_message error) (fun m =>
      Js.Return (handleHttpStatus n (Js.or_string m "HTTP error")))
  | _ =>
      match error with
      | Some e => Js.Return (classify_error e)
      | None => Js.Throw (TypeError_null_property "message")
      end
  end.

End HttpErrorHandler.

(* ================================================================== *)
(** * scraper/src/services/scraper.service.ts                          *)
(* ================================================================== *)

Module ScraperService.

Import HttpErrorHandler.

(** What the browser did with one attempt. *)
Inductive PageOutcome : Type :=
| Thrown (e : ErrorObject)
    (* a statement of the [try] block threw [e] (navigation error,
       timeout, browser not initialised, ...) *)
| NoResponse
    (* [page.goto] resolved to [null] *)
| Response (httpStatus : Z) (finalUrl : string) (redirectChain : list string)
           (content : string) (contentTypeHeader : option string)
| CloseThrown (e : ErrorObject).
    (* the page was opened and [page.close()] threw [e] in the [finally]
       block, whatever the [try] and [catch] blocks had completed with *)

Section Worker.

(** [MAX_RETRIES] as the worker reads it ([this.retryCount]). *)
Variable retryCount : Z.
(** [createHash('sha256').update(content).digest('hex')] and
    [Buffer.byteLength(content, 'utf8')]. *)
Variable sha256_hex : string -> string.
Variable byteLength : string -> Z.
(** [new Date()] and the elapsed time, at the end of the attempt. *)
Variable now : Z.
Variable elapsed : Z.

Definition userAgent : string :=
  "Mozilla/5.0 (Windows NT 10.0; Win64; x64) AppleWebKit/537.36 (KHTML, like Gecko) Chrome/91.0.4472.124 Safari/537.36".

(** [request.retryCount || 0] *)
Definition retryCount_or_0 (request : ScrapeRequest.t) : Z :=
  match ScrapeRequest.retryCount request with
  | Some n => n
  | None => 0
  end.

Definition createFailure (request : ScrapeRequest.t) (errorMessage : string)
    (canRetry : bool) (httpStatus : option Z) : ScrapeFailure.t :=
  ScrapeFailure.mk
    (ScrapeRequest.id request)
    (ScrapeRequest.url request)
    errorMessage
    (retryCount_or_0 request)
    retryCount
    (canRetry && (retryCount_or_0 request <? retryCount))
    httpStatus
    now.

(** The [try] block of [scrapeUrl] once the started notification is
    out: it returns a result or a failure, or throws.  (For
    [CloseThrown] the completion of the block does not matter:
    [scrapeUrl] loses it.) *)
Definition scrapeUrl_try (request : ScrapeRequest.t) (page : PageOutcome)
  : Js.Completion ErrorObject (ScrapeResult.t + ScrapeFailure.t) :=
  match page with
  | Thrown e => Js.Throw e
  | CloseThrown e => Js.Throw e
  | NoResponse => Js.Throw (Error "No response received")
  | Response httpStatus finalUrl redirectChain content contentTypeHeader =>
      if (400 <=? httpStatus) then
        Js.bind (handle None (Some httpStatus)) (fun errorHandler =>
        Js.Return (inr (createFailure request (errorMessage errorHandler)
                          (canRetry errorHandler) (Some httpStatus))))
      else
        Js.Return (inl (ScrapeResult.mk
          (ScrapeRequest.id request)
          (ScrapeRequest.url request)
          true
          (Some content)
          (Some (Js.or_string contentTypeHeader "text/html"))
          (Some httpStatus)
          None
          (Some finalUrl)
          elapsed
          (byteLength content)
          (Some (sha256_hex content))
          userAgent
          (Some redirectChain)
          now))
  end.

(** The [catch] block of [scrapeUrl]; it can itself throw when
    [handle] does. *)
Definition scrapeUrl_catch (request : ScrapeRequest.t) (error : ErrorObject)
  : Js.Completion ErrorObject (ScrapeResult.t + ScrapeFailure.t) :=
  Js.bind (handle (Some error) None) (fun errorHandler =>
  Js.Return (inr (createFailure request (errorMessage errorHandler)
                    (canRetry errorHandler) (httpStatus errorHandler)))).

(** [scrapeUrl]: the [try] block, the [catch] block for what it throws,
    and the [finally] block, whose exception replaces the completion of
    the other two. *)
Definition scrapeUrl (request : ScrapeRequest.t) (page : PageOutcome)
  : Js.Completion ErrorObject (ScrapeResult.t + ScrapeFailure.t) :=
  match page with
  | CloseThrown e => Js.Throw e
  | _ =>
      match scrapeUrl_try request page with
      | Js.Return r => Js.Return r
      | Js.Throw error => scrapeUrl_catch request error
      end
  end.

Definition startedNotification (request : ScrapeRequest.t) : ScrapeStarted.t :=
  ScrapeStarted.mk (ScrapeRequest.id request) (ScrapeRequest.url request)
    now userAgent.

(** The consumer callback of [startConsumer] on one request: the
    messages it hands to the broker, in order, the broker taking each of
    them.  The started notification is the first statement of
    [scrapeUrl]; an exception that leaves [scrapeUrl] is reported as a
    processing error. *)
Definition consume (request : ScrapeRequest.t) (page : PageOutcome)
  : list (QueueNames * Message) :=
  (SCRAPE_STARTED, MsgStarted (startedNotification request)) ::
  match scrapeUrl request page with
  | Js.Return (inl result) =>
      if ScrapeResult.success result
      then [(SCRAPE_RESULTS, MsgResult result)]
      else [(SCRAPE_FAILURES, MsgResult result)]
  | Js.Return (inr failure) => [(SCRAPE_FAILURES, MsgFailure failure)]
  | Js.Throw processingError =>
      [(SCRAPE_FAILURES,
        MsgFailure (createFailure request
          ("Processing error: " +:+
           match message processingError with
           | Some m => m
           | None => "undefined"
           end)
          true None))]
  end.

End Worker.

End ScraperService.

(* ================================================================== *)
(** * api/src/schemas/url-fetch-request.schema.ts                      *)
(* ================================================================== *)

Module UrlFetchRequest.

(** The optional string properties of a fetch record. *)
Inductive StrField : Type :=
| content | contentType | errorMessage | finalUrl | contentHash | userAgent.

(** The optional numeric properties; dates are milliseconds. *)
Inductive NumField : Type :=
| httpStatus | responseTime | contentLength
| fetchedAt | lastScrapedAt | createdAt | updatedAt.

Definition StrField_eqb (a b : StrField) : bool :=
  match a, b with
  | content, content | contentType, contentType | errorMessage, errorMessage
  | finalUrl, finalUrl | contentHash, contentHash | userAgent, userAgent => true
  | _, _ => false
  end.

Definition NumField_eqb (a b : NumField) : bool :=
  match a, b with
  | httpStatus, httpStatus | responseTime, responseTime
  | contentLength, contentLength | fetchedAt, fetchedAt
  | lastScrapedAt, lastScrapedAt | createdAt, createdAt
  | updatedAt, updatedAt => true
  | _, _ => false
  end.

(** A stored document.  An optional property that is absent or [null]
    reads [None]. *)
Record t : Type := mk {
  url : string;
  status : FetchStatus;
  retryCount : Z;
  redirectChain : list string;
  str : StrField -> option string;
  num : NumField -> option Z
}.

(** One [key: value] of a [Partial<UrlFetchRequest>] object literal. *)
Inductive Assign : Type :=
| set_url (v : string)
| set_status (v : FetchStatus)
| set_retryCount (v : Z)
| set_redirectChain (v : list string)
| set_str (f : StrField) (v : Js.Opt string)
| set_num (f : NumField) (v : Js.Opt Z).

Definition Partial : Type := list Assign.

Definition write {F A} (eqb : F -> F -> bool) (m : F -> option A) (f : F)
    (v : option A) : F -> option A :=
  fun g => if eqb f g then v else m g.

(** The effect of one assignment of an update document.  The update
    reaches the store through Mongoose's [findByIdAndUpdate], which
    (since Mongoose 6) drops a key whose value is [undefined] from the
    update, stores [null] for a key whose value is [null], and stores a
    present value.  The service relies on the difference where it means to
    clear a property: [handleScrapeResult] and [fixDataInconsistencies]
    write [null]. *)
Definition assign (d : t) (a : Assign) : t :=
  match a with
  | set_url v => mk v (status d) (retryCount d) (redirectChain d) (str d) (num d)
  | set_status v => mk (url d) v (retryCount d) (redirectChain d) (str d) (num d)
  | set_retryCount v => mk (url d) (status d) v (redirectChain d) (str d) (num d)
  | set_redirectChain v => mk (url d) (status d) (retryCount d) v (str d) (num d)
  | set_str f v =>
      match v with
      | Js.undefined => d
      | Js.null =>
          mk (url d) (status d) (retryCount d) (redirectChain d)
             (write StrField_eqb (str d) f None) (num d)
      | Js.value x =>
          mk (url d) (status d) (retryCount d) (redirectChain d)
             (write StrField_eqb (str d) f (Some x)) (num d)
      end
  | set_num f v =>
      match v with
      | Js.undefined => d
      | Js.null =>
          mk (url d) (status d) (retryCount d) (redirectChain d)
             (str d) (write NumField_eqb (num d) f None)
      | Js.value x =>
          mk (url d) (status d) (retryCount d) (redirectChain d)
             (str d) (write NumField_eqb (num d) f (Some x))
      end
  end.

Definition apply_update (d : t) (data : Partial) : t := fold_left assign data d.

(** A new document: the schema defaults ([status] PENDING, [retryCount]
    0, [redirectChain] empty) and the time stamps of [timestamps: true]. *)
Definition fresh (now : Z) : t :=
  mk "" PENDING 0 []
     (fun _ => None)
     (fun f => match f with
               | createdAt | updatedAt => Some now
               | _ => None
               end).

End UrlFetchRequest.

(* ================================================================== *)
(** * api/src/repositories/url-fetch-request.repository.ts             *)
(* ================================================================== *)

Module UrlFetchRequestRepository.

Import UrlFetchRequest.

(** The collection: documents by [_id], and the counter the identifiers
    are drawn from.  The store and the queue are taken to be reachable:
    no operation of this model throws. *)
Record Collection : Type := mkCollection {
  docs : gmap string UrlFetchRequest.t;
  next_id : N
}.

Definition empty : Collection := mkCollection ∅ 0.

Definition id_of (n : N) : string := URL.string_of_N n.

Definition create (now : Z) (data : Partial) (c : Collection)
  : string * UrlFetchRequest.t * Collection :=
  let id := id_of (next_id c) in
  let d := apply_update (fresh now) data in
  (id, d, mkCollection (<[id := d]> (docs c)) (N.succ (next_id c))).

Definition findById (id : string) (c : Collection) : option UrlFetchRequest.t :=
  docs c !! id.

(** [findByIdAndUpdate(id, data, { new: true })]: the updated document,
    or [null] when there is none with this [_id]. *)
Definition update (id : string) (data : Partial) (c : Collection)
  : option UrlFetchRequest.t * Collection :=
  match docs c !! id with
  | Some d =>
      let d' := apply_update d data in
      (Some d', mkCollection (<[id := d']> (docs c)) (next_id c))
  | None => (None, c)
  end.

Section WithPlatform.

Variable new_URL : string -> option URL.t.

Definition urlVariations (url : string) : list string :=
  let normalizedUrl := UrlNormalizer.normalize new_URL url in
  let canonicalUrl := UrlNormalizer.getCanonicalUrl new_URL url in
  [ url; canonicalUrl; normalizedUrl;
    "https://" +:+ normalizedUrl; "http://" +:+ normalizedUrl ].

Definition string_in (s : string) (l : list string) : bool :=
  existsb (String.eqb s) l.

(** [{ field: { $gte: cutoff } }] *)
Definition gte (v : option Z) (cutoff : Z) : bool :=
  match v with
  | Some x => cutoff <=? x
  | None => false
  end.

(** The filter of [getRecentByUrl]. *)
Definition recent_filter (variations : list string) (cutoffTime : Z)
    (d : UrlFetchRequest.t) : bool :=
  (string_in (url d) variations &&
     ((gte (num d fetchedAt) cutoffTime && FetchStatus_eqb (status d) SUCCESS)
      || (gte (num d createdAt) cutoffTime &&
          (FetchStatus_eqb (status d) PENDING || FetchStatus_eqb (status d) PROCESSING))))
  || (existsb (fun r => string_in r variations) (redirectChain d)
      && gte (num d fetchedAt) cutoffTime
      && FetchStatus_eqb (status d) SUCCESS).

(** [sort({ createdAt: -1 })] then the first document: one with the
    greatest [createdAt] (an absent value sorts last). *)
Definition newer (a b : UrlFetchRequest.t) : bool :=
  match num a createdAt, num b createdAt with
  | Some x, Some y => y <? x
  | Some _, None => true
  | None, _ => false
  end.

Definition newest (l : list UrlFetchRequest.t) : option UrlFetchRequest.t :=
  fold_left (fun best d =>
               match best with
               | Some b => if newer d b then Some d else Some b
               | None => Some d
               end) l None.

Definition getRecentByUrl (now : Z) (url : string) (minutesAgo : Z)
    (c : Collection) : option UrlFetchRequest.t :=
  let cutoffTime := now - minutesAgo * 60 * 1000 in
  let variations := urlVariations url in
  newest (filter (fun d => recent_filter variations cutoffTime d = true)
                 (snd <$> map_to_list (docs c))).

(** The [$or] of [findLatestByUrl] and [getUrlHistory]: the stored URL is
    one of the variations. *)
Definition url_matches (url : string) (d : UrlFetchRequest.t) : bool :=
  string_in (UrlFetchRequest.url d) (urlVariations url).

(** [sort({ fetchedAt: -1 })]: [a] may come before [b] (an absent value
    sorts last). *)
Definition fetched_not_before (a b : string * UrlFetchRequest.t) : bool :=
  match num (snd a) fetchedAt, num (snd b) fetchedAt with
  | Some x, Some y => y <=? x
  | Some _, None => true
  | None, Some _ => false
  | None, None => true
  end.

Definition fetched_order (a b : string * UrlFetchRequest.t) : Prop :=
  fetched_not_before a b = true.

#[global] Instance fetched_order_dec : RelDecision fetched_order.
Proof. intros a b. unfold fetched_order. apply _. Defined.

(** [getUrlHistory]: the documents with their [_id]. *)
Definition getUrlHistory (url : string) (c : Collection)
  : list (string * UrlFetchRequest.t) :=
  merge_sort fetched_order
    (filter (fun p => url_matches url (snd p) = true) (map_to_list (docs c))).

(** [findLatestByUrl]: the first document of the sorted matches. *)
Definition findLatestByUrl (url : string) (c : Collection)
  : option (string * UrlFetchRequest.t) :=
  head (merge_sort fetched_order
          (filter (fun p => url_matches url (snd p)
                            && FetchStatus_eqb (status (snd p)) SUCCESS = true)
                  (map_to_list (docs c)))).

End WithPlatform.

(** [{ field: { $lt: cutoff } }] *)
Definition lt (v : option Z) (cutoff : Z) : bool :=
  match v with
  | Some x => x <? cutoff
  | None => false
  end.

(** The filter of [findStalePendingRequests]. *)
Definition stale_pending (cutoffTime : Z) (d : UrlFetchRequest.t) : bool :=
  FetchStatus_eqb (status d) PENDING && lt (num d createdAt) cutoffTime.

Definition findStalePendingRequests (now : Z) (timeoutMinutes : Z) (c : Collection)
  : list (string * UrlFetchRequest.t) :=
  let cutoffTime := now - timeoutMinutes * 60 * 1000 in
  filter (fun p => stale_pending cutoffTime (snd p) = true) (map_to_list (docs c)).

(** [sort({ createdAt: -1 })]: [a] may come before [b]. *)
Definition created_not_before (a b : string * UrlFetchRequest.t) : bool :=
  negb (newer (snd b) (snd a)).

Definition created_order (a b : string * UrlFetchRequest.t) : Prop :=
  created_not_before a b = true.

#[global] Instance created_order_dec : RelDecision created_order.
Proof. intros a b. unfold created_order. apply _. Defined.

(** [findAll(filter, limit, offset)]: the matches, newest first, without
    the first [offset] and cut to [limit] documents (a limit of 0 is no
    limit to MongoDB).  The query object is taken as the predicate it
    denotes. *)
Definition findAll (query : UrlFetchRequest.t -> bool) (limit offset : nat)
    (c : Collection) : list (string * UrlFetchRequest.t) :=
  let sorted :=
    merge_sort created_order
      (filter (fun p => query (snd p) = true) (map_to_list (docs c))) in
  let skipped := drop offset sorted in
  match limit with
  | O => skipped
  | _ => take limit skipped
  end.

End UrlFetchRequestRepository.

(* ================================================================== *)
(** * api/src/services/url-content.service.ts                          *)
(* ================================================================== *)

Module UrlContentService.

Import UrlFetchRequest UrlFetchRequestRepository.

(** What the service acts on: the repository and the queue bus (the
    messages published so far, oldest first). *)
Record State : Type := mkState {
  repository : Collection;
  published : list (QueueNames * Message)
}.

Definition initial : State := mkState UrlFetchRequestRepository.empty [].

(** [rabbitMQClient.publish] when the broker takes the message; the
    calls that throw are the faults of [submitUrl_or_catch] and the
    refusals of [deliver_or_catch]. *)
Definition publish (queue : QueueNames) (m : Message) (st : State) : State :=
  mkState (repository st) (published st ++ [(queue, m)]).

Record SkippedUrl : Type := mkSkipped {
  skipped_url : string;
  reason : string;
  lastScrapedAt : option Z;
  nextAvailableAt : option Z
}.

Record SubmitUrlsResponseDto : Type := mkResponse {
  submitted : list string;
  skipped : list SkippedUrl;
  queued : list string
}.

(** The arrow of the redirect reason, byte for byte as the source file
    spells it. *)
Definition arrow : string :=
  string_of_list_ascii
    (map ascii_of_N [195; 162; 226; 128; 160; 226; 128; 153]%N).

Section Service.

Variable new_URL : string -> option URL.t.
(** [SCRAPE_INTERVAL_MINUTES] and [MAX_RETRIES] of the configuration. *)
Variable scrapeInterval : Z.
Variable maxRetries : Z.

(** [submitUrls], lines 42-67: the entry for a URL that is skipped
    because [getRecentByUrl] returned [recentRequest]. *)
Definition skip (url canonicalUrl : string) (recentRequest : UrlFetchRequest.t)
  : SkippedUrl :=
  let '(reason, nextAvailableAt) :=
    match FetchStatus_eqb (status recentRequest) SUCCESS,
          num recentRequest fetchedAt with
    | true, Some fetched =>
        (if String.eqb (UrlFetchRequest.url recentRequest) canonicalUrl
            || UrlNormalizer.areEquivalent new_URL
                 (UrlFetchRequest.url recentRequest) url
         then "Successfully scraped within " +:+ Js.string_of_Z scrapeInterval
              +:+ " minutes"
         else "Already scraped via redirect ("
              +:+ UrlFetchRequest.url recentRequest
              +:+ " " +:+ arrow +:+ " redirects to this URL)",
         Some (fetched + scrapeInterval * 60 * 1000))
    | _, _ =>
        if FetchStatus_eqb (status recentRequest) PENDING
           || FetchStatus_eqb (status recentRequest) PROCESSING
        then ("Already queued for scraping (status: "
              +:+ FetchStatus_string (status recentRequest) +:+ ")", None)
        else ("Recent request exists with status: "
              +:+ FetchStatus_string (status recentRequest), None)
    end in
  mkSkipped url reason
    (match num recentRequest fetchedAt with
     | Some f => Some f
     | None => num recentRequest createdAt
     end)
    nextAvailableAt.

(** One iteration of the loop of [submitUrls] in which no call throws;
    [submitUrl_or_catch] below is the iteration with its [catch]
    block. *)
Definition submitUrl (now : Z) (acc : SubmitUrlsResponseDto * State)
    (url : string) : SubmitUrlsResponseDto * State :=
  let '(r, st) := acc in
  let canonicalUrl := UrlNormalizer.getCanonicalUrl new_URL url in
  match getRecentByUrl new_URL now url scrapeInterval (repository st) with
  | Some recentRequest =>
      (mkResponse (submitted r)
                  (skipped r ++ [skip url canonicalUrl recentRequest])
                  (queued r),
       st)
  | None =>
      let '(id, _, c) :=
        create now
          [set_url canonicalUrl; set_status PENDING; set_retryCount 0]
          (repository st) in
      let scrapeRequest :=
        ScrapeRequest.mk id canonicalUrl None None (Some 0) (Some 1) in
      let st := publish SCRAPE_REQUESTS (MsgRequest scrapeRequest)
                  (mkState c (published st)) in
      (mkResponse (submitted r ++ [url]) (skipped r) (queued r ++ [id]), st)
  end.

Definition submitUrls (now : Z) (urls : list string) (st : State)
  : SubmitUrlsResponseDto * State :=
  fold_left (submitUrl now) urls (mkResponse [] [] [], st).

(** The call of an iteration that throws, with what it throws: the
    query of the store, the creation of the record, or the publication
    of the request ([RabbitMQUtil.publish] throws when there is no
    channel or the channel does not take the message). *)
Inductive SubmitFault : Type :=
| getRecentByUrl_throws (error : HttpErrorHandler.ErrorObject)
| create_throws (error : HttpErrorHandler.ErrorObject)
| publish_throws (error : HttpErrorHandler.ErrorObject).

(** The entry the [catch] block pushes: neither [lastScrapedAt] nor
    [nextAvailableAt]. *)
Definition processing_error (url : string) (error : HttpErrorHandler.ErrorObject)
  : SkippedUrl :=
  mkSkipped url
    ("Processing error: " +:+
     match HttpErrorHandler.message error with
     | Some m => m
     | None => "undefined"
     end)
    None None.

(** One iteration of the loop of [submitUrls], with its [catch] block.
    A fault after the point where the iteration ends is never met. *)
Definition submitUrl_or_catch (now : Z) (acc : SubmitUrlsResponseDto * State)
    (item : string * option SubmitFault) : SubmitUrlsResponseDto * State :=
  let '(r, st) := acc in
  let '(url, fault) := item in
  let canonicalUrl := UrlNormalizer.getCanonicalUrl new_URL url in
  let caught error st :=
    (mkResponse (submitted r) (skipped r ++ [processing_error url error]) (queued r),
     st) in
  match fault with
  | Some (getRecentByUrl_throws error) => caught error st
  | _ =>
      match getRecentByUrl new_URL now url scrapeInterval (repository st) with
      | Some recentRequest =>
          (mkResponse (submitted r)
                      (skipped r ++ [skip url canonicalUrl recentRequest])
                      (queued r),
           st)
      | None =>
          match fault with
          | Some (create_throws error) => caught error st
          | _ =>
              let '(id, _, c) :=
                create now
                  [set_url canonicalUrl; set_status PENDING; set_retryCount 0]
                  (repository st) in
              let scrapeRequest :=
                ScrapeRequest.mk id canonicalUrl None None (Some 0) (Some 1) in
              match fault with
              | Some (publish_throws error) =>
                  caught error (mkState c (published st))
              | _ =>
                  let st := publish SCRAPE_REQUESTS (MsgRequest scrapeRequest)
                              (mkState c (published st)) in
                  (mkResponse (submitted r ++ [url]) (skipped r) (queued r ++ [id]),
                   st)
              end
          end
      end
  end.

(** [submitUrls] on a batch in which each URL comes with the fault its
    iteration meets, if any. *)
Definition submitUrls_or_catch (now : Z) (batch : list (string * option SubmitFault))
    (st : State) : SubmitUrlsResponseDto * State :=
  fold_left (submitUrl_or_catch now) batch (mkResponse [] [] [], st).

Definition handleScrapeStarted (started : ScrapeStarted.t) (st : State) : State :=
  let '(_, c) :=
    update (ScrapeStarted.id started)
      [ set_status PROCESSING;
        set_str userAgent (Js.value (ScrapeStarted.userAgent started));
        set_str errorMessage Js.undefined ]
      (repository st) in
  mkState c (published st).

Definition handleScrapeResult (result : ScrapeResult.t) (st : State) : State :=
  let updateData : Partial :=
    [ set_status (if ScrapeResult.success result then SUCCESS else FAILED);
      set_num fetchedAt (Js.value (ScrapeResult.scrapedAt result));
      set_num UrlFetchRequest.lastScrapedAt (Js.value (ScrapeResult.scrapedAt result));
      set_str finalUrl (Js.of_option (ScrapeResult.finalUrl result));
      set_num responseTime (Js.value (ScrapeResult.responseTime result));
      set_num contentLength (Js.value (ScrapeResult.contentLength result));
      set_str contentHash (Js.of_option (ScrapeResult.contentHash result));
      set_str userAgent (Js.value (ScrapeResult.userAgent result));
      set_redirectChain (default [] (ScrapeResult.redirectChain result)) ] in
  let updateData :=
    if ScrapeResult.success result then
      updateData ++
      [ set_str content (Js.of_option (ScrapeResult.content result));
        set_str contentType (Js.of_option (ScrapeResult.contentType result));
        set_num httpStatus (Js.of_option (ScrapeResult.httpStatus result));
        set_str errorMessage Js.null ]
    else
      updateData ++
      [ set_str errorMessage (Js.of_option (ScrapeResult.errorMessage result));
        set_num httpStatus (Js.of_option (ScrapeResult.httpStatus result));
        set_str content Js.null;
        set_str contentType Js.null;
        set_str contentHash Js.null ] in
  let '(_, c) := update (ScrapeResult.id result) updateData (repository st) in
  mkState c (published st).

Definition handleScrapeFailure (failure : ScrapeFailure.t) (st : State) : State :=
  if ScrapeFailure.canRetry failure
     && (ScrapeFailure.retryCount failure <? maxRetries) then
    let '(request, c) :=
      update (ScrapeFailure.id failure)
        [ set_retryCount (ScrapeFailure.retryCount failure + 1);
          set_status PENDING;
          set_str errorMessage
            (Js.value ("Retry " +:+ Js.string_of_Z (ScrapeFailure.retryCount failure + 1)
                       +:+ "/" +:+ Js.string_of_Z maxRetries +:+ ": "
                       +:+ ScrapeFailure.errorMessage failure));
          set_str content Js.undefined;
          set_str contentType Js.undefined;
          set_str contentHash Js.undefined;
          set_num fetchedAt Js.undefined ]
        (repository st) in
    let st := mkState c (published st) in
    match request with
    | Some _ =>
        let scrapeRequest :=
          ScrapeRequest.mk (ScrapeFailure.id failure) (ScrapeFailure.url failure)
            None None (Some (ScrapeFailure.retryCount failure + 1)) (Some 2) in
        publish SCRAPE_REQUESTS (MsgRequest scrapeRequest) st
    | None => st
    end
  else
    let reason :=
      if ScrapeFailure.canRetry failure
      then "Maximum retries (" +:+ Js.string_of_Z maxRetries +:+ ") exceeded"
      else "Error is not retryable" in
    let '(_, c) :=
      update (ScrapeFailure.id failure)
        [ set_status FAILED;
          set_str errorMessage
            (Js.value (reason +:+ ": " +:+ ScrapeFailure.errorMessage failure));
          set_num httpStatus (Js.of_option (ScrapeFailure.httpStatus failure));
          set_str content Js.undefined;
          set_str contentType Js.undefined;
          set_str contentHash Js.undefined ]
        (repository st) in
    mkState c (published st).

(** The consumers of [startConsumers]: one message, dispatched by the
    queue it arrived on. *)
Definition deliver (queue : QueueNames) (m : Message) (st : State) : State :=
  match queue, m with
  | SCRAPE_STARTED, MsgStarted s => handleScrapeStarted s st
  | SCRAPE_RESULTS, MsgResult r => handleScrapeResult r st
  | SCRAPE_FAILURES, MsgFailure f => handleScrapeFailure f st
  | _, _ => st
  end.

(** A consumer when the broker may refuse what the handler publishes.
    Where a handler publishes, it does so as the last statement of its
    [try] block, after the update of the store; the exception of
    [publish] is caught and logged by the handler, so the update stays
    and the message is lost. *)
Definition deliver_or_catch (accepted : bool) (queue : QueueNames) (m : Message)
    (st : State) : State :=
  let st' := deliver queue m st in
  if accepted then st' else mkState (repository st') (published st).

(** A control-plane operation. *)
Inductive Operation : Type :=
| Submit (now : Z) (urls : list string)
| Started (m : ScrapeStarted.t)
| Result (m : ScrapeResult.t)
| Failure (m : ScrapeFailure.t).

Definition step (st : State) (op : Operation) : State :=
  match op with
  | Submit now urls => snd (submitUrls now urls st)
  | Started m => handleScrapeStarted m st
  | Result m => handleScrapeResult m st
  | Failure m => handleScrapeFailure m st
  end.

Definition run (ops : list Operation) (st : State) : State :=
  fold_left step ops st.

(** [cleanupStaleRequests]: the number of requests cleaned, and the state
    afterwards.  [timeoutMinutes] is [STALE_REQUEST_TIMEOUT_MINUTES]. *)
Definition cleanupStaleRequests (now timeoutMinutes : Z) (st : State) : Z * State :=
  let staleRequests := findStalePendingRequests now timeoutMinutes (repository st) in
  fold_left
    (fun acc request =>
       let '(cleaned, st) := acc in
       let '(_, c) :=
         update (fst request)
           [ set_status FAILED;
             set_str errorMessage
               (Js.value "Request timed out - no response from scraper") ]
           (repository st) in
       (cleaned + 1, mkState c (published st)))
    staleRequests (0, st).

(** The two queries of [fixDataInconsistencies]. *)
Definition success_with_error (d : UrlFetchRequest.t) : bool :=
  FetchStatus_eqb (status d) SUCCESS &&
  match str d errorMessage with Some _ => true | None => false end.

Definition failed_with_content (d : UrlFetchRequest.t) : bool :=
  FetchStatus_eqb (status d) FAILED &&
  match str d content with Some _ => true | None => false end.

(** One loop of [fixDataInconsistencies]: the same update for every
    record found. *)
Definition fix_each (records : list (string * UrlFetchRequest.t)) (data : Partial)
    (acc : Z * State) : Z * State :=
  fold_left
    (fun acc record =>
       let '(fixed, st) := acc in
       let '(_, c) := update (fst record) data (repository st) in
       (fixed + 1, mkState c (published st)))
    records acc.

Definition fixDataInconsistencies (st : State) : Z * State :=
  let successWithErrors := findAll success_with_error 100 0 (repository st) in
  let acc := fix_each successWithErrors [set_str errorMessage Js.null] (0, st) in
  let failedWithContent := findAll failed_with_content 100 0 (repository (snd acc)) in
  fix_each failedWithContent
    [set_str content Js.null; set_str contentType Js.null; set_str contentHash Js.null]
    acc.

End Service.

End UrlContentService.

(* ================================================================== *)
(** * The two planes together                                          *)
(* ================================================================== *)

Module Pipeline.

Import UrlContentService.

Section Planes.

Variable new_URL : string -> option URL.t.
Variable scrapeInterval : Z.
(** [MAX_RETRIES], one value for both planes (docker-compose.yml sets
    the same number for the API and for the scraper). *)
Variable MAX_RETRIES : Z.
Variable sha256_hex : string -> string.
Variable byteLength : string -> Z.
Variable now : Z.
Variable elapsed : Z.

(** The request published last, if any. *)
Definition last_request (st : State) : option ScrapeRequest.t :=
  fold_left (fun acc qm =>
               match qm with
               | (SCRAPE_REQUESTS, MsgRequest r) => Some r
               | _ => acc
               end) (published st) None.

(** One attempt on the schedule in which the control plane consumes
    what the scraper published in the order of publication, before
    anything else happens: a scraper consumes [request] and meets
    [page], then the messages are delivered.  The three queues have
    consumers of their own, so this is one schedule among others; the
    others are the runs of [act] below. *)
Definition attempt (request : ScrapeRequest.t) (page : ScraperService.PageOutcome)
    (st : State) : State :=
  fold_left (fun st qm => deliver MAX_RETRIES (fst qm) (snd qm) st)
    (ScraperService.consume MAX_RETRIES sha256_hex byteLength now elapsed request page)
    st.

(** Successive attempts on the request published last; the run stops
    when there is no request left to serve. *)
Fixpoint attempts (pages : list ScraperService.PageOutcome) (st : State) : State :=
  match pages with
  | [] => st
  | page :: rest =>
      match last_request st with
      | Some request =>
          let st' := attempt request page st in
          (* a request is served once *)
          if (length (published st') =? length (published st))%nat
          then st'
          else attempts rest st'
      | None => st
      end
  end.

Definition requests_published (st : State) : list ScrapeRequest.t :=
  omap (fun qm => match qm with
                  | (SCRAPE_REQUESTS, MsgRequest r) => Some r
                  | _ => None
                  end) (published st).

(** The two planes and the queues between them.  [served] counts the
    requests the scraper has taken from the request queue, oldest
    first; the other three queues hold what the scraper has published
    and the control plane has not consumed yet, oldest first. *)
Record Config : Type := mkConfig {
  control : State;
  served : nat;
  started_queue : list Message;
  results_queue : list Message;
  failures_queue : list Message
}.

Definition enqueue (cfg : Config) (qm : QueueNames * Message) : Config :=
  match fst qm with
  | SCRAPE_REQUESTS => cfg
  | SCRAPE_STARTED =>
      mkConfig (control cfg) (served cfg) (started_queue cfg ++ [snd qm])
        (results_queue cfg) (failures_queue cfg)
  | SCRAPE_RESULTS =>
      mkConfig (control cfg) (served cfg) (started_queue cfg)
        (results_queue cfg ++ [snd qm]) (failures_queue cfg)
  | SCRAPE_FAILURES =>
      mkConfig (control cfg) (served cfg) (started_queue cfg)
        (results_queue cfg) (failures_queue cfg ++ [snd qm])
  end.

(** What happens next: the scraper takes the oldest request it has not
    served and meets [page], or the consumer of one of the three queues
    takes the oldest message of its queue ([accepted] tells whether the
    broker takes what the handler publishes). *)
Inductive Action : Type :=
| Scrape (page : ScraperService.PageOutcome)
| Consume (queue : QueueNames) (accepted : bool).

Definition act (cfg : Config) (a : Action) : Config :=
  match a with
  | Scrape page =>
      match requests_published (control cfg) !! served cfg with
      | Some request =>
          fold_left enqueue
            (ScraperService.consume MAX_RETRIES sha256_hex byteLength now elapsed
               request page)
            (mkConfig (control cfg) (S (served cfg)) (started_queue cfg)
               (results_queue cfg) (failures_queue cfg))
      | None => cfg
      end
  | Consume SCRAPE_REQUESTS _ => cfg
  | Consume SCRAPE_STARTED accepted =>
      match started_queue cfg with
      | m :: rest =>
          mkConfig (deliver_or_catch MAX_RETRIES accepted SCRAPE_STARTED m (control cfg))
            (served cfg) rest (results_queue cfg) (failures_queue cfg)
      | [] => cfg
      end
  | Consume SCRAPE_RESULTS accepted =>
      match results_queue cfg with
      | m :: rest =>
          mkConfig (deliver_or_catch MAX_RETRIES accepted SCRAPE_RESULTS m (control cfg))
            (served cfg) (started_queue cfg) rest (failures_queue cfg)
      | [] => cfg
      end
  | Consume SCRAPE_FAILURES accepted =>
      match failures_queue cfg with
      | m :: rest =>
          mkConfig (deliver_or_catch MAX_RETRIES accepted SCRAPE_FAILURES m (control cfg))
            (served cfg) (started_queue cfg) (results_queue cfg) rest
      | [] => cfg
      end
  end.

Definition schedule (actions : list Action) (cfg : Config) : Config :=
  fold_left act actions cfg.

End Planes.

End Pipeline.

(* ================================================================== *)
(** * Character classes of a canonical URL                             *)
(* ================================================================== *)

(** The vocabulary in which the fixed points of the normalizer are
    described. *)

Module Shape.

(** [s] is empty or begins with a character that [p] rejects. *)
Definition stops (p : ascii -> bool) (s : string) : bool :=
  match s with
  | String c _ => negb (p c)
  | EmptyString => true
  end.

(** Neither a C0 control nor a space. *)
Definition visible (c : ascii) : bool := (32 <? Js.code c)%N.

(** A character of a host that is a plain name: visible, and none of the
    delimiters of the authority ([/], [\], [?], [#], [@], [:]) nor a
    square bracket. *)
Definition plain_host_char (c : ascii) : bool :=
  let n := Js.code c in
  visible c && negb (URL.is_authority_end c) &&
  negb ((n =? 64) || (n =? 58) || (n =? 91) || (n =? 93))%N.

Definition plain_host (h : string) : bool :=
  match h with
  | EmptyString => false
  | _ => URL.all_chars plain_host_char h
  end.

(** The characters of a parsed path segment, query and fragment. *)
Definition segment_char (c : ascii) : bool :=
  negb (URL.in_path_set c) && negb (URL.is_slash c).

Definition query_char (c : ascii) : bool := negb (URL.in_special_query_set c).

Definition fragment_char (c : ascii) : bool := negb (URL.in_fragment_set c).

(** What one character becomes under percent-encoding. *)
Definition encode_char (in_set : ascii -> bool) (c : ascii) : string :=
  if in_set c then URL.percent_encode_byte c else String c EmptyString.

(** The characters of a present component are all in [good]. *)
Definition component_of (good : ascii -> bool) (o : option string) : Prop :=
  match o with
  | Some s => URL.all_chars good s = true
  | None => True
  end.

(** A segment as the path state leaves it in the path. *)
Definition good_segment (s : string) : Prop :=
  URL.all_chars segment_char s = true /\
  URL.is_single_dot s = false /\
  URL.is_double_dot s = false.

(** The port as [rebuild] writes it. *)
Definition port_suffix (p : option N) : string :=
  match p with
  | Some n => ":" +:+ URL.string_of_N n
  | None => ""
  end.

(** The tail of a canonical URL, after the authority. *)
Definition tail_of (segs : list string) (q f : option string) : string :=
  URL.serialize_path segs +:+ URL.with_mark "?" q +:+ URL.with_mark "#" f.

End Shape.

(* ================================================================== *)
(** * Invariants of the store                                          *)
(* ================================================================== *)

(** Every record of the store has a retry count within the limit. *)
Definition bounded (maxRetries : Z) (st : UrlContentService.State) : Prop :=
  forall id d,
    UrlFetchRequestRepository.docs (UrlContentService.repository st) !! id = Some d ->
    UrlFetchRequest.retryCount d <= maxRetries.

(** An update document is harmless when the retry counts it writes are
    within the limit. *)
Definition writes_bounded (maxRetries : Z) (data : UrlFetchRequest.Partial) : Prop :=
  Forall (fun a => match a with
                   | UrlFetchRequest.set_retryCount v => v <= maxRetries
                   | _ => True
                   end) data.

(** Two documents agree on every property, but for the time stamp of the
    last update, which the store keeps by itself. *)
Definition same_record (d d' : UrlFetchRequest.t) : Prop :=
  UrlFetchRequest.url d = UrlFetchRequest.url d' /\
  UrlFetchRequest.status d = UrlFetchRequest.status d' /\
  UrlFetchRequest.retryCount d = UrlFetchRequest.retryCount d' /\
  UrlFetchRequest.redirectChain d = UrlFetchRequest.redirectChain d' /\
  (forall f, UrlFetchRequest.str d f = UrlFetchRequest.str d' f) /\
  (forall f, f <> UrlFetchRequest.updatedAt ->
             UrlFetchRequest.num d f = UrlFetchRequest.num d' f).

(** Two states hold the same records under the same identifiers. *)
Definition same_store (st st' : UrlContentService.State) : Prop :=
  forall id,
    option_Forall2 same_record
      (UrlFetchRequestRepository.docs (UrlContentService.repository st) !! id)
      (UrlFetchRequestRepository.docs (UrlContentService.repository st') !! id).

(** Every identifier in use was drawn from the counter. *)
Definition well_formed (c : UrlFetchRequestRepository.Collection) : Prop :=
  forall id,
    is_Some (UrlFetchRequestRepository.docs c !! id) ->
    exists n, (n < UrlFetchRequestRepository.next_id c)%N /\
              id = UrlFetchRequestRepository.id_of n.

(** The identifier a message carries: the [_id] of the record it is about. *)
Definition message_id (m : Message) : string :=
  match m with
  | MsgRequest m => ScrapeRequest.id m
  | MsgStarted m => ScrapeStarted.id m
  | MsgResult m => ScrapeResult.id m
  | MsgFailure m => ScrapeFailure.id m
  end.






(* ================================================================== *)
(** * Scenarios                                                        *)
(* ================================================================== *)

(** Concrete runs of the pipeline, with [SCRAPE_INTERVAL_MINUTES] 60 and
    [MAX_RETRIES] 3 as in docker-compose.yml.  Submissions happen at time
    1000 and attempts end at time 2000 (milliseconds); the digest is a
    stand-in, its value plays no role. *)

Module Scenario.

Import UrlContentService.

Definition digest (content : string) : string := "sha256:" +:+ content.
Definition byteLength (content : string) : Z := Z.of_nat (String.length content).

Definition submit (now : Z) (urls : list string) (st : State)
  : SubmitUrlsResponseDto * State :=
  submitUrls new_URL 60 now urls st.

Definition attempts (pages : list ScraperService.PageOutcome) (st : State) : State :=
  Pipeline.attempts 3 digest byteLength 2000 5 pages st.

(** The record with identifier [id], reduced to the properties the
    scenarios look at. *)
Record View : Type := mkView {
  v_status : FetchStatus;
  v_retryCount : Z;
  v_errorMessage : option string;
  v_httpStatus : option Z;
  v_userAgent : option string;
  v_content : option string;
  v_contentType : option string;
  v_contentHash : option string;
  v_fetchedAt : option Z
}.

Definition view (id : string) (st : State) : option View :=
  match UrlFetchRequestRepository.docs (repository st) !! id with
  | Some d =>
      Some (mkView (UrlFetchRequest.status d) (UrlFetchRequest.retryCount d)
              (UrlFetchRequest.str d UrlFetchRequest.errorMessage)
              (UrlFetchRequest.num d UrlFetchRequest.httpStatus)
              (UrlFetchRequest.str d UrlFetchRequest.userAgent)
              (UrlFetchRequest.str d UrlFetchRequest.content)
              (UrlFetchRequest.str d UrlFetchRequest.contentType)
              (UrlFetchRequest.str d UrlFetchRequest.contentHash)
              (UrlFetchRequest.num d UrlFetchRequest.fetchedAt))
  | None => None
  end.

(** A server that answers 503, and one that refuses the connection. *)
Definition unavailable : ScraperService.PageOutcome :=
  ScraperService.Response 503 "https://example.com/" [] "" None.

Definition refused : ScraperService.PageOutcome :=
  ScraperService.Thrown
    (HttpErrorHandler.Error "net::ERR_CONNECTION_REFUSED at https://example.com").

Definition ok : ScraperService.PageOutcome :=
  ScraperService.Response 200 "https://example.com/" [] "<html>OK</html>" None.

(** [https://example.com] has been submitted: record [0] is PENDING. *)
Definition submitted_example : State :=
  snd (submit 1000 ["https://example.com"] initial).

(** The failure message of the first, refused attempt. *)
Definition first_failure : ScrapeFailure.t :=
  ScraperService.createFailure 3 2000
    (ScrapeRequest.mk "0" "https://example.com" None None (Some 0) (Some 1))
    "Connection refused" true (Some 503).

(** Scenario 2 of the specification: [ynet.co.il] was scraped with a
    redirect to [https://www.ynet.co.il/]. *)
Definition ynet_scraped : State :=
  attempts
    [ScraperService.Response 200 "https://www.ynet.co.il/"
       ["https://ynet.co.il"; "https://www.ynet.co.il"] "<html>ynet</html>" None]
    (snd (submit 1000 ["ynet.co.il"] initial)).

(** A scrape of [ynet.co.il] that went through [news.ynet.co.il]. *)
Definition ynet_via_news : State :=
  attempts
    [ScraperService.Response 200 "https://www.ynet.co.il/"
       ["https://news.ynet.co.il"] "<html>ynet</html>" None]
    (snd (submit 1000 ["ynet.co.il"] initial)).

End Scenario.

(* ================================================================== *)
(** * Properties                                                       *)
(* ================================================================== *)

(** ** The error classifier *)

Section Classifier.

Import HttpErrorHandler.

Ltac break_cmp :=
  match goal with
  | |- context [Z.eqb ?a ?b] => destruct (Z.eqb_spec a b)
  | |- context [Z.leb ?a ?b] => destruct (Z.leb_spec a b)
  | |- context [Z.ltb ?a ?b] => destruct (Z.ltb_spec a b)
  end.

(** Every branch of [handleHttpStatus] reports the status it was given. *)
Lemma handleHttpStatus_httpStatus (status : Z) (msg : string) :
  httpStatus (handleHttpStatus status msg) = Some status.
Proof.
  unfold handleHttpStatus.
  repeat match goal with
         | |- context [if ?b then _ else _] => destruct b
         end; reflexivity.
Qed.

(** C8. For a status in the ranges of the classification table (2xx,
    4xx, 5xx), [handleHttpStatus] returns the status unchanged and marks
    it retryable exactly when it is 408, 429 or a 5xx status. *)
Theorem handleHttpStatus_table (status : Z) (msg : string) :
  200 <= status < 300 \/ 400 <= status < 600 ->
  httpStatus (handleHttpStatus status msg) = Some status /\
  canRetry (handleHttpStatus status msg)
  = (status =? 408) || (status =? 429) || (500 <=? status).
Proof.
  intros Hrange. split; [apply handleHttpStatus_httpStatus|].
  unfold handleHttpStatus, HttpStatusCode.OK, HttpStatusCode.BAD_REQUEST,
    HttpStatusCode.UNAUTHORIZED, HttpStatusCode.FORBIDDEN,
    HttpStatusCode.NOT_FOUND, HttpStatusCode.TIMEOUT,
    HttpStatusCode.TOO_MANY_REQUESTS, HttpStatusCode.INTERNAL_SERVER_ERROR,
    HttpStatusCode.BAD_GATEWAY, HttpStatusCode.SERVICE_UNAVAILABLE,
    HttpStatusCode.GATEWAY_TIMEOUT.
  repeat (break_cmp; try lia; simpl); reflexivity.
Qed.

Lemma handleHttpStatus_table_witness :
  (200 <= 503 < 300 \/ 400 <= 503 < 600) /\
  httpStatus (handleHttpStatus 503 "HTTP error") = Some 503 /\
  canRetry (handleHttpStatus 503 "HTTP error") = true.
Proof.
  split; [right; lia|].
  apply (handleHttpStatus_table 503 "HTTP error"). right; lia.
Defined.

(** With no error object, [handle] throws whatever the response is: a
    numeric status makes it read [error.message] for the call of
    [handleHttpStatus], and every other path reads [error.message]
    first. *)
Lemma handle_null_throws (response : option Z) :
  handle None response = Js.Throw (TypeError_null_property "message").
Proof.
  unfold handle, read_message; simpl.
  match goal with
  | |- match ?v with _ => _ end = _ => destruct v
  end; reflexivity.
Qed.

(** With an error object at hand, [handle] returns a result. *)
Lemma handle_object_returns (e : ErrorObject) (response : option Z) :
  exists r, handle (Some e) response = Js.Return r.
Proof.
  unfold handle.
  destruct (Js.or _ _); simpl; eauto.
Qed.

(** C7. The call the worker makes for a response with status 404,
    [handle(null, response)], throws a TypeError instead of returning a
    classification; [scrapeUrl] catches it and classifies the TypeError,
    so the 404 is reported as a retryable failure without HTTP status. *)
Theorem handle_null_error_404_throws :
  handle None (Some 404) = Js.Throw (TypeError_null_property "message") /\
  forall retryCount sha256_hex byteLength now elapsed request finalUrl chain body ctype,
    exists failure,
      ScraperService.scrapeUrl retryCount sha256_hex byteLength now elapsed request
        (ScraperService.Response 404 finalUrl chain body ctype)
      = Js.Return (inr failure) /\
      ScrapeFailure.errorMessage failure
      = "Cannot read properties of null (reading 'message')" /\
      ScrapeFailure.httpStatus failure = None /\
      ScrapeFailure.canRetry failure
      = (ScraperService.retryCount_or_0 request <? retryCount).
Proof.
  split; [reflexivity|].
  intros. eexists. split; [reflexivity|].
  repeat split.
Qed.

End Classifier.

(** ** The normalizer: totality and literal inputs *)

Lemma prefix_append (p s : string) : String.prefix p (p +:+ s) = true.
Proof.
  induction p as [|c p IH]; simpl.
  - destruct s; reflexivity.
  - rewrite IH. destruct (ascii_dec c c); [reflexivity|congruence].
Qed.

(** C2. Of the three literals, [ynet.co.il] and [https://www.ynet.co.il/]
    have the canonical form [https://ynet.co.il], but [HTTP://ynet.co.il]
    does not: the scheme pattern is case-sensitive, so [https://] is put in
    front of the upper-case scheme and the URL parser reads [HTTP] as the
    host. *)
Theorem canonical_of_the_three_literals :
  canonical "ynet.co.il" = "https://ynet.co.il" /\
  canonical "https://www.ynet.co.il/" = "https://ynet.co.il" /\
  canonical "HTTP://ynet.co.il" = "https://http//ynet.co.il" /\
  canonical "HTTP://ynet.co.il" <> canonical "ynet.co.il".
Proof.
  repeat split; try (vm_compute; reflexivity).
  vm_compute. discriminate.
Qed.

(** C3, counterexample. A host that begins with [www.www.] loses one
    [www.] at each application. *)
Lemma canonical_not_idempotent :
  canonical "www.www.example.com" = "https://www.example.com" /\
  canonical (canonical "www.www.example.com") = "https://example.com" /\
  canonical (canonical "www.www.example.com") <> canonical "www.www.example.com".
Proof.
  repeat split; try (vm_compute; reflexivity).
  vm_compute. discriminate.
Qed.

(** Two more ways to leave the fixed points: a path that ends with two
    slashes loses one slash at each application, and the port 443 given
    with the scheme [http] is kept by the first application and is the
    default port, hence dropped, in the second. *)
Lemma canonical_loses_slash_and_port :
  canonical "a.com/b//" = "https://a.com/b/" /\
  canonical (canonical "a.com/b//") = "https://a.com/b" /\
  canonical "http://a.com:443" = "https://a.com:443" /\
  canonical (canonical "http://a.com:443") = "https://a.com".
Proof. repeat split; vm_compute; reflexivity. Qed.

(** ** Strings *)

#[local] Arguments String.append !_ _ : simpl nomatch.

Import Shape.

Lemma append_nil_r (s : string) : s +:+ "" = s.
Proof. induction s as [|c s IH]; simpl; [reflexivity|now rewrite IH]. Qed.

Lemma append_assoc (a b c : string) : (a +:+ b) +:+ c = a +:+ (b +:+ c).
Proof. induction a as [|x a IH]; simpl; [reflexivity|now rewrite IH]. Qed.

Lemma all_chars_append (p : ascii -> bool) (a b : string) :
  URL.all_chars p (a +:+ b) = URL.all_chars p a && URL.all_chars p b.
Proof.
  induction a as [|x a IH]; simpl; [reflexivity|].
  rewrite IH. apply andb_assoc.
Qed.

Lemma all_chars_impl (p q : ascii -> bool) (s : string) :
  (forall c, p c = true -> q c = true) ->
  URL.all_chars p s = true -> URL.all_chars q s = true.
Proof.
  intros Hpq. induction s as [|c s IH]; simpl; [reflexivity|].
  intros [Hc Hs]%andb_true_iff. rewrite (Hpq _ Hc), (IH Hs). reflexivity.
Qed.

Lemma span_append (p : ascii -> bool) (a b : string) :
  URL.all_chars p a = true -> stops p b = true ->
  Js.span p (a +:+ b) = (a, b).
Proof.
  intros Ha Hb. induction a as [|x a IH]; simpl in *.
  - destruct b as [|c b]; simpl in *; [reflexivity|].
    apply negb_true_iff in Hb. rewrite Hb. reflexivity.
  - apply andb_true_iff in Ha as [Hx Ha]. rewrite Hx, (IH Ha). reflexivity.
Qed.

(** What [Js.span] returns: the two parts of the string, the first made
    of characters that satisfy [p], the second empty or begun by one that
    does not. *)
Lemma span_parts (p : ascii -> bool) (s : string) :
  s = fst (Js.span p s) +:+ snd (Js.span p s) /\
  URL.all_chars p (fst (Js.span p s)) = true /\
  Shape.stops p (snd (Js.span p s)) = true.
Proof.
  induction s as [|c s IH]; simpl; [repeat split|].
  destruct (p c) eqn:Hc.
  - destruct (Js.span p s) as [a b]. simpl in *.
    destruct IH as (Hs & Ha & Hb). rewrite Hc, Ha. repeat split; [|exact Hb].
    now rewrite <- Hs.
  - simpl. rewrite Hc. repeat split.
Qed.

Lemma or_string_present (s : string) : Js.or_string (Some s) "" = s.
Proof. unfold Js.or_string. destruct s; reflexivity. Qed.

Section NormalizerTotal.

Variable platform_URL : string -> option URL.t.

(** The [catch] block of [normalize] never throws, and what it returns:
    the host part of the trimmed input without its scheme, in lower case
    and without one leading [www.], then the rest up to the first line
    terminator; the input itself, trimmed and without its scheme, when
    there is no host part. *)
Lemma fallback_block_returns (url : string) :
  UrlNormalizer.fallback_block url = Js.Return (UrlNormalizer.fallback url) /\
  exists host rest,
    Js.strip_scheme_prefix (Js.trim url) = host +:+ rest /\
    URL.all_chars (fun c => negb (Js.is_host_delim c)) host = true /\
    Shape.stops (fun c => negb (Js.is_host_delim c)) rest = true /\
    UrlNormalizer.fallback url
    = match host with
      | EmptyString => rest
      | _ =>
          (if Js.startsWith (Js.toLowerCase host) "www."
           then Js.substring_from 4 (Js.toLowerCase host)
           else Js.toLowerCase host)
          +:+ fst (Js.span (fun c => negb (Js.is_line_terminator c)) rest)
      end.
Proof.
  unfold UrlNormalizer.fallback_block, UrlNormalizer.fallback, Js.match_host_rest.
  destruct (span_parts (fun c => negb (Js.is_host_delim c))
              (Js.strip_scheme_prefix (Js.trim url))) as (Hs & Ha & Hb).
  destruct (Js.span _ (Js.strip_scheme_prefix (Js.trim url))) as [host rest].
  simpl in Hs, Ha, Hb.
  destruct host as [|c host].
  - split; [reflexivity|]. exists EmptyString, rest. repeat split; assumption.
  - split.
    + cbn [Js.matched Js.group1 Js.group2 Js.bind]. now rewrite or_string_present.
    + exists (String c host), rest. repeat split; assumption.
Qed.

(** C10. [getCanonicalUrl] never throws and returns a string that begins
    with [https://], whatever the URL constructor does with its argument.
    When the constructor returns, the string is [https://] and what the
    [try] block rebuilds.  When it throws, the [catch] block runs to its
    end (its reads of the groups of [hostMatch] are guarded) and the
    string is [https://], the host part of the trimmed input without its
    scheme in lower case and without one leading [www.], and the rest of
    the input up to the first line terminator: the rest as it is when it
    holds no line terminator, and the whole trimmed input without its
    scheme when it begins with [/], [?] or [#] or is empty. *)
Theorem getCanonicalUrl_total_https (url : string) :
  UrlNormalizer.getCanonicalUrl_completion platform_URL url
  = Js.Return (UrlNormalizer.getCanonicalUrl platform_URL url) /\
  Js.startsWith (UrlNormalizer.getCanonicalUrl platform_URL url) "https://" = true /\
  match platform_URL (UrlNormalizer.workingUrl url) with
  | Some urlObj =>
      UrlNormalizer.getCanonicalUrl platform_URL url
      = "https://" +:+ UrlNormalizer.rebuild urlObj
  | None =>
      exists host rest,
        Js.strip_scheme_prefix (Js.trim url) = host +:+ rest /\
        URL.all_chars (fun c => negb (Js.is_host_delim c)) host = true /\
        Shape.stops (fun c => negb (Js.is_host_delim c)) rest = true /\
        UrlNormalizer.getCanonicalUrl platform_URL url
        = "https://" +:+
          match host with
          | EmptyString => rest
          | _ =>
              (if Js.startsWith (Js.toLowerCase host) "www."
               then Js.substring_from 4 (Js.toLowerCase host)
               else Js.toLowerCase host)
              +:+ fst (Js.span (fun c => negb (Js.is_line_terminator c)) rest)
          end /\
        (URL.all_chars (fun c => negb (Js.is_line_terminator c)) rest = true ->
         UrlNormalizer.getCanonicalUrl platform_URL url
         = "https://" +:+
           (if Js.startsWith (Js.toLowerCase host) "www."
            then Js.substring_from 4 (Js.toLowerCase host)
            else Js.toLowerCase host)
           +:+ rest)
  end.
Proof.
  destruct (fallback_block_returns url) as (Hblock & host & rest & Hs & Ha & Hb & Hf).
  unfold UrlNormalizer.getCanonicalUrl_completion, UrlNormalizer.normalize_completion,
    UrlNormalizer.getCanonicalUrl, UrlNormalizer.normalize,
    UrlNormalizer.normalize_try, Js.try_catch.
  split; [|split; [apply prefix_append|]].
  - destruct (platform_URL (UrlNormalizer.workingUrl url)); [reflexivity|].
    rewrite Hblock. reflexivity.
  - destruct (platform_URL (UrlNormalizer.workingUrl url)); [reflexivity|].
    exists host, rest. split; [exact Hs|]. split; [exact Ha|]. split; [exact Hb|].
    split; [now rewrite Hf|].
    intros Hline. rewrite Hf. destruct host as [|c host]; [reflexivity|].
    destruct (span_parts (fun c => negb (Js.is_line_terminator c)) rest)
      as (Hr & _ & Hstop).
    destruct (Js.span _ rest) as [a b]. simpl in *.
    assert (Hb0 : b = EmptyString).
    { destruct b as [|x b]; [reflexivity|].
      rewrite Hr, all_chars_append in Hline.
      apply andb_true_iff in Hline as [_ Hline]. simpl in Hline, Hstop.
      apply andb_true_iff in Hline as [Hx _]. rewrite Hx in Hstop. discriminate. }
    subst b. rewrite append_nil_r in Hr. now rewrite <- Hr.
Qed.

End NormalizerTotal.

Lemma trimStart_id (s : string) :
  stops Js.is_white_space s = true -> Js.trimStart s = s.
Proof.
  destruct s as [|c s]; simpl; [reflexivity|].
  intros H%negb_true_iff. rewrite H. reflexivity.
Qed.

Lemma trimEnd_id (s : string) :
  URL.all_chars (fun c => negb (Js.is_white_space c)) s = true -> Js.trimEnd s = s.
Proof.
  induction s as [|c s IH]; simpl; [reflexivity|].
  intros [Hc Hs]%andb_true_iff. rewrite (IH Hs).
  apply negb_true_iff in Hc. rewrite Hc. destruct s; reflexivity.
Qed.

Lemma strip_trailing_id (p : ascii -> bool) (s : string) :
  URL.all_chars (fun c => negb (p c)) s = true -> URL.strip_trailing p s = s.
Proof.
  induction s as [|c s IH]; simpl; [reflexivity|].
  intros [Hc Hs]%andb_true_iff. rewrite (IH Hs).
  apply negb_true_iff in Hc. rewrite Hc. destruct s; reflexivity.
Qed.

Lemma strip_leading_id (p : ascii -> bool) (s : string) :
  stops p s = true -> URL.strip_leading p s = s.
Proof.
  destruct s as [|c s]; simpl; [reflexivity|].
  intros H%negb_true_iff. rewrite H. reflexivity.
Qed.

Lemma remove_all_id (p : ascii -> bool) (s : string) :
  URL.all_chars (fun c => negb (p c)) s = true -> URL.remove_all p s = s.
Proof.
  induction s as [|c s IH]; simpl; [reflexivity|].
  intros [Hc Hs]%andb_true_iff. rewrite (IH Hs).
  apply negb_true_iff in Hc. rewrite Hc. reflexivity.
Qed.

Lemma prefix_nil (s : string) : String.prefix "" s = true.
Proof. destruct s; reflexivity. Qed.

(** A statement about every character, settled by running through the
    256 of them. *)
Ltac each_char c :=
  destruct c as [[] [] [] [] [] [] [] []];
  vm_compute; try reflexivity; try discriminate.

Lemma lower_ascii_idem (c : ascii) : Js.lower_ascii (Js.lower_ascii c) = Js.lower_ascii c.
Proof. each_char c. Qed.

Lemma toLowerCase_idem (s : string) : Js.toLowerCase (Js.toLowerCase s) = Js.toLowerCase s.
Proof.
  induction s as [|c s IH]; simpl; [reflexivity|].
  rewrite lower_ascii_idem, IH. reflexivity.
Qed.

Lemma toLowerCase_substring_from (n : nat) (s : string) :
  Js.toLowerCase (Js.substring_from n s) = Js.substring_from n (Js.toLowerCase s).
Proof.
  revert s. induction n as [|n IH]; intros [|c s]; simpl; try reflexivity. apply IH.
Qed.

(** ** Percent-encoding and the character classes *)


Lemma plain_host_char_visible c : plain_host_char c = true -> visible c = true.
Proof. each_char c. Qed.

Lemma plain_host_char_inside c :
  plain_host_char c = true -> negb (URL.is_authority_end c) = true.
Proof. each_char c. Qed.

Lemma plain_host_char_not_slash c :
  plain_host_char c = true -> negb (URL.is_slash c) = true.
Proof. each_char c. Qed.

Lemma plain_host_char_no_colon c :
  plain_host_char c = true ->
  Ascii.eqb c ":" = false /\ Ascii.eqb c "[" = false /\ Ascii.eqb c "]" = false
  /\ Ascii.eqb c "@" = false.
Proof. each_char c; repeat split. Qed.

Lemma digit_visible c : URL.is_digit c = true -> visible c = true.
Proof. each_char c. Qed.

Lemma digit_inside c : URL.is_digit c = true -> negb (URL.is_authority_end c) = true.
Proof. each_char c. Qed.

Lemma digit_not_at c : URL.is_digit c = true -> Ascii.eqb c "@" = false.
Proof. each_char c. Qed.

Lemma segment_char_visible c : segment_char c = true -> visible c = true.
Proof. each_char c. Qed.

Lemma segment_char_in_path c :
  segment_char c = true -> negb (URL.is_query_or_fragment_start c) = true.
Proof. each_char c. Qed.

Lemma segment_char_not_slash c : segment_char c = true -> URL.is_slash c = false.
Proof. each_char c. Qed.

Lemma segment_char_not_in_set c : segment_char c = true -> URL.in_path_set c = false.
Proof. each_char c. Qed.

Lemma query_char_visible c : query_char c = true -> visible c = true.
Proof. each_char c. Qed.

Lemma query_char_not_hash c : query_char c = true -> negb (Ascii.eqb c "#") = true.
Proof. each_char c. Qed.

Lemma fragment_char_visible c : fragment_char c = true -> visible c = true.
Proof. each_char c. Qed.

Lemma visible_not_white_space c : visible c = true -> negb (Js.is_white_space c) = true.
Proof. each_char c. Qed.

Lemma visible_not_c0_or_space c : visible c = true -> negb (URL.is_c0_or_space c) = true.
Proof. each_char c. Qed.

Lemma visible_not_tab_or_newline c :
  visible c = true -> negb (URL.is_tab_or_newline c) = true.
Proof. each_char c. Qed.

Lemma encode_char_path c :
  URL.is_slash c = false ->
  URL.all_chars segment_char (encode_char URL.in_path_set c) = true.
Proof. each_char c. Qed.

Lemma encode_char_query c :
  URL.all_chars query_char (encode_char URL.in_special_query_set c) = true.
Proof. each_char c. Qed.

Lemma encode_char_fragment c :
  URL.all_chars fragment_char (encode_char URL.in_fragment_set c) = true.
Proof. each_char c. Qed.

Lemma percent_encode_all (in_set : ascii -> bool) (good ok : ascii -> bool) (s : string) :
  (forall c, ok c = true -> URL.all_chars good (encode_char in_set c) = true) ->
  URL.all_chars ok s = true ->
  URL.all_chars good (URL.percent_encode in_set s) = true.
Proof.
  intros Hc. induction s as [|c s IH]; simpl; [reflexivity|].
  intros [Hok Hs]%andb_true_iff.
  rewrite all_chars_append. fold (encode_char in_set c).
  rewrite (Hc _ Hok), (IH Hs). reflexivity.
Qed.

Lemma all_chars_true (s : string) : URL.all_chars (fun _ => true) s = true.
Proof. induction s; simpl; auto. Qed.

(** A string without characters of the set is left alone. *)
Lemma percent_encode_fixed (in_set : ascii -> bool) (s : string) :
  URL.all_chars (fun c => negb (in_set c)) s = true ->
  URL.percent_encode in_set s = s.
Proof.
  induction s as [|c s IH]; simpl; [reflexivity|].
  intros [Hc Hs]%andb_true_iff. apply negb_true_iff in Hc.
  rewrite Hc, (IH Hs). reflexivity.
Qed.

(** ** The path state on a serialized path *)

Lemma split_segments_slash_free (s : string) :
  Forall (fun seg => URL.all_chars (fun c => negb (URL.is_slash c)) seg = true)
         (URL.split_segments s).
Proof.
  induction s as [|c s IH]; simpl; [repeat constructor|].
  destruct (URL.is_slash c) eqn:Hc; [constructor; [reflexivity|assumption]|].
  destruct (URL.split_segments s) as [|seg segs]; [repeat constructor; simpl; now rewrite Hc|].
  inversion IH; subst. constructor; [|assumption].
  simpl. rewrite Hc. assumption.
Qed.

Lemma split_segments_nonempty (s : string) : URL.split_segments s <> [].
Proof.
  induction s as [|c s IH]; simpl; [discriminate|].
  destruct (URL.is_slash c); [discriminate|].
  destruct (URL.split_segments s); discriminate.
Qed.

Lemma good_segment_nil : good_segment "".
Proof. repeat split. Qed.

Lemma Forall_removelast {A} (P : A -> Prop) (l : list A) :
  Forall P l -> Forall P (removelast l).
Proof.
  induction 1 as [|x l Hx Hl IH]; simpl; [constructor|].
  destruct l; [constructor|]. constructor; assumption.
Qed.

(** Whatever the raw segments, the path state leaves good segments. *)
Lemma path_state_good (raws : list string) :
  Forall (fun seg => URL.all_chars (fun c => negb (URL.is_slash c)) seg = true) raws ->
  forall acc, Forall good_segment acc -> Forall good_segment (URL.path_state acc raws).
Proof.
  induction 1 as [|raw raws Hraw _ IH]; intros acc Hacc; simpl; [assumption|].
  apply IH.
  assert (Hbuf : URL.all_chars segment_char (URL.percent_encode URL.in_path_set raw) = true).
  { apply percent_encode_all with (ok := fun c => negb (URL.is_slash c)); [|assumption].
    intros c Hc. apply encode_char_path. now apply negb_true_iff. }
  destruct (URL.is_double_dot _) eqn:Hdd.
  - destruct raws.
    + apply Forall_app. split; [now apply Forall_removelast|].
      constructor; [apply good_segment_nil|constructor].
    + now apply Forall_removelast.
  - destruct (URL.is_single_dot _) eqn:Hsd.
    + destruct raws; [|assumption].
      apply Forall_app. split; [assumption|].
      constructor; [apply good_segment_nil|constructor].
    + apply Forall_app. split; [assumption|].
      constructor; [|constructor]. repeat split; assumption.
Qed.

Lemma path_state_nonempty (raws : list string) :
  raws <> [] -> forall acc, URL.path_state acc raws <> [].
Proof.
  induction raws as [|raw raws IH]; [congruence|]. intros _ acc. simpl.
  destruct raws as [|r raws].
  - simpl. destruct (URL.is_double_dot _); [|destruct (URL.is_single_dot _)];
      intros H; apply app_eq_nil in H as [_ H]; discriminate.
  - apply IH. discriminate.
Qed.

(** On good segments the path state changes nothing. *)
Lemma path_state_fixed (segs : list string) :
  Forall good_segment segs ->
  forall acc, URL.path_state acc segs = acc ++ segs.
Proof.
  induction 1 as [|s segs (Hchars & Hsd & Hdd) _ IH]; intros acc; simpl.
  - now rewrite app_nil_r.
  - rewrite percent_encode_fixed.
    + rewrite Hdd, Hsd, IH, <- app_assoc. reflexivity.
    + eapply all_chars_impl; [|exact Hchars].
      intros c Hc. apply negb_true_iff. now apply segment_char_not_in_set.
Qed.

Lemma split_segments_one (s : string) :
  URL.all_chars (fun c => negb (URL.is_slash c)) s = true ->
  URL.split_segments s = [s].
Proof.
  induction s as [|c s IH]; simpl; [reflexivity|].
  intros [Hc Hs]%andb_true_iff. apply negb_true_iff in Hc.
  rewrite Hc, (IH Hs). reflexivity.
Qed.

Lemma split_segments_cons (s t : string) :
  URL.all_chars (fun c => negb (URL.is_slash c)) s = true ->
  URL.split_segments (s +:+ String "/" t) = s :: URL.split_segments t.
Proof.
  induction s as [|c s IH]; simpl; [reflexivity|].
  intros [Hc Hs]%andb_true_iff. apply negb_true_iff in Hc.
  rewrite Hc, (IH Hs). reflexivity.
Qed.

Lemma good_segment_slash_free (s : string) :
  good_segment s -> URL.all_chars (fun c => negb (URL.is_slash c)) s = true.
Proof.
  intros (H & _). eapply all_chars_impl; [|exact H].
  intros c Hc. apply negb_true_iff. now apply segment_char_not_slash.
Qed.

(** Splitting what the path serializer joined. *)
Lemma split_segments_serialize (segs : list string) :
  Forall good_segment segs ->
  forall s, good_segment s ->
  URL.split_segments (s +:+ URL.serialize_path segs) = s :: segs.
Proof.
  induction 1 as [|t segs Ht _ IH]; intros s Hs; simpl.
  - rewrite append_nil_r. apply split_segments_one. now apply good_segment_slash_free.
  - rewrite split_segments_cons by now apply good_segment_slash_free.
    rewrite IH by assumption. reflexivity.
Qed.

Lemma serialize_path_chars (segs : list string) :
  Forall good_segment segs ->
  URL.all_chars (fun c => visible c && negb (URL.is_query_or_fragment_start c))
    (URL.serialize_path segs) = true.
Proof.
  induction 1 as [|s segs (Hs & _) _ IH]; simpl; [reflexivity|].
  rewrite all_chars_append, IH, andb_true_r.
  eapply all_chars_impl; [|exact Hs].
  intros c Hc. rewrite (segment_char_visible _ Hc). now apply segment_char_in_path.
Qed.

Lemma serialize_path_app (a b : list string) :
  URL.serialize_path (a ++ b) = URL.serialize_path a +:+ URL.serialize_path b.
Proof.
  induction a as [|s a IH]; simpl; [reflexivity|].
  rewrite IH, append_assoc. reflexivity.
Qed.

(** [parse_path] on a serialized path, followed by something that ends
    the path. *)
Lemma parse_path_serialized (segs : list string) (rest : string) :
  Forall good_segment segs ->
  stops (fun c => negb (URL.is_query_or_fragment_start c)) rest = true ->
  URL.parse_path (URL.serialize_path segs +:+ rest)
  = (match segs with [] => [""] | _ => segs end, rest).
Proof.
  intros Hsegs Hrest. unfold URL.parse_path.
  destruct segs as [|s segs].
  - simpl.
    assert (Hbody : match rest with
                    | String c s' => if URL.is_slash c then s' else rest
                    | EmptyString => EmptyString
                    end = rest).
    { destruct rest as [|c r]; [reflexivity|]. simpl in Hrest.
      destruct (URL.is_slash c) eqn:Hc; [|reflexivity].
      revert Hrest Hc. clear. each_char c. }
    rewrite Hbody.
    pose proof (span_append _ "" rest eq_refl Hrest) as Hsp. simpl in Hsp.
    rewrite Hsp. reflexivity.
  - inversion Hsegs as [|? ? Hs Hsegs']; subst. simpl.
    rewrite (span_append _ (s +:+ URL.serialize_path segs) rest); [| |assumption].
    + rewrite split_segments_serialize by assumption.
      rewrite (path_state_fixed _ Hsegs []). reflexivity.
    + pose proof (serialize_path_chars _ Hsegs) as H. simpl in H.
      eapply all_chars_impl; [|exact H].
      intros c [_ Hc]%andb_true_iff. exact Hc.
Qed.

(** ** The pathname after normalization *)

Lemma eqb_append_cons_nil (x y : string) (c : ascii) :
  String.eqb (x +:+ String c y) "" = false.
Proof. destruct x; reflexivity. Qed.

Lemma endsWith_char_append (a b : string) (y c : ascii) :
  Js.endsWith_char (a +:+ String y b) c = Js.endsWith_char (String y b) c.
Proof.
  induction a as [|x a IH]; [reflexivity|].
  change (String x a +:+ String y b) with (String x (a +:+ String y b)).
  cbn [Js.endsWith_char]. rewrite IH.
  destruct a; reflexivity.
Qed.

Lemma endsWith_slash_free (s : string) :
  URL.all_chars (fun c => negb (URL.is_slash c)) s = true ->
  Js.endsWith_char s "/" = false.
Proof.
  induction s as [|c s IH]; [reflexivity|].
  simpl. intros [Hc Hs]%andb_true_iff. specialize (IH Hs).
  destruct s; [|exact IH].
  revert Hc. clear. each_char c.
Qed.

Lemma length_append_cons (x y : string) (c : ascii) :
  String.length (x +:+ String c y) = S (String.length x + String.length y).
Proof.
  induction x as [|a x IH]; simpl; [reflexivity|]. rewrite IH. reflexivity.
Qed.

Lemma slice_drop_last_append (a : string) (c : ascii) :
  Js.slice_drop_last (a +:+ String c "") = a.
Proof.
  induction a as [|x a IH]; [reflexivity|].
  change (String x a +:+ String c "") with (String x (a +:+ String c "")).
  cbn [Js.slice_drop_last]. rewrite IH. destruct a; reflexivity.
Qed.

Lemma serialize_path_last (init : list string) (l : string) :
  URL.serialize_path (init ++ [l]) = URL.serialize_path init +:+ String "/" l.
Proof.
  rewrite serialize_path_app. simpl. rewrite append_nil_r. reflexivity.
Qed.

Lemma serialize_path_cons_eqb (s : string) (segs : list string) (l : string) :
  String.eqb (URL.serialize_path (s :: segs) +:+ String "/" l) "/" = false.
Proof.
  simpl. apply eqb_append_cons_nil.
Qed.

(** The normalized pathname of a parsed URL is again a serialized path
    of good segments. *)
Lemma normalized_pathname_shape (u : URL.t) :
  Forall good_segment (URL.path u) -> URL.path u <> [] ->
  exists segs,
    UrlNormalizer.normalized_pathname u = URL.serialize_path segs /\
    Forall good_segment segs.
Proof.
  intros Hgood Hne.
  unfold UrlNormalizer.normalized_pathname, URL.pathname.
  destruct (exists_last Hne) as (init & l & Heq). rewrite Heq in *. clear Heq Hne.
  apply Forall_app in Hgood as [Hinit Hl].
  inversion Hl as [|? ? Hgl _]; subst.
  rewrite serialize_path_last.
  destruct l as [|c l].
  - (* the last segment is empty: a trailing slash *)
    destruct init as [|s init].
    + exists []. split; [reflexivity|constructor].
    + rewrite serialize_path_cons_eqb.
      rewrite endsWith_char_append. cbn [Js.endsWith_char Ascii.eqb].
      replace (_ && _) with true.
      * rewrite slice_drop_last_append. eexists. split; [reflexivity|assumption].
      * rewrite length_append_cons. simpl. reflexivity.
  - (* the last segment is not empty *)
    assert (Hend : Js.endsWith_char
                     (URL.serialize_path init +:+ String "/" (String c l)) "/" = false).
    { rewrite endsWith_char_append.
      change (Js.endsWith_char (String "/" (String c l)) "/")
        with (Js.endsWith_char (String c l) "/").
      apply endsWith_slash_free. now apply good_segment_slash_free. }
    rewrite Hend. cbn [andb].
    replace (String.eqb _ "/") with false.
    + exists (init ++ [String c l]). split; [now rewrite serialize_path_last|].
      apply Forall_app. split; assumption.
    + destruct init as [|s init]; [reflexivity|].
      symmetry. apply serialize_path_cons_eqb.
Qed.

(** Reading back a normalized pathname that does not end with a slash. *)
Lemma normalized_pathname_fixed (u : URL.t) (segs : list string) :
  URL.path u = match segs with [] => [""] | _ => segs end ->
  Js.endsWith_char (URL.serialize_path segs) "/" = false ->
  UrlNormalizer.normalized_pathname u = URL.serialize_path segs.
Proof.
  intros Hpath Hend.
  unfold UrlNormalizer.normalized_pathname, URL.pathname. rewrite Hpath.
  destruct segs as [|s segs]; [reflexivity|].
  rewrite Hend. cbn [andb].
  destruct (String.eqb_spec (URL.serialize_path (s :: segs)) "/") as [Heq|]; [|reflexivity].
  rewrite Heq in Hend. discriminate.
Qed.

(** ** Query and fragment *)

#[local] Arguments URL.percent_encode : simpl never.

Lemma parse_query_fragment_good (rest : string) :
  component_of query_char (fst (URL.parse_query_fragment rest)) /\
  component_of fragment_char (snd (URL.parse_query_fragment rest)).
Proof.
  unfold URL.parse_query_fragment.
  destruct rest as [|c rest]; [split; exact I|].
  destruct (Ascii.eqb c "?").
  - destruct (Js.span _ rest) as [q r]. simpl. split.
    + eapply percent_encode_all; [|apply all_chars_true].
      intros x _. apply encode_char_query.
    + destruct r; [exact I|]. simpl.
      eapply percent_encode_all; [|apply all_chars_true].
      intros x _. apply encode_char_fragment.
  - simpl. split; [exact I|].
    eapply percent_encode_all; [|apply all_chars_true].
    intros x _. apply encode_char_fragment.
Qed.

Lemma with_mark_stops (p : ascii -> bool) (m : ascii) (o : option string) (rest : string) :
  p m = false -> stops p rest = true ->
  stops p (URL.with_mark (String m "") o +:+ rest) = true.
Proof.
  intros Hm Hrest. destruct o as [[|c s]|]; simpl; try assumption.
  now rewrite Hm.
Qed.

Lemma with_mark_visible (m : ascii) (good : ascii -> bool) (o : option string) :
  visible m = true -> (forall c, good c = true -> visible c = true) ->
  component_of good o ->
  URL.all_chars visible (URL.with_mark (String m "") o) = true.
Proof.
  intros Hm Hgood Ho. destruct o as [[|c s]|]; try reflexivity.
  change (visible m && URL.all_chars visible (String c s) = true).
  rewrite Hm. cbn [andb].
  eapply all_chars_impl; [exact Hgood|exact Ho].
Qed.

(** Reading back a serialized query and fragment. *)
Lemma parse_query_fragment_serialized (q f : option string) :
  component_of query_char q -> component_of fragment_char f ->
  exists q' f',
    URL.parse_query_fragment (URL.with_mark "?" q +:+ URL.with_mark "#" f) = (q', f') /\
    URL.with_mark "?" q' = URL.with_mark "?" q /\
    URL.with_mark "#" f' = URL.with_mark "#" f.
Proof.
  intros Hq Hf.
  assert (Hfrag : forall s, URL.all_chars fragment_char s = true ->
                            URL.percent_encode URL.in_fragment_set s = s).
  { intros s Hs. apply percent_encode_fixed. exact Hs. }
  destruct q as [[|c q]|].
  - destruct f as [[|d f]|]; simpl.
    + exists None, None. repeat split.
    + eexists None, _. split; [reflexivity|]. split; [reflexivity|].
      rewrite (Hfrag (String d f) Hf). reflexivity.
    + exists None, None. repeat split.
  - change (URL.with_mark "?" (Some (String c q))) with (String "?" (String c q)).
    cbn [String.append URL.parse_query_fragment Ascii.eqb Bool.eqb].
    change (String c (q +:+ URL.with_mark "#" f))
      with (String c q +:+ URL.with_mark "#" f).
    rewrite span_append.
    + rewrite percent_encode_fixed by exact Hq.
      destruct f as [[|d f]|]; simpl.
      * exists (Some (String c q)), None. repeat split.
      * eexists (Some (String c q)), _. split; [reflexivity|]. split; [reflexivity|].
        rewrite (Hfrag (String d f) Hf). reflexivity.
      * exists (Some (String c q)), None. repeat split.
    + eapply all_chars_impl; [|exact Hq]. apply query_char_not_hash.
    + destruct f as [[|d f]|]; reflexivity.
  - destruct f as [[|d f]|]; simpl.
    + exists None, None. repeat split.
    + eexists None, _. split; [reflexivity|]. split; [reflexivity|].
      rewrite (Hfrag (String d f) Hf). reflexivity.
    + exists None, None. repeat split.
Qed.

(** ** The port *)

Lemma decimal_value_acc (d : Decimal.uint) (acc : positive) :
  URL.decimal_value (Npos acc) (NilEmpty.string_of_uint d)
  = Npos (Pos.of_uint_acc d acc).
Proof.
  revert acc. induction d; intros acc; simpl; try reflexivity;
    rewrite <- IHd; f_equal; lia.
Qed.

Lemma decimal_value_of_uint (d : Decimal.uint) :
  URL.decimal_value 0 (NilEmpty.string_of_uint d) = Pos.of_uint d.
Proof.
  induction d; simpl; try reflexivity; try assumption;
    apply decimal_value_acc.
Qed.

Lemma string_of_uint_digits (d : Decimal.uint) :
  URL.all_chars URL.is_digit (NilEmpty.string_of_uint d) = true.
Proof. induction d; simpl; try reflexivity; assumption. Qed.

Lemma N_to_uint_nonnil (n : N) : N.to_uint n <> Decimal.Nil.
Proof.
  destruct n as [|p]; simpl; [discriminate|]. apply DecimalPos.Unsigned.to_uint_nonnil.
Qed.

Lemma string_of_N_unfold (n : N) :
  URL.string_of_N n = NilEmpty.string_of_uint (N.to_uint n).
Proof.
  unfold URL.string_of_N, NilZero.string_of_uint.
  pose proof (N_to_uint_nonnil n). destruct (N.to_uint n); congruence.
Qed.

Lemma string_of_N_digits (n : N) :
  URL.all_chars URL.is_digit (URL.string_of_N n) = true.
Proof. rewrite string_of_N_unfold. apply string_of_uint_digits. Qed.

Lemma string_of_N_nonempty (n : N) : URL.string_of_N n <> "".
Proof.
  rewrite string_of_N_unfold. pose proof (N_to_uint_nonnil n).
  destruct (N.to_uint n); simpl; congruence.
Qed.

Lemma decimal_value_string_of_N (n : N) :
  URL.decimal_value 0 (URL.string_of_N n) = n.
Proof.
  rewrite string_of_N_unfold, decimal_value_of_uint.
  apply DecimalN.Unsigned.of_to.
Qed.

(** The port of a parsed URL is in range and not the scheme's default. *)
Lemma parse_port_range (sch : string) (ps : option string) (n : N) :
  URL.parse_port sch ps = Some (Some n) ->
  (n <= 65535)%N /\ n <> URL.default_port sch.
Proof.
  unfold URL.parse_port. destruct ps as [[|c s]|]; try discriminate.
  destruct (URL.all_chars _ _); [|discriminate].
  destruct (N.ltb_spec 65535 (URL.decimal_value 0 (String c s))); [discriminate|].
  destruct (N.eqb_spec (URL.decimal_value 0 (String c s)) (URL.default_port sch));
    [discriminate|].
  intros [= <-]. split; assumption.
Qed.

(** Reading back a serialized port under the scheme [https]. *)
Lemma parse_port_serialized (n : N) :
  (n <= 65535)%N -> n <> 443%N ->
  URL.parse_port "https" (Some (URL.string_of_N n)) = Some (Some n).
Proof.
  intros Hle Hne. unfold URL.parse_port.
  pose proof (string_of_N_nonempty n) as Hnil.
  destruct (URL.string_of_N n) as [|c s] eqn:Hs; [congruence|].
  rewrite <- Hs, string_of_N_digits, decimal_value_string_of_N.
  destruct (N.ltb_spec 65535 n); [lia|].
  change (URL.default_port "https") with 443%N.
  destruct (N.eqb_spec n 443); [congruence|reflexivity].
Qed.

(** ** The authority *)

Lemma after_last_at_none (s : string) :
  URL.all_chars (fun c => negb (Ascii.eqb c "@")) s = true ->
  URL.after_last_at s = None.
Proof.
  induction s as [|c s IH]; simpl; [reflexivity|].
  intros [Hc Hs]%andb_true_iff. rewrite (IH Hs).
  apply negb_true_iff in Hc. rewrite Hc. reflexivity.
Qed.

Lemma split_host_port_plain (h : string) (rest : string) :
  URL.all_chars plain_host_char h = true ->
  URL.split_host_port false (h +:+ rest) =
  (h +:+ fst (URL.split_host_port false rest), snd (URL.split_host_port false rest)).
Proof.
  induction h as [|c h IH]; simpl.
  - intros _. destruct (URL.split_host_port false rest); reflexivity.
  - intros [Hc Hh]%andb_true_iff.
    destruct (plain_host_char_no_colon _ Hc) as (H1 & H2 & H3 & _).
    rewrite H1, H2, H3. simpl. rewrite (IH Hh). reflexivity.
Qed.

(** ** What the parser returns *)

Lemma split_scheme_special (s sch after : string) :
  URL.split_scheme s = Some (sch, after) -> sch = "http" \/ sch = "https".
Proof.
  unfold URL.split_scheme. destruct (Js.span _ s) as [a rest].
  destruct rest as [|c r]; [discriminate|].
  destruct (String.eqb_spec (Js.toLowerCase a) "http") as [Hh|_]; simpl.
  - intros [= <- _]. now left.
  - destruct (String.eqb_spec (Js.toLowerCase a) "https") as [Hs|_]; [|discriminate].
    intros [= <- _]. now right.
Qed.

(** The shape of every URL the parser returns, whatever the host parser. *)
Lemma parse_shape (hp : string -> option string) (input : string) (u : URL.t) :
  URL.parse hp input = Some u ->
  (URL.scheme u = "http" \/ URL.scheme u = "https") /\
  (forall n, URL.port_number u = Some n ->
             (n <= 65535)%N /\ n <> URL.default_port (URL.scheme u)) /\
  Forall good_segment (URL.path u) /\ URL.path u <> [] /\
  component_of query_char (URL.query u) /\
  component_of fragment_char (URL.fragment u).
Proof.
  unfold URL.parse.
  destruct (URL.split_scheme _) as [[sch after]|] eqn:Hsch; [|discriminate].
  destruct (Js.span _ _) as [authority after_authority].
  destruct (match URL.after_last_at authority with Some r => r | None => authority end)
    as [|c hp_string] eqn:Hhp; [discriminate|].
  destruct (URL.split_host_port false _) as [host_string port_string].
  destruct host_string as [|c' host_string]; [discriminate|].
  destruct (hp _) as [h|]; [|discriminate].
  destruct (URL.parse_port sch port_string) as [p|] eqn:Hport; [|discriminate].
  unfold URL.parse_path.
  destruct (Js.span _ _) as [raw rest].
  pose proof (parse_query_fragment_good rest) as [Hq Hf].
  destruct (URL.parse_query_fragment rest) as [q f].
  intros [= <-]. simpl in *.
  split; [eapply split_scheme_special; eassumption|].
  split; [intros n ->; eapply parse_port_range; eassumption|].
  split; [apply path_state_good; [apply split_segments_slash_free|constructor]|].
  split; [apply path_state_nonempty, split_segments_nonempty|].
  split; assumption.
Qed.

(** ** Reading back a canonical URL *)

Lemma plain_host_stops (p : ascii -> bool) (h rest : string) :
  (forall c, plain_host_char c = true -> p c = false) ->
  plain_host h = true -> stops p (h +:+ rest) = true.
Proof.
  intros Hp. destruct h as [|c h]; [discriminate|].
  unfold plain_host. simpl. intros [Hc _]%andb_true_iff.
  rewrite (Hp _ Hc). reflexivity.
Qed.

Lemma plain_host_chars (h : string) :
  plain_host h = true -> URL.all_chars plain_host_char h = true.
Proof. destruct h; [discriminate|]. intros H; exact H. Qed.

Lemma port_suffix_chars (p : option N) :
  URL.all_chars (fun c => visible c && negb (URL.is_authority_end c)
                          && negb (Ascii.eqb c "@")) (port_suffix p) = true.
Proof.
  destruct p as [n|]; [|reflexivity].
  unfold port_suffix. simpl.
  eapply all_chars_impl; [|apply string_of_N_digits].
  intros c Hc.
  rewrite (digit_visible _ Hc), (digit_inside _ Hc), (digit_not_at _ Hc). reflexivity.
Qed.

Lemma split_host_port_suffix (p : option N) :
  URL.split_host_port false (port_suffix p)
  = ("", match p with Some n => Some (URL.string_of_N n) | None => None end).
Proof. destruct p; reflexivity. Qed.

Lemma tail_stops_authority (segs : list string) (q f : option string) :
  stops (fun c => negb (URL.is_authority_end c)) (tail_of segs q f) = true.
Proof.
  unfold tail_of. destruct segs as [|s segs]; [|reflexivity]. simpl.
  apply with_mark_stops; [reflexivity|].
  rewrite <- (append_nil_r (URL.with_mark "#" f)).
  apply with_mark_stops; reflexivity.
Qed.

Lemma query_fragment_stops_path (q f : option string) :
  stops (fun c => negb (URL.is_query_or_fragment_start c))
    (URL.with_mark "?" q +:+ URL.with_mark "#" f) = true.
Proof.
  apply with_mark_stops; [reflexivity|].
  rewrite <- (append_nil_r (URL.with_mark "#" f)).
  apply with_mark_stops; reflexivity.
Qed.

Lemma tail_visible (segs : list string) (q f : option string) :
  Forall good_segment segs ->
  component_of query_char q -> component_of fragment_char f ->
  URL.all_chars visible (tail_of segs q f) = true.
Proof.
  intros Hsegs Hq Hf. unfold tail_of.
  rewrite !all_chars_append.
  rewrite (with_mark_visible "?" query_char q eq_refl query_char_visible Hq).
  rewrite (with_mark_visible "#" fragment_char f eq_refl fragment_char_visible Hf).
  rewrite !andb_true_r.
  eapply all_chars_impl; [|apply (serialize_path_chars _ Hsegs)].
  intros c [Hc _]%andb_true_iff. exact Hc.
Qed.

Lemma parse_canonical (hp : string -> option string) (h : string) (p : option N)
    (segs : list string) (q f : option string) :
  plain_host h = true -> hp h = Some h ->
  (forall n, p = Some n -> (n <= 65535)%N /\ n <> 443%N) ->
  Forall good_segment segs ->
  component_of query_char q -> component_of fragment_char f ->
  exists q' f',
    URL.parse hp ("https://" +:+ (h +:+ port_suffix p) +:+ tail_of segs q f)
    = Some (URL.mk "https" h p (match segs with [] => [""] | _ => segs end) q' f') /\
    URL.with_mark "?" q' = URL.with_mark "?" q /\
    URL.with_mark "#" f' = URL.with_mark "#" f.
Proof.
  intros Hplain Hhost Hport Hsegs Hq Hf.
  pose proof (plain_host_chars _ Hplain) as Hchars.
  set (n := (h +:+ port_suffix p) +:+ tail_of segs q f).
  assert (Hvis : URL.all_chars visible n = true).
  { unfold n. rewrite !all_chars_append, (tail_visible _ _ _ Hsegs Hq Hf), andb_true_r.
    apply andb_true_iff. split.
    - eapply all_chars_impl; [apply plain_host_char_visible|exact Hchars].
    - eapply all_chars_impl; [|apply port_suffix_chars].
      intros c [[Hc _]%andb_true_iff _]%andb_true_iff. exact Hc. }
  unfold URL.parse.
  (* preprocessing leaves the input alone *)
  assert (Hpre : URL.preprocess ("https://" +:+ n) = "https://" +:+ n).
  { unfold URL.preprocess.
    change (URL.strip_leading URL.is_c0_or_space ("https://" +:+ n)) with ("https://" +:+ n).
    rewrite strip_trailing_id, remove_all_id; [reflexivity| |].
    - change (URL.all_chars (fun c => negb (URL.is_tab_or_newline c)) n = true).
      eapply all_chars_impl; [apply visible_not_tab_or_newline|exact Hvis].
    - change (URL.all_chars (fun c => negb (URL.is_c0_or_space c)) n = true).
      eapply all_chars_impl; [apply visible_not_c0_or_space|exact Hvis]. }
  rewrite Hpre.
  change (URL.split_scheme ("https://" +:+ n)) with (Some ("https", "//" +:+ n)).
  cbv iota beta.
  change (URL.strip_leading URL.is_slash ("//" +:+ n)) with (URL.strip_leading URL.is_slash n).
  rewrite strip_leading_id.
  2:{ unfold n. rewrite append_assoc. apply plain_host_stops; [|exact Hplain].
      intros c Hc. apply negb_true_iff. now apply plain_host_char_not_slash. }
  unfold n at 1.
  rewrite span_append; [| |apply tail_stops_authority].
  2:{ rewrite all_chars_append. apply andb_true_iff. split.
      - eapply all_chars_impl; [apply plain_host_char_inside|exact Hchars].
      - eapply all_chars_impl; [|apply port_suffix_chars].
        intros c [[_ Hc]%andb_true_iff _]%andb_true_iff. exact Hc. }
  cbv iota beta.
  rewrite after_last_at_none.
  2:{ rewrite all_chars_append. apply andb_true_iff. split.
      - eapply all_chars_impl; [|exact Hchars].
        intros c Hc. apply negb_true_iff. apply (plain_host_char_no_colon _ Hc).
      - eapply all_chars_impl; [|apply port_suffix_chars].
        intros c [_ Hc]%andb_true_iff. exact Hc. }
  rewrite split_host_port_plain by exact Hchars.
  rewrite split_host_port_suffix. cbn [fst snd]. rewrite append_nil_r.
  destruct h as [|c h]; [discriminate|].
  change (String c h +:+ port_suffix p) with (String c (h +:+ port_suffix p)).
  cbv iota beta. rewrite Hhost.
  assert (Hpp : URL.parse_port "https"
                  match p with Some n0 => Some (URL.string_of_N n0) | None => None end
                = Some p).
  { destruct p as [m|]; [|reflexivity].
    destruct (Hport m eq_refl). now apply parse_port_serialized. }
  rewrite Hpp.
  unfold tail_of. rewrite (parse_path_serialized _ _ Hsegs (query_fragment_stops_path q f)).
  destruct (parse_query_fragment_serialized q f Hq Hf) as (q' & f' & Hparse & Hq' & Hf').
  rewrite Hparse. exists q', f'. repeat split; assumption.
Qed.

(** ** Idempotence of the canonical form *)

Lemma strip_scheme_prefix_https (x : string) :
  Js.strip_scheme_prefix ("https://" +:+ x) = x.
Proof.
  unfold Js.strip_scheme_prefix, Js.match_scheme_prefix.
  rewrite prefix_append. reflexivity.
Qed.

Lemma strip_scheme_prefix_http (x : string) :
  Js.strip_scheme_prefix ("http://" +:+ x) = x.
Proof.
  unfold Js.strip_scheme_prefix, Js.match_scheme_prefix.
  change (String.prefix "https://" ("http://" +:+ x)) with false.
  rewrite prefix_append. reflexivity.
Qed.

(** The result of the [try] block, piece by piece. *)
Lemma rebuild_pieces (u : URL.t) :
  URL.scheme u = "http" \/ URL.scheme u = "https" ->
  UrlNormalizer.rebuild u
  = (UrlNormalizer.normalized_hostname u +:+ port_suffix (URL.port_number u))
    +:+ (UrlNormalizer.normalized_pathname u +:+ URL.search u +:+ URL.hash u).
Proof.
  intros Hsch. unfold UrlNormalizer.rebuild, URL.protocol, URL.port, port_suffix.
  set (h := UrlNormalizer.normalized_hostname u).
  set (t := UrlNormalizer.normalized_pathname u).
  destruct (URL.port_number u) as [n|].
  - pose proof (string_of_N_nonempty n).
    destruct (URL.string_of_N n) as [|c s] eqn:Hs; [congruence|].
    cbv iota. rewrite !append_assoc.
    destruct Hsch as [-> | ->].
    + apply (strip_scheme_prefix_http
               (h +:+ ":" +:+ String c s +:+ t +:+ URL.search u +:+ URL.hash u)).
    + apply (strip_scheme_prefix_https
               (h +:+ ":" +:+ String c s +:+ t +:+ URL.search u +:+ URL.hash u)).
  - cbv iota. rewrite !append_assoc.
    destruct Hsch as [-> | ->].
    + apply (strip_scheme_prefix_http (h +:+ t +:+ URL.search u +:+ URL.hash u)).
    + apply (strip_scheme_prefix_https (h +:+ t +:+ URL.search u +:+ URL.hash u)).
Qed.

Lemma normalized_hostname_lower (u : URL.t) :
  Js.toLowerCase (UrlNormalizer.normalized_hostname u)
  = UrlNormalizer.normalized_hostname u.
Proof.
  unfold UrlNormalizer.normalized_hostname.
  destruct (Js.startsWith _ _).
  - rewrite toLowerCase_substring_from, toLowerCase_idem. reflexivity.
  - apply toLowerCase_idem.
Qed.

(** A canonical URL is its own working URL. *)
Lemma workingUrl_canonical (n : string) :
  URL.all_chars visible n = true ->
  UrlNormalizer.workingUrl ("https://" +:+ n) = "https://" +:+ n.
Proof.
  intros Hvis. unfold UrlNormalizer.workingUrl, Js.trim.
  change (Js.trimStart ("https://" +:+ n)) with ("https://" +:+ n).
  rewrite trimEnd_id.
  - unfold Js.match_scheme_prefix. rewrite prefix_append. reflexivity.
  - change (URL.all_chars (fun c => negb (Js.is_white_space c)) n = true).
    eapply all_chars_impl; [apply visible_not_white_space|exact Hvis].
Qed.

Lemma canonical_visible (h : string) (p : option N) (segs : list string)
    (q f : option string) :
  plain_host h = true -> Forall good_segment segs ->
  component_of query_char q -> component_of fragment_char f ->
  URL.all_chars visible ((h +:+ port_suffix p) +:+ tail_of segs q f) = true.
Proof.
  intros Hplain Hsegs Hq Hf.
  rewrite !all_chars_append, (tail_visible _ _ _ Hsegs Hq Hf), andb_true_r.
  apply andb_true_iff. split.
  - eapply all_chars_impl; [apply plain_host_char_visible|now apply plain_host_chars].
  - eapply all_chars_impl; [|apply port_suffix_chars].
    intros c [[Hc _]%andb_true_iff _]%andb_true_iff. exact Hc.
Qed.

Section Idempotence.

Variable host_parser : string -> option string.

(** C3, as amended. Let [url] be read by the URL parser as [u]. If the
    normalized host of [u] (lowercased, one [www.] removed) is a plain
    host name that the host parser maps to itself and does not begin with
    [www.], the port of [u] is not 443, and the normalized pathname of [u]
    does not end with a slash, then the canonical form of [url] is a fixed
    point of canonicalization. *)
Theorem canonical_idempotent_on_plain_urls (url : string) (u : URL.t) :
  URL.parse host_parser (UrlNormalizer.workingUrl url) = Some u ->
  plain_host (UrlNormalizer.normalized_hostname u) = true ->
  host_parser (UrlNormalizer.normalized_hostname u)
  = Some (UrlNormalizer.normalized_hostname u) ->
  Js.startsWith (UrlNormalizer.normalized_hostname u) "www." = false ->
  URL.port_number u <> Some 443%N ->
  Js.endsWith_char (UrlNormalizer.normalized_pathname u) "/" = false ->
  UrlNormalizer.getCanonicalUrl (URL.parse host_parser)
    (UrlNormalizer.getCanonicalUrl (URL.parse host_parser) url)
  = UrlNormalizer.getCanonicalUrl (URL.parse host_parser) url.
Proof.
  intros Hparse Hplain Hfix Hwww Hport Hslash.
  destruct (parse_shape _ _ _ Hparse) as (Hsch & Hrange & Hsegs & Hne & Hq & Hf).
  destruct (normalized_pathname_shape u Hsegs Hne) as (segs & Hpath & Hgood).
  set (h := UrlNormalizer.normalized_hostname u) in *.
  set (p := URL.port_number u) in *.
  (* the canonical form of [url] *)
  assert (Hn : UrlNormalizer.normalize (URL.parse host_parser) url
               = (h +:+ port_suffix p) +:+ tail_of segs (URL.query u) (URL.fragment u)).
  { unfold UrlNormalizer.normalize, UrlNormalizer.normalize_try.
    rewrite Hparse. cbn [Js.try_catch].
    rewrite (rebuild_pieces u Hsch), Hpath. reflexivity. }
  unfold UrlNormalizer.getCanonicalUrl at 1 3. f_equal.
  unfold UrlNormalizer.getCanonicalUrl. rewrite Hn.
  set (n := (h +:+ port_suffix p) +:+ tail_of segs (URL.query u) (URL.fragment u)).
  (* its second reading *)
  assert (Hp443 : forall m, p = Some m -> (m <= 65535)%N /\ m <> 443%N).
  { intros m Hm. split; [apply (Hrange m Hm)|]. intros ->. apply Hport. exact Hm. }
  destruct (parse_canonical host_parser h p segs (URL.query u) (URL.fragment u)
              Hplain Hfix Hp443 Hgood Hq Hf) as (q' & f' & Hparse2 & Hq' & Hf').
  fold n in Hparse2.
  unfold UrlNormalizer.normalize, UrlNormalizer.normalize_try.
  rewrite workingUrl_canonical by (apply canonical_visible; assumption).
  rewrite Hparse2. cbn [Js.try_catch].
  rewrite rebuild_pieces by (right; reflexivity).
  assert (Hh2 : UrlNormalizer.normalized_hostname
                  (URL.mk "https" h p match segs with [] => [""] | _ => segs end q' f')
                = h).
  { assert (Hlow : Js.toLowerCase h = h) by apply normalized_hostname_lower.
    unfold UrlNormalizer.normalized_hostname at 1. cbn [URL.hostname URL.host].
    rewrite Hlow, Hwww. reflexivity. }
  rewrite Hh2.
  rewrite (normalized_pathname_fixed _ segs);
    [|reflexivity|rewrite <- Hpath; exact Hslash].
  unfold URL.search, URL.hash. cbn [URL.query URL.fragment URL.port_number].
  rewrite Hq', Hf'. reflexivity.
Qed.

End Idempotence.

Lemma canonical_idempotent_on_plain_urls_witness :
  exists u,
    new_URL (UrlNormalizer.workingUrl "  http://WWW.Example.com:8080/a/../b/c/?x=1 2#top ") = Some u /\
    plain_host (UrlNormalizer.normalized_hostname u) = true /\
    URL.domain_host_parser (UrlNormalizer.normalized_hostname u)
    = Some (UrlNormalizer.normalized_hostname u) /\
    Js.startsWith (UrlNormalizer.normalized_hostname u) "www." = false /\
    URL.port_number u <> Some 443%N /\
    Js.endsWith_char (UrlNormalizer.normalized_pathname u) "/" = false /\
    canonical "  http://WWW.Example.com:8080/a/../b/c/?x=1 2#top "
    = "https://example.com:8080/b/c?x=1%202#top" /\
    canonical (canonical "  http://WWW.Example.com:8080/a/../b/c/?x=1 2#top ")
    = canonical "  http://WWW.Example.com:8080/a/../b/c/?x=1 2#top ".
Proof.
  eexists. split; [vm_compute; reflexivity|].
  assert (H443 : Some 8080%N <> Some 443%N) by discriminate.
  split; [reflexivity|]. split; [reflexivity|]. split; [reflexivity|].
  split; [exact H443|]. split; [reflexivity|]. split; [vm_compute; reflexivity|].
  eapply (canonical_idempotent_on_plain_urls URL.domain_host_parser
            "  http://WWW.Example.com:8080/a/../b/c/?x=1 2#top ").
  - vm_compute. reflexivity.
  - reflexivity.
  - reflexivity.
  - reflexivity.
  - exact H443.
  - reflexivity.
Defined.

(** ** The control plane: what an update does to a record *)

Section ControlPlane.

Import UrlFetchRequest UrlFetchRequestRepository UrlContentService.

Lemma update_found (id : string) (data : Partial) (c : Collection)
    (d : UrlFetchRequest.t) :
  docs c !! id = Some d ->
  update id data c
  = (Some (apply_update d data),
     mkCollection (<[id := apply_update d data]> (docs c)) (next_id c)).
Proof. intros H. unfold update. rewrite H. reflexivity. Qed.


(** The record a started notification leaves behind: PROCESSING, the
    user agent of the message, and the error message it had before (the
    [undefined] of the update leaves the stored value alone). *)
Lemma handleScrapeStarted_record (started : ScrapeStarted.t) (st : State)
    (d : UrlFetchRequest.t) :
  docs (repository st) !! ScrapeStarted.id started = Some d ->
  exists d',
    docs (repository (handleScrapeStarted started st)) !! ScrapeStarted.id started
    = Some d' /\
    status d' = PROCESSING /\
    str d' userAgent = Some (ScrapeStarted.userAgent started) /\
    str d' errorMessage = str d errorMessage.
Proof.
  intros H. unfold handleScrapeStarted.
  rewrite (update_found _ _ _ _ H). simpl.
  eexists. split; [apply lookup_insert_eq|]. repeat split.
Qed.



(** A failure built by the worker for a request whose retry count has
    reached the worker's limit never carries [canRetry]: with one
    [MAX_RETRIES] for both planes the control plane then always gives
    the reason of a non-retryable error. *)
Lemma createFailure_exhausted (MAX_RETRIES now : Z) (request : ScrapeRequest.t)
    (msg : string) (retryable : bool) (http : option Z) :
  MAX_RETRIES <= ScraperService.retryCount_or_0 request ->
  ScrapeFailure.canRetry
    (ScraperService.createFailure MAX_RETRIES now request msg retryable http)
  = false.
Proof.
  intros H. unfold ScraperService.createFailure; simpl.
  apply Z.ltb_ge in H. rewrite H. apply andb_false_r.
Qed.

End ControlPlane.

(** ** The pipeline on concrete runs *)

Section Runs.

Import UrlContentService Scenario.

(** C1. Four consecutive retryable failures with [MAX_RETRIES] 3 (four
    refused connections, or four responses with status 503): four
    requests are published and the record ends FAILED with retry count
    3, but the reason in its error message is the one of a
    non-retryable error, because the worker has already cleared
    [canRetry] on the fourth failure. *)
Theorem four_retryable_failures_end_not_retryable :
  view "0" (attempts [refused; refused; refused; refused] submitted_example)
  = Some (mkView FAILED 3 (Some "Error is not retryable: Connection refused")
            (Some 503) (Some ScraperService.userAgent) None None None None) /\
  view "0" (attempts [unavailable; unavailable; unavailable; unavailable] submitted_example)
  = Some (mkView FAILED 3
            (Some "Error is not retryable: Cannot read properties of null (reading 'message')")
            None (Some ScraperService.userAgent) None None None None) /\
  length (Pipeline.requests_published
            (attempts [refused; refused; refused; refused] submitted_example)) = 4%nat.
Proof. repeat split; vm_compute; reflexivity. Qed.

(** C4. A record that carries a retry message keeps it when the started
    notification of the next attempt arrives: the update names
    [errorMessage] with the value [undefined], which does not clear the
    stored property. *)
Theorem started_keeps_retry_message :
  view "0" (attempts [refused] submitted_example)
  = Some (mkView PENDING 1 (Some "Retry 1/3: Connection refused")
            None (Some ScraperService.userAgent) None None None None) /\
  view "0" (handleScrapeStarted
              (ScrapeStarted.mk "0" "https://example.com" 3000 "agent/2")
              (attempts [refused] submitted_example))
  = Some (mkView PROCESSING 1 (Some "Retry 1/3: Connection refused")
            None (Some "agent/2") None None None None).
Proof. split; vm_compute; reflexivity. Qed.

(** C5. The failure of a first attempt is delivered again after the
    second attempt has succeeded: the record goes back to PENDING with
    retry count 1 and a retry message and a request with retry count 1
    and priority 2 is published, but the content, content type, content
    hash and fetch time of the success stay on the record. *)
Theorem retry_keeps_success_data :
  let succeeded := attempts [refused; ok] submitted_example in
  let redelivered := handleScrapeFailure 3 first_failure succeeded in
  last (ScraperService.consume 3 digest byteLength 2000 5
          (ScrapeRequest.mk "0" "https://example.com" None None (Some 0) (Some 1))
          refused)
  = Some (SCRAPE_FAILURES, MsgFailure first_failure) /\
  view "0" succeeded
  = Some (mkView SUCCESS 1 None (Some 200) (Some ScraperService.userAgent)
            (Some "<html>OK</html>") (Some "text/html")
            (Some "sha256:<html>OK</html>") (Some 2000)) /\
  view "0" redelivered
  = Some (mkView PENDING 1 (Some "Retry 1/3: Connection refused") (Some 200)
            (Some ScraperService.userAgent)
            (Some "<html>OK</html>") (Some "text/html")
            (Some "sha256:<html>OK</html>") (Some 2000)) /\
  last (published redelivered)
  = Some (SCRAPE_REQUESTS,
          MsgRequest (ScrapeRequest.mk "0" "https://example.com" None None
                        (Some 1) (Some 2))).
Proof. repeat split; vm_compute; reflexivity. Qed.

(** C9, counterexample. In scenario 2 the resubmitted [www.ynet.co.il]
    has the canonical form of the stored record, so the reason is the
    one of a direct match and not the one of a redirect. *)
Lemma scenario_2_reason_is_direct_match :
  map reason (skipped (fst (submit 3000 ["www.ynet.co.il"] ynet_scraped)))
  = ["Successfully scraped within 60 minutes"] /\
  map reason (skipped (fst (submit 3000 ["www.ynet.co.il"] ynet_scraped)))
  <> ["Already scraped via redirect"].
Proof. split; vm_compute; [reflexivity|discriminate]. Qed.

End Runs.

(** ** Submission: the reason given for a skipped URL *)

Section SkipReason.

Import UrlFetchRequest UrlFetchRequestRepository UrlContentService.

Variable platform_URL : string -> option URL.t.
Variable scrapeInterval : Z.

(** C9, as amended. When [submitUrls] skips [url] because the recent
    record [r] is a SUCCESS with a fetch time, the reason is
    [Successfully scraped within N minutes] if [r.url] is the canonical
    form of [url] or is equivalent to [url] under normalization, and
    otherwise [Already scraped via redirect] followed by the record's URL
    in parentheses; the next available time is the fetch time plus the
    window in milliseconds. *)
Theorem submit_skips_recent_success (now : Z) (url : string) (st : State)
    (r : UrlFetchRequest.t) (fetched : Z) :
  getRecentByUrl platform_URL now url scrapeInterval (repository st) = Some r ->
  status r = SUCCESS ->
  num r fetchedAt = Some fetched ->
  submitUrls platform_URL scrapeInterval now [url] st
  = (mkResponse []
       [mkSkipped url
          (if String.eqb (UrlFetchRequest.url r)
                (UrlNormalizer.getCanonicalUrl platform_URL url)
              || UrlNormalizer.areEquivalent platform_URL (UrlFetchRequest.url r) url
           then "Successfully scraped within " +:+ Js.string_of_Z scrapeInterval
                +:+ " minutes"
           else "Already scraped via redirect (" +:+ UrlFetchRequest.url r
                +:+ " " +:+ arrow +:+ " redirects to this URL)")
          (Some fetched)
          (Some (fetched + scrapeInterval * 60 * 1000))]
       [],
     st).
Proof.
  intros Hrecent Hstatus Hfetched.
  unfold submitUrls; simpl. unfold submitUrl.
  rewrite Hrecent; simpl.
  unfold skip. rewrite Hstatus, Hfetched; simpl.
  destruct (String.eqb _ _ || _); reflexivity.
Qed.

End SkipReason.

(** A URL found only in the redirect chain of a recent success is skipped
    with the redirect reason. *)
Lemma submit_skips_recent_success_witness :
  exists r,
    UrlFetchRequestRepository.getRecentByUrl new_URL 3000 "news.ynet.co.il" 60
      (UrlContentService.repository Scenario.ynet_via_news) = Some r /\
    UrlFetchRequest.status r = SUCCESS /\
    UrlFetchRequest.num r UrlFetchRequest.fetchedAt = Some 2000 /\
    UrlContentService.submitUrls new_URL 60 3000 ["news.ynet.co.il"] Scenario.ynet_via_news
    = (UrlContentService.mkResponse []
         [UrlContentService.mkSkipped "news.ynet.co.il"
            ("Already scraped via redirect (https://ynet.co.il "
             +:+ UrlContentService.arrow +:+ " redirects to this URL)")
            (Some 2000) (Some 3602000)]
         [],
       Scenario.ynet_via_news).
Proof.
  destruct (UrlFetchRequestRepository.getRecentByUrl new_URL 3000 "news.ynet.co.il" 60
              (UrlContentService.repository Scenario.ynet_via_news)) as [r|] eqn:Hr;
    [|vm_compute in Hr; discriminate].
  exists r.
  assert (Hs : UrlFetchRequest.status r = SUCCESS)
    by (vm_compute in Hr; injection Hr as <-; reflexivity).
  assert (Hf : UrlFetchRequest.num r UrlFetchRequest.fetchedAt = Some 2000)
    by (vm_compute in Hr; injection Hr as <-; reflexivity).
  assert (Hu : UrlFetchRequest.url r = "https://ynet.co.il")
    by (vm_compute in Hr; injection Hr as <-; reflexivity).
  split; [reflexivity|]. split; [exact Hs|]. split; [exact Hf|].
  rewrite (submit_skips_recent_success new_URL 60 3000 "news.ynet.co.il"
             Scenario.ynet_via_news r 2000 Hr Hs Hf).
  rewrite Hu. reflexivity.
Defined.

(** ** The retry bound *)

Section RetryBound.

Import UrlFetchRequest UrlFetchRequestRepository UrlContentService.

Variable platform_URL : string -> option URL.t.
Variable scrapeInterval : Z.
Variable maxRetries : Z.
Hypothesis maxRetries_nonneg : 0 <= maxRetries.

Lemma assign_bounded (d : UrlFetchRequest.t) (a : Assign) :
  match a with set_retryCount v => v <= maxRetries | _ => True end ->
  retryCount d <= maxRetries ->
  retryCount (assign d a) <= maxRetries.
Proof.
  destruct a as [v|v|v|v|f [| |x]|f [| |x]]; simpl; intros Ha Hd; assumption.
Qed.

Lemma apply_update_bounded (data : Partial) :
  writes_bounded maxRetries data ->
  forall d, retryCount d <= maxRetries ->
            retryCount (apply_update d data) <= maxRetries.
Proof.
  unfold apply_update, writes_bounded.
  induction 1 as [|a data Ha _ IH]; intros d Hd; simpl; [assumption|].
  apply IH. apply assign_bounded; assumption.
Qed.

Lemma update_bounded (id : string) (data : Partial) (st : State) :
  writes_bounded maxRetries data ->
  bounded maxRetries st ->
  bounded maxRetries (mkState (snd (update id data (repository st))) (published st)).
Proof.
  intros Hdata Hst. unfold update.
  destruct (docs (repository st) !! id) as [d|] eqn:Hd; simpl; [|exact Hst].
  intros id' d'. simpl. rewrite lookup_insert.
  destruct (decide (id = id')) as [->|Hne].
  - intros [= <-]. apply apply_update_bounded; [assumption|]. eapply Hst, Hd.
  - apply Hst.
Qed.

Lemma publish_bounded (q : QueueNames) (m : Message) (st : State) :
  bounded maxRetries st -> bounded maxRetries (publish q m st).
Proof. intros H. exact H. Qed.

Lemma handleScrapeStarted_bounded (m : ScrapeStarted.t) (st : State) :
  bounded maxRetries st -> bounded maxRetries (handleScrapeStarted m st).
Proof.
  intros Hst. unfold handleScrapeStarted.
  match goal with
  | |- context [update ?i ?data ?c] =>
      pose proof (update_bounded i data st) as Hu;
      destruct (update i data c) as [o c']
  end.
  apply Hu; [|assumption]. repeat constructor.
Qed.

Lemma handleScrapeResult_bounded (m : ScrapeResult.t) (st : State) :
  bounded maxRetries st -> bounded maxRetries (handleScrapeResult m st).
Proof.
  intros Hst. unfold handleScrapeResult.
  match goal with
  | |- context [update ?i ?data ?c] =>
      pose proof (update_bounded i data st) as Hu;
      destruct (update i data c) as [o c']
  end.
  apply Hu; [|assumption].
  destruct (ScrapeResult.success m); repeat constructor.
Qed.

Lemma handleScrapeFailure_bounded (m : ScrapeFailure.t) (st : State) :
  bounded maxRetries st -> bounded maxRetries (handleScrapeFailure maxRetries m st).
Proof.
  intros Hst. unfold handleScrapeFailure.
  destruct (ScrapeFailure.canRetry m && (ScrapeFailure.retryCount m <? maxRetries))
    eqn:Hretry.
  - apply andb_true_iff in Hretry as [_ Hlt]. apply Z.ltb_lt in Hlt.
    match goal with
    | |- context [update ?i ?data ?c] =>
        pose proof (update_bounded i data st) as Hu;
        destruct (update i data c) as [o c']
    end.
    assert (Hb : bounded maxRetries (mkState c' (published st))).
    { apply Hu; [|assumption]. repeat constructor. lia. }
    destruct o; [apply publish_bounded|]; exact Hb.
  - match goal with
    | |- context [update ?i ?data ?c] =>
        pose proof (update_bounded i data st) as Hu;
        destruct (update i data c) as [o c']
    end.
    apply Hu; [|assumption]. repeat constructor.
Qed.

Lemma submitUrl_bounded (now : Z) (url : string) (r : SubmitUrlsResponseDto)
    (st : State) :
  bounded maxRetries st ->
  bounded maxRetries (snd (submitUrl platform_URL scrapeInterval now (r, st) url)).
Proof.
  intros Hst. unfold submitUrl.
  destruct (getRecentByUrl _ _ _ _ _); simpl; [assumption|].
  intros id d. simpl. rewrite lookup_insert.
  destruct (decide (_ = id)) as [_|_]; [|apply Hst].
  intros [= <-]. simpl. assumption.
Qed.

Lemma submitUrls_bounded (now : Z) (urls : list string) (st : State) :
  bounded maxRetries st ->
  bounded maxRetries (snd (submitUrls platform_URL scrapeInterval now urls st)).
Proof.
  unfold submitUrls. generalize (mkResponse [] [] []).
  revert st. induction urls as [|u urls IH]; intros st r Hst; cbn [fold_left];
    [assumption|].
  destruct (submitUrl platform_URL scrapeInterval now (r, st) u) as [r' st'] eqn:Hs.
  apply IH.
  change st' with (snd (r', st')). rewrite <- Hs.
  apply submitUrl_bounded. assumption.
Qed.

Lemma step_bounded (op : Operation) (st : State) :
  bounded maxRetries st -> bounded maxRetries (step platform_URL scrapeInterval maxRetries st op).
Proof.
  destruct op; simpl.
  - apply submitUrls_bounded.
  - apply handleScrapeStarted_bounded.
  - apply handleScrapeResult_bounded.
  - apply handleScrapeFailure_bounded.
Qed.

End RetryBound.

(** C6. With a non-negative [MAX_RETRIES], every sequence of submissions
    and of started, result and failure messages, whatever identifiers,
    flags and integer counts the messages hold, leaves every record with a
    retry count of at most [MAX_RETRIES], from any store whose records are
    within the limit; in particular from the empty store. *)
Theorem retryCount_never_exceeds_MAX_RETRIES
    (platform_URL : string -> option URL.t) (scrapeInterval maxRetries : Z)
    (ops : list UrlContentService.Operation) (st : UrlContentService.State) :
  0 <= maxRetries ->
  bounded maxRetries st ->
  bounded maxRetries
    (UrlContentService.run platform_URL scrapeInterval maxRetries ops st).
Proof.
  intros Hmax. unfold UrlContentService.run.
  revert st. induction ops as [|op ops IH]; intros st Hst; simpl; [assumption|].
  apply IH. apply step_bounded; assumption.
Qed.

Lemma retryCount_never_exceeds_MAX_RETRIES_witness :
  0 <= 3 /\
  bounded 3 UrlContentService.initial /\
  bounded 3
    (UrlContentService.run new_URL 60 3
       [ UrlContentService.Submit 1000 ["https://example.com"];
         UrlContentService.Failure Scenario.first_failure;
         UrlContentService.Failure
           (ScrapeFailure.mk "0" "https://example.com" "x" 7 3 true None 2000) ]
       UrlContentService.initial).
Proof.
  assert (H0 : bounded 3 UrlContentService.initial).
  { intros id d H. cbn in H. rewrite lookup_empty in H. discriminate. }
  split; [lia|]. split; [exact H0|].
  apply (retryCount_never_exceeds_MAX_RETRIES new_URL 60 3); [lia|exact H0].
Defined.

(** ** More on the normalizer *)

Lemma trimStart_stops (s : string) : stops Js.is_white_space (Js.trimStart s) = true.
Proof.
  induction s as [|c s IH]; simpl; [reflexivity|].
  destruct (Js.is_white_space c) eqn:Hc; [exact IH|]. simpl. now rewrite Hc.
Qed.

Lemma trimEnd_stops (s : string) :
  stops Js.is_white_space s = true -> stops Js.is_white_space (Js.trimEnd s) = true.
Proof.
  destruct s as [|c s]; simpl; [reflexivity|]. intros Hc.
  destruct (Js.trimEnd s); simpl; [|exact Hc].
  apply negb_true_iff in Hc. rewrite Hc. simpl. now rewrite Hc.
Qed.

Lemma trimEnd_idem (s : string) : Js.trimEnd (Js.trimEnd s) = Js.trimEnd s.
Proof.
  induction s as [|c s IH]; simpl; [reflexivity|].
  destruct (Js.trimEnd s) as [|d r] eqn:Hr.
  - destruct (Js.is_white_space c) eqn:Hc; simpl; [reflexivity|]. now rewrite Hc.
  - change (Js.trimEnd (String c (String d r)))
      with (match Js.trimEnd (String d r) with
            | EmptyString =>
                if Js.is_white_space c then EmptyString else String c EmptyString
            | String _ _ as r0 => String c r0
            end).
    rewrite IH. reflexivity.
Qed.

Lemma trim_idem (s : string) : Js.trim (Js.trim s) = Js.trim s.
Proof.
  unfold Js.trim.
  rewrite (trimStart_id (Js.trimEnd (Js.trimStart s))).
  - apply trimEnd_idem.
  - apply trimEnd_stops, trimStart_stops.
Qed.

Section NormalizerMore.

Variable platform_URL : string -> option URL.t.

(** X1. White space around a URL never matters to the normalizer:
    normalizing the trimmed string gives the normalization, the canonical
    form and the equivalence class of the string itself, whether the URL
    constructor accepts it or not. *)
Theorem normalize_ignores_surrounding_white_space (url other : string) :
  UrlNormalizer.normalize platform_URL (Js.trim url)
  = UrlNormalizer.normalize platform_URL url /\
  UrlNormalizer.getCanonicalUrl platform_URL (Js.trim url)
  = UrlNormalizer.getCanonicalUrl platform_URL url /\
  UrlNormalizer.areEquivalent platform_URL (Js.trim url) other
  = UrlNormalizer.areEquivalent platform_URL url other.
Proof.
  assert (H : UrlNormalizer.normalize platform_URL (Js.trim url)
              = UrlNormalizer.normalize platform_URL url).
  { unfold UrlNormalizer.normalize, UrlNormalizer.normalize_try,
      UrlNormalizer.workingUrl, UrlNormalizer.fallback.
    rewrite trim_idem. reflexivity. }
  unfold UrlNormalizer.getCanonicalUrl, UrlNormalizer.areEquivalent.
  rewrite H. repeat split.
Qed.

End NormalizerMore.

(** X3. For a URL that the parser accepts, [getHostname] is the host part
    of the normalization: the normalized string begins with it, it is in
    lower case, and it is the parsed host without one leading [www.]. *)
Theorem getHostname_is_the_host_of_normalize
    (host_parser : string -> option string) (url : string) (u : URL.t) :
  URL.parse host_parser (UrlNormalizer.workingUrl url) = Some u ->
  UrlNormalizer.getHostname (URL.parse host_parser) url
  = UrlNormalizer.normalized_hostname u /\
  Js.toLowerCase (UrlNormalizer.getHostname (URL.parse host_parser) url)
  = UrlNormalizer.getHostname (URL.parse host_parser) url /\
  Js.startsWith (UrlNormalizer.normalize (URL.parse host_parser) url)
    (UrlNormalizer.getHostname (URL.parse host_parser) url) = true.
Proof.
  intros Hparse.
  destruct (parse_shape _ _ _ Hparse) as (Hsch & _).
  unfold UrlNormalizer.getHostname, UrlNormalizer.normalize,
    UrlNormalizer.normalize_try.
  rewrite Hparse. cbn [Js.try_catch].
  split; [reflexivity|]. split; [apply normalized_hostname_lower|].
  rewrite (rebuild_pieces u Hsch), append_assoc.
  apply prefix_append.
Qed.

Lemma getHostname_is_the_host_of_normalize_witness :
  exists u,
    new_URL (UrlNormalizer.workingUrl " http://WWW.Example.COM:8443/Path?Q#F") = Some u /\
    UrlNormalizer.getHostname new_URL " http://WWW.Example.COM:8443/Path?Q#F"
    = UrlNormalizer.normalized_hostname u /\
    UrlNormalizer.getHostname new_URL " http://WWW.Example.COM:8443/Path?Q#F"
    = "example.com".
Proof.
  eexists. split; [vm_compute; reflexivity|].
  split; [|vm_compute; reflexivity].
  eapply (getHostname_is_the_host_of_normalize URL.domain_host_parser).
  vm_compute. reflexivity.
Defined.

(** ** More on the classifier and the scraper *)

Section ClassifierMore.

Import HttpErrorHandler.

Lemma handleHttpStatus_temporary (status : Z) (msg : string) :
  isTemporary (handleHttpStatus status msg) = canRetry (handleHttpStatus status msg).
Proof.
  unfold handleHttpStatus.
  repeat match goal with
         | |- context [if ?b then _ else _] => destruct b
         end; reflexivity.
Qed.

Lemma handleChromeNetworkError_temporary (msg : string) :
  isTemporary (handleChromeNetworkError msg) = canRetry (handleChromeNetworkError msg).
Proof.
  unfold handleChromeNetworkError.
  repeat match goal with
         | |- context [if ?b then _ else _] => destruct b
         end; reflexivity.
Qed.

Lemma classify_error_temporary (e : ErrorObject) :
  isTemporary (classify_error e) = canRetry (classify_error e).
Proof.
  unfold classify_error.
  destruct (message_includes (message e) "net::ERR_");
    [apply handleChromeNetworkError_temporary|].
  repeat match goal with
         | |- context [if ?b then _ else _] => destruct b
         end; reflexivity.
Qed.

(** X4. Given an error object, [handle] returns a classification
    whatever the object and the response hold, and in every
    classification [isTemporary] equals [canRetry]. *)
Theorem handle_temporary_iff_retryable (e : ErrorObject) (response : option Z) :
  exists r,
    handle (Some e) response = Js.Return r /\
    isTemporary r = canRetry r.
Proof.
  unfold handle.
  destruct (Js.or _ _); simpl; eexists; (split; [reflexivity|]);
    auto using classify_error_temporary, handleHttpStatus_temporary.
Qed.

(** X5. An error whose [status] and [code] are not numbers is classified
    by its message, name and code: the result is non-retryable only for a
    DNS failure ([ERR_NAME_NOT_RESOLVED] in the message, or the code
    [ENOTFOUND]) or a certificate failure ([ERR_CERT_] in the message),
    and the HTTP status it carries, if any, is one of the synthetic 404,
    408, 502 and 503. *)
Theorem thrown_error_non_retryable_only_for_dns_and_certificates (e : ErrorObject) :
  (forall n, status e <> Js.VNumber n) ->
  (forall n, code e <> Js.VNumber n) ->
  handle (Some e) None = Js.Return (classify_error e) /\
  (canRetry (classify_error e) = false ->
   message_includes (message e) "ERR_NAME_NOT_RESOLVED" = true \/
   message_includes (message e) "ERR_CERT_" = true \/
   val_is_string (code e) "ENOTFOUND" = true) /\
  In (httpStatus (classify_error e)) [None; Some 404; Some 408; Some 502; Some 503].
Proof.
  intros Hs Hc. split; [|split].
  - unfold handle, Js.or, optional_chain; simpl.
    destruct (status e) as [|n|s] eqn:Es; [|destruct (Hs n eq_refl)|];
      destruct (code e) as [|m|t] eqn:Ec; try (destruct (Hc m eq_refl));
      simpl; try reflexivity;
      repeat match goal with
             | |- context [if ?b then _ else _] => destruct b
             end; reflexivity.
  - unfold classify_error, handleChromeNetworkError.
    destruct (message e) as [m|]; simpl.
    + repeat match goal with
             | |- context [if ?b then _ else _] => destruct b eqn:?
             end; simpl; intros; try discriminate; auto.
    + repeat match goal with
             | |- context [if ?b then _ else _] => destruct b eqn:?
             end; simpl; intros; try discriminate; auto.
  - unfold classify_error, handleChromeNetworkError.
    repeat match goal with
           | |- context [if ?b then _ else _] => destruct b
           end; simpl; auto 10.
Qed.

Lemma thrown_error_non_retryable_only_for_dns_and_certificates_witness :
  handle (Some (Error "net::ERR_NAME_NOT_RESOLVED at https://no.such.host")) None
  = Js.Return (mkResult false "DNS resolution failed" (Some 404) false).
Proof.
  destruct (thrown_error_non_retryable_only_for_dns_and_certificates
              (Error "net::ERR_NAME_NOT_RESOLVED at https://no.such.host"))
    as (H & _); [discriminate|discriminate|].
  exact H.
Defined.

End ClassifierMore.

Section ScraperMore.

Import HttpErrorHandler ScraperService.

Variable MAX_RETRIES : Z.
Variable sha256_hex : string -> string.
Variable byteLength : string -> Z.
Variable now elapsed : Z.

(** What the consumer hands to the broker, by the outcome of the
    page. *)
Lemma consume_shape (request : ScrapeRequest.t) (page : PageOutcome) :
  exists m,
    consume MAX_RETRIES sha256_hex byteLength now elapsed request page
    = [ (SCRAPE_STARTED, MsgStarted (startedNotification now request)); m ] /\
    match page with
    | Response s finalUrl chain body ctype =>
        if 400 <=? s
        then exists msg retryable http,
               m = (SCRAPE_FAILURES,
                    MsgFailure (createFailure MAX_RETRIES now request msg retryable http))
        else m = (SCRAPE_RESULTS,
                  MsgResult
                    (ScrapeResult.mk (ScrapeRequest.id request) (ScrapeRequest.url request)
                       true (Some body) (Some (Js.or_string ctype "text/html"))
                       (Some s) None (Some finalUrl) elapsed (byteLength body)
                       (Some (sha256_hex body)) userAgent (Some chain) now))
    | CloseThrown e =>
        m = (SCRAPE_FAILURES,
             MsgFailure (createFailure MAX_RETRIES now request
                           ("Processing error: " +:+
                            match message e with Some t => t | None => "undefined" end)
                           true None))
    | _ =>
        exists msg retryable http,
          m = (SCRAPE_FAILURES,
               MsgFailure (createFailure MAX_RETRIES now request msg retryable http))
    end.
Proof.
  destruct page as [e| |s finalUrl chain body ctype|e].
  - destruct (handle_object_returns e None) as [r Hr].
    unfold consume, scrapeUrl, scrapeUrl_try, scrapeUrl_catch. rewrite Hr. simpl.
    eexists. split; [reflexivity|]. eauto.
  - unfold consume, scrapeUrl. simpl. eexists. split; [reflexivity|]. eauto.
  - unfold consume, scrapeUrl, scrapeUrl_try.
    destruct (400 <=? s) eqn:Hs.
    + rewrite handle_null_throws. simpl. eexists. split; [reflexivity|]. eauto.
    + simpl. eexists. split; reflexivity.
  - unfold consume, scrapeUrl. eexists. split; reflexivity.
Qed.

(** X6. [scrapeUrl] throws only when [page.close()] throws in its
    [finally] block; otherwise it returns a success result exactly when
    there is a response with a status below 400, and else a failure.
    Whatever [scrapeUrl] does, the consumer hands to the broker the
    started notification and then one message: the success result on the
    results queue, or, on the failures queue, the failure [scrapeUrl]
    returned or the processing error it builds from the exception.  The
    failure is for the record of the request, carries its retry count,
    and is marked retryable only below the retry limit. *)
Theorem scrapeUrl_always_reports (request : ScrapeRequest.t) (page : PageOutcome) :
  match scrapeUrl MAX_RETRIES sha256_hex byteLength now elapsed request page with
  | Js.Throw e =>
      page = CloseThrown e /\
      consume MAX_RETRIES sha256_hex byteLength now elapsed request page
      = [ (SCRAPE_STARTED, MsgStarted (startedNotification now request));
          (SCRAPE_FAILURES,
           MsgFailure (createFailure MAX_RETRIES now request
                         ("Processing error: " +:+
                          match message e with Some t => t | None => "undefined" end)
                         true None)) ]
  | Js.Return (inl result) =>
      (exists s finalUrl chain body ctype,
          page = Response s finalUrl chain body ctype /\ s < 400 /\
          ScrapeResult.content result = Some body /\
          ScrapeResult.contentHash result = Some (sha256_hex body) /\
          ScrapeResult.httpStatus result = Some s) /\
      ScrapeResult.success result = true /\
      ScrapeResult.id result = ScrapeRequest.id request /\
      ScrapeResult.url result = ScrapeRequest.url request /\
      consume MAX_RETRIES sha256_hex byteLength now elapsed request page
      = [ (SCRAPE_STARTED, MsgStarted (startedNotification now request));
          (SCRAPE_RESULTS, MsgResult result) ]
  | Js.Return (inr failure) =>
      match page with
      | Response s _ _ _ _ => 400 <= s
      | CloseThrown _ => False
      | _ => True
      end /\
      consume MAX_RETRIES sha256_hex byteLength now elapsed request page
      = [ (SCRAPE_STARTED, MsgStarted (startedNotification now request));
          (SCRAPE_FAILURES, MsgFailure failure) ]
  end /\
  exists m,
    consume MAX_RETRIES sha256_hex byteLength now elapsed request page
    = [ (SCRAPE_STARTED, MsgStarted (startedNotification now request)); m ] /\
    ((exists result,
         m = (SCRAPE_RESULTS, MsgResult result) /\
         ScrapeResult.success result = true /\
         ScrapeResult.id result = ScrapeRequest.id request) \/
     (exists failure,
         m = (SCRAPE_FAILURES, MsgFailure failure) /\
         ScrapeFailure.id failure = ScrapeRequest.id request /\
         ScrapeFailure.url failure = ScrapeRequest.url request /\
         ScrapeFailure.retryCount failure = retryCount_or_0 request /\
         ScrapeFailure.maxRetries failure = MAX_RETRIES /\
         (ScrapeFailure.canRetry failure = true ->
          ScrapeFailure.retryCount failure < MAX_RETRIES))).
Proof.
  assert (Hguard : forall msg b http,
             ScrapeFailure.canRetry (createFailure MAX_RETRIES now request msg b http) = true ->
             ScrapeFailure.retryCount (createFailure MAX_RETRIES now request msg b http)
             < MAX_RETRIES).
  { intros msg b http. simpl. intros [_ H]%andb_true_iff. now apply Z.ltb_lt. }
  split.
  - destruct page as [e| |s finalUrl chain body ctype|e].
    + destruct (handle_object_returns e None) as [r Hr].
      unfold consume, scrapeUrl, scrapeUrl_try, scrapeUrl_catch. rewrite Hr. simpl.
      split; [exact I|reflexivity].
    + unfold consume, scrapeUrl. simpl. split; [exact I|reflexivity].
    + unfold consume, scrapeUrl, scrapeUrl_try.
      destruct (Z.leb_spec 400 s) as [Hs|Hs].
      * rewrite handle_null_throws. simpl. split; [exact Hs|reflexivity].
      * simpl. repeat split. exists s, finalUrl, chain, body, ctype. repeat split.
        exact Hs.
    + unfold consume, scrapeUrl. split; reflexivity.
  - destruct (consume_shape request page) as (m & Hm & Hshape).
    exists m. split; [exact Hm|].
    destruct page as [e| |s finalUrl chain body ctype|e].
    + destruct Hshape as (msg & c & http & ->). right. eexists. split; [reflexivity|].
      repeat split. apply Hguard.
    + destruct Hshape as (msg & c & http & ->). right. eexists. split; [reflexivity|].
      repeat split. apply Hguard.
    + destruct (400 <=? s).
      * destruct Hshape as (msg & c & http & ->). right. eexists.
        split; [reflexivity|]. repeat split. apply Hguard.
      * rewrite Hshape. left. eexists. split; [reflexivity|]. split; reflexivity.
    + rewrite Hshape. right. eexists. split; [reflexivity|]. repeat split.
      apply Hguard.
Qed.

End ScraperMore.

(** ** The repository's queries *)

Section RepositoryQueries.

Import UrlFetchRequest UrlFetchRequestRepository.

Lemma newer_chain (x d b : UrlFetchRequest.t) :
  newer d b = true -> newer x b = false -> newer x d = false.
Proof.
  unfold newer.
  destruct (num x createdAt), (num d createdAt), (num b createdAt);
    intros H1 H2; try discriminate; try reflexivity.
  apply Z.ltb_lt in H1. apply Z.ltb_ge in H2. apply Z.ltb_ge. lia.
Qed.

Lemma newer_irrefl (d : UrlFetchRequest.t) : newer d d = false.
Proof. unfold newer. destruct (num d createdAt); [apply Z.ltb_irrefl|reflexivity]. Qed.

Lemma newer_asym (a b : UrlFetchRequest.t) : newer a b = true -> newer b a = false.
Proof.
  unfold newer. destruct (num a createdAt), (num b createdAt);
    intros H; try discriminate; try reflexivity.
  apply Z.ltb_lt in H. apply Z.ltb_ge. lia.
Qed.

(** The fold of [newest], started from a best document so far. *)
Lemma newest_from (l : list UrlFetchRequest.t) (b : UrlFetchRequest.t) :
  exists r,
    fold_left (fun best d =>
                 match best with
                 | Some b => if newer d b then Some d else Some b
                 | None => Some d
                 end) l (Some b) = Some r /\
    (r = b \/ r ∈ l) /\
    newer b r = false /\
    forall x, x ∈ l -> newer x r = false.
Proof.
  revert b. induction l as [|d l IH]; intros b; simpl.
  - exists b. repeat split; [now left|apply newer_irrefl|]. intros x Hx. inversion Hx.
  - destruct (newer d b) eqn:Hdb.
    + destruct (IH d) as (r & Hr & Hin & Hd & Hmax).
      exists r. split; [exact Hr|]. split; [|split].
      * right. destruct Hin as [->|Hin]; [left|now right].
      * destruct (newer b r) eqn:Hbr; [|reflexivity].
        pose proof (newer_chain d b r Hbr Hd) as H. congruence.
      * intros x [->|Hx]%elem_of_cons; [exact Hd|now apply Hmax].
    + destruct (IH b) as (r & Hr & Hin & Hb & Hmax).
      exists r. split; [exact Hr|]. split; [|split].
      * destruct Hin as [->|Hin]; [now left|right; now right].
      * exact Hb.
      * intros x [->|Hx]%elem_of_cons; [|now apply Hmax].
        clear - Hdb Hb. unfold newer in *.
        destruct (num d createdAt), (num b createdAt), (num r createdAt);
          try discriminate; try reflexivity.
        apply Z.ltb_ge in Hb, Hdb. apply Z.ltb_ge. lia.
Qed.

Lemma newest_spec (l : list UrlFetchRequest.t) :
  match newest l with
  | Some r => r ∈ l /\ forall x, x ∈ l -> newer x r = false
  | None => l = []
  end.
Proof.
  unfold newest. destruct l as [|d l]; [reflexivity|]. simpl.
  destruct (newest_from l d) as (r & Hr & Hin & Hd & Hmax).
  rewrite Hr. split.
  - destruct Hin as [->|Hin]; [left|now right].
  - intros x [->|Hx]%elem_of_cons; [exact Hd|now apply Hmax].
Qed.

Lemma elem_of_stored (P : UrlFetchRequest.t -> bool) (c : Collection)
    (d : UrlFetchRequest.t) :
  d ∈ filter (fun d => P d = true) (snd <$> map_to_list (docs c)) <->
  P d = true /\ exists id, docs c !! id = Some d.
Proof.
  rewrite list_elem_of_filter, list_elem_of_fmap. split.
  - intros (HP & [id d'] & -> & Hin). split; [exact HP|].
    exists id. now apply elem_of_map_to_list.
  - intros (HP & id & Hid). split; [exact HP|].
    exists (id, d). split; [reflexivity|]. now apply elem_of_map_to_list.
Qed.

Lemma recent_filter_true (variations : list string) (cutoffTime : Z)
    (d : UrlFetchRequest.t) :
  recent_filter variations cutoffTime d = true ->
  (FetchStatus_eqb (status d) SUCCESS = true /\
   gte (num d fetchedAt) cutoffTime = true) \/
  (FetchStatus_eqb (status d) PENDING || FetchStatus_eqb (status d) PROCESSING = true /\
   gte (num d createdAt) cutoffTime = true).
Proof.
  unfold recent_filter.
  repeat (rewrite ?orb_true_iff, ?andb_true_iff). tauto.
Qed.

Lemma gte_true (v : option Z) (cutoff : Z) :
  gte v cutoff = true -> exists t, v = Some t /\ cutoff <= t.
Proof.
  destruct v as [t|]; [|discriminate]. simpl. intros H%Z.leb_le. eauto.
Qed.

Variable platform_URL : string -> option URL.t.

(** What [getRecentByUrl] returns is stored, passes the filter and is
    among the newest of the records that pass. *)
Lemma getRecentByUrl_some (now : Z) (url : string) (minutesAgo : Z)
    (c : Collection) (r : UrlFetchRequest.t) :
  getRecentByUrl platform_URL now url minutesAgo c = Some r ->
  (exists id, docs c !! id = Some r) /\
  recent_filter (urlVariations platform_URL url) (now - minutesAgo * 60 * 1000) r = true /\
  (forall id d,
      docs c !! id = Some d ->
      recent_filter (urlVariations platform_URL url) (now - minutesAgo * 60 * 1000) d = true ->
      newer d r = false).
Proof.
  unfold getRecentByUrl. intros Hr.
  pose proof (newest_spec
                (filter (fun d => recent_filter (urlVariations platform_URL url)
                                    (now - minutesAgo * 60 * 1000) d = true)
                        (snd <$> map_to_list (docs c)))) as Hspec.
  rewrite Hr in Hspec. destruct Hspec as [Hin Hmax].
  apply elem_of_stored in Hin as [Hp Hstored].
  split; [exact Hstored|]. split; [exact Hp|].
  intros id d Hd Hpd. apply Hmax. apply elem_of_stored. eauto.
Qed.

Lemma getRecentByUrl_none (now : Z) (url : string) (minutesAgo : Z)
    (c : Collection) (id : string) (d : UrlFetchRequest.t) :
  getRecentByUrl platform_URL now url minutesAgo c = None ->
  docs c !! id = Some d ->
  recent_filter (urlVariations platform_URL url) (now - minutesAgo * 60 * 1000) d = false.
Proof.
  unfold getRecentByUrl. intros Hr Hd.
  pose proof (newest_spec
                (filter (fun d => recent_filter (urlVariations platform_URL url)
                                    (now - minutesAgo * 60 * 1000) d = true)
                        (snd <$> map_to_list (docs c)))) as Hspec.
  rewrite Hr in Hspec.
  destruct (recent_filter _ _ d) eqn:Hpd; [|reflexivity].
  assert (Hin : d ∈ filter (fun d => recent_filter (urlVariations platform_URL url)
                                       (now - minutesAgo * 60 * 1000) d = true)
                           (snd <$> map_to_list (docs c)))
    by (apply elem_of_stored; eauto).
  rewrite Hspec in Hin. inversion Hin.
Qed.

(** The status of a record that passes the filter. *)
Lemma recent_filter_status (variations : list string) (cutoffTime : Z)
    (d : UrlFetchRequest.t) :
  recent_filter variations cutoffTime d = true ->
  (status d = SUCCESS /\
   exists t, num d fetchedAt = Some t /\ cutoffTime <= t) \/
  ((status d = PENDING \/ status d = PROCESSING) /\
   exists t, num d createdAt = Some t /\ cutoffTime <= t).
Proof.
  intros [[Hs Ht]|[Hs Ht]]%recent_filter_true.
  - left. split; [destruct (status d); (discriminate || reflexivity)|].
    now apply gte_true.
  - right. split; [|now apply gte_true].
    destruct (status d); try discriminate; auto.
Qed.

(** X7. [getRecentByUrl] returns a stored record that passes the filter
    of the query (a SUCCESS fetched within the window, or a PENDING or
    PROCESSING record created within the window; never a FAILED one), and
    none of the stored records that pass the filter was created later; it
    returns nothing exactly when no stored record passes the filter. *)
Theorem getRecentByUrl_newest_match (now : Z) (url : string) (minutesAgo : Z)
    (c : Collection) :
  let cutoffTime := now - minutesAgo * 60 * 1000 in
  let passes := recent_filter (urlVariations platform_URL url) cutoffTime in
  match getRecentByUrl platform_URL now url minutesAgo c with
  | Some r =>
      (exists id, docs c !! id = Some r) /\
      passes r = true /\
      ((status r = SUCCESS /\
        exists t, num r fetchedAt = Some t /\ cutoffTime <= t) \/
       ((status r = PENDING \/ status r = PROCESSING) /\
        exists t, num r createdAt = Some t /\ cutoffTime <= t)) /\
      (forall id d, docs c !! id = Some d -> passes d = true -> newer d r = false)
  | None =>
      forall id d, docs c !! id = Some d -> passes d = false
  end.
Proof.
  intros cutoffTime passes.
  destruct (getRecentByUrl platform_URL now url minutesAgo c) as [r|] eqn:Hr.
  - destruct (getRecentByUrl_some _ _ _ _ _ Hr) as (Hstored & Hp & Hmax).
    split; [exact Hstored|]. split; [exact Hp|]. split; [|exact Hmax].
    exact (recent_filter_status _ _ _ Hp).
  - intros id d Hd. exact (getRecentByUrl_none _ _ _ _ _ _ Hr Hd).
Qed.

End RepositoryQueries.

Section RepositoryHistory.

Import UrlFetchRequest UrlFetchRequestRepository.

Lemma fetched_order_total : Total fetched_order.
Proof.
  intros a b. unfold fetched_order, fetched_not_before.
  destruct (num a.2 fetchedAt) as [x|], (num b.2 fetchedAt) as [y|]; auto.
  destruct (Z.leb_spec y x); [now left|right]. apply Z.leb_le. lia.
Qed.

Lemma fetched_order_trans : Transitive fetched_order.
Proof.
  intros a b c. unfold fetched_order, fetched_not_before.
  destruct (num a.2 fetchedAt) as [x|], (num b.2 fetchedAt) as [y|],
    (num c.2 fetchedAt) as [z|]; try discriminate; auto.
  intros H1%Z.leb_le H2%Z.leb_le. apply Z.leb_le. lia.
Qed.

Lemma elem_of_stored_pairs (P : UrlFetchRequest.t -> bool) (c : Collection)
    (id : string) (d : UrlFetchRequest.t) :
  (id, d) ∈ filter (fun p => P p.2 = true) (map_to_list (docs c)) <->
  docs c !! id = Some d /\ P d = true.
Proof.
  rewrite list_elem_of_filter, elem_of_map_to_list. simpl. tauto.
Qed.

Lemma stored_pairs_NoDup (P : UrlFetchRequest.t -> bool) (c : Collection) :
  NoDup (filter (fun p => P p.2 = true) (map_to_list (docs c))).
Proof. apply NoDup_filter, NoDup_map_to_list. Qed.

Lemma head_of_sorted {A} (R : A -> A -> Prop) `{!Reflexive R} (l : list A) (x : A) :
  StronglySorted R l -> head l = Some x -> forall y, y ∈ l -> R x y.
Proof.
  intros Hs Hh y Hy. destruct l as [|a l]; [discriminate|].
  injection Hh as ->. inversion Hs as [|? ? _ Hall]; subst.
  apply elem_of_cons in Hy as [->|Hy]; [reflexivity|].
  rewrite Forall_forall in Hall. now apply Hall.
Qed.

Lemma fetched_order_refl : Reflexive fetched_order.
Proof.
  intros a. unfold fetched_order, fetched_not_before.
  destruct (num a.2 fetchedAt); [apply Z.leb_refl|reflexivity].
Qed.

Variable platform_URL : string -> option URL.t.

(** X8. [getUrlHistory] lists exactly the stored records whose URL is one
    of the variations of the queried URL, each of them once, ordered by
    fetch time with the latest first and the records never fetched last;
    a record stored under the canonical form of the queried URL is always
    in the list. *)
Theorem getUrlHistory_lists_the_matches (url : string) (c : Collection) :
  (forall id d,
      (id, d) ∈ getUrlHistory platform_URL url c <->
      docs c !! id = Some d /\ url_matches platform_URL url d = true) /\
  NoDup (getUrlHistory platform_URL url c) /\
  StronglySorted fetched_order (getUrlHistory platform_URL url c) /\
  (forall id d,
      docs c !! id = Some d ->
      UrlFetchRequest.url d = UrlNormalizer.getCanonicalUrl platform_URL url ->
      (id, d) ∈ getUrlHistory platform_URL url c).
Proof.
  unfold getUrlHistory.
  assert (Hmem : forall id d,
             (id, d) ∈ merge_sort fetched_order
               (filter (fun p => url_matches platform_URL url p.2 = true)
                       (map_to_list (docs c))) <->
             docs c !! id = Some d /\ url_matches platform_URL url d = true).
  { intros id d. rewrite merge_sort_Permutation. apply elem_of_stored_pairs. }
  split; [exact Hmem|]. split; [|split].
  - rewrite merge_sort_Permutation. apply stored_pairs_NoDup.
  - pose proof fetched_order_total. pose proof fetched_order_trans.
    apply StronglySorted_merge_sort; apply _.
  - intros id d Hd Hu. apply Hmem. split; [exact Hd|].
    unfold url_matches, urlVariations, string_in. simpl.
    rewrite Hu, String.eqb_refl. apply orb_true_r.
Qed.

(** X9. [findLatestByUrl] returns a stored SUCCESS record whose URL is a
    variation of the queried URL and whose fetch time is not before that
    of any other such record; it returns nothing exactly when there is no
    such record. *)
Theorem findLatestByUrl_latest_success (url : string) (c : Collection) :
  match findLatestByUrl platform_URL url c with
  | Some (id, d) =>
      docs c !! id = Some d /\
      url_matches platform_URL url d = true /\
      status d = SUCCESS /\
      forall id' d',
        docs c !! id' = Some d' -> url_matches platform_URL url d' = true ->
        status d' = SUCCESS ->
        fetched_not_before (id, d) (id', d') = true
  | None =>
      forall id' d',
        docs c !! id' = Some d' -> url_matches platform_URL url d' = true ->
        status d' <> SUCCESS
  end.
Proof.
  unfold findLatestByUrl.
  set (P := fun d => url_matches platform_URL url d
                     && FetchStatus_eqb (status d) SUCCESS).
  set (l := merge_sort fetched_order
              (filter (fun p => url_matches platform_URL url p.2
                                && FetchStatus_eqb (status p.2) SUCCESS = true)
                      (map_to_list (docs c)))).
  assert (Hmem : forall id d, (id, d) ∈ l <-> docs c !! id = Some d /\ P d = true).
  { intros id d. unfold l. rewrite merge_sort_Permutation.
    apply (elem_of_stored_pairs P). }
  assert (HP : forall d, P d = true <->
                         url_matches platform_URL url d = true /\ status d = SUCCESS).
  { intros d. unfold P. rewrite andb_true_iff.
    destruct (status d); simpl; intuition (discriminate || auto). }
  assert (Hsorted : StronglySorted fetched_order l).
  { pose proof fetched_order_total. pose proof fetched_order_trans.
    apply StronglySorted_merge_sort; apply _. }
  destruct (head l) as [[id d]|] eqn:Hhead.
  - assert (Hin : (id, d) ∈ l) by (destruct l; [discriminate|injection Hhead as <-; left]).
    apply Hmem in Hin as [Hd Hpd]. apply HP in Hpd as [Hu Hs].
    repeat split; try assumption.
    intros id' d' Hd' Hu' Hs'.
    pose proof fetched_order_refl.
    apply (head_of_sorted fetched_order l (id, d) Hsorted Hhead).
    apply Hmem. split; [exact Hd'|]. apply HP. auto.
  - intros id' d' Hd' Hu' Hs'.
    assert (Hin : (id', d') ∈ l) by (apply Hmem; split; [exact Hd'|apply HP; auto]).
    destruct l; [inversion Hin|discriminate].
Qed.

End RepositoryHistory.

(** ** Submission *)

Section Submission.

Import UrlFetchRequest UrlFetchRequestRepository UrlContentService.

Variable platform_URL : string -> option URL.t.
Variable scrapeInterval : Z.

Lemma id_of_inj (n m : N) : id_of n = id_of m -> n = m.
Proof.
  unfold id_of. intros H.
  rewrite <- (decimal_value_string_of_N n), <- (decimal_value_string_of_N m).
  now rewrite H.
Qed.

Lemma well_formed_fresh (c : Collection) :
  well_formed c -> docs c !! id_of (next_id c) = None.
Proof.
  intros Hwf. destruct (docs c !! id_of (next_id c)) eqn:H; [|reflexivity].
  destruct (Hwf _ (mk_is_Some _ _ H)) as (n & Hn & He).
  apply id_of_inj in He. lia.
Qed.

Lemma well_formed_insert_next (c : Collection) (d : UrlFetchRequest.t) :
  well_formed c ->
  well_formed (mkCollection (<[id_of (next_id c) := d]> (docs c)) (N.succ (next_id c))).
Proof.
  intros Hwf id. simpl. intros His.
  destruct (decide (id = id_of (next_id c))) as [->|Hne].
  - exists (next_id c). split; [lia|reflexivity].
  - rewrite lookup_insert_ne in His by congruence.
    destruct (Hwf _ His) as (n & Hn & He). exists n. split; [lia|exact He].
Qed.

Lemma well_formed_update (id : string) (data : Partial) (c : Collection) :
  well_formed c -> well_formed (update id data c).2.
Proof.
  intros Hwf. unfold update. destruct (docs c !! id) eqn:Hid; [|exact Hwf].
  intros id' His. simpl in His.
  destruct (decide (id' = id)) as [->|Hne].
  - apply Hwf. rewrite Hid. eauto.
  - rewrite lookup_insert_ne in His by congruence. now apply Hwf.
Qed.

Lemma fold_left_invariant {A B} (f : A -> B -> A) (I : A -> Prop) (l : list B) (a : A) :
  I a -> (forall a b, b ∈ l -> I a -> I (f a b)) -> I (fold_left f l a).
Proof.
  revert a. induction l as [|b l IH]; intros a Ha Hstep; [exact Ha|].
  simpl. apply IH.
  - apply Hstep; [left|exact Ha].
  - intros a' b' Hb'. apply Hstep. now right.
Qed.

(** The two ways an iteration of [submitUrls] ends when nothing throws. *)
Lemma submitUrl_skips (now : Z) (r : SubmitUrlsResponseDto) (st : State)
    (url : string) (recent : UrlFetchRequest.t) :
  getRecentByUrl platform_URL now url scrapeInterval (repository st) = Some recent ->
  submitUrl platform_URL scrapeInterval now (r, st) url
  = (mkResponse (submitted r)
       (skipped r ++
        [skip platform_URL scrapeInterval url
           (UrlNormalizer.getCanonicalUrl platform_URL url) recent])
       (queued r),
     st).
Proof. intros H. unfold submitUrl. rewrite H. reflexivity. Qed.

Lemma submitUrl_queues (now : Z) (r : SubmitUrlsResponseDto) (st : State)
    (url : string) :
  getRecentByUrl platform_URL now url scrapeInterval (repository st) = None ->
  submitUrl platform_URL scrapeInterval now (r, st) url
  = (mkResponse (submitted r ++ [url]) (skipped r)
       (queued r ++ [id_of (next_id (repository st))]),
     mkState
       (mkCollection
          (<[id_of (next_id (repository st)) :=
               apply_update (fresh now)
                 [set_url (UrlNormalizer.getCanonicalUrl platform_URL url);
                  set_status PENDING; set_retryCount 0]]>
             (docs (repository st)))
          (N.succ (next_id (repository st))))
       (published st ++
        [(SCRAPE_REQUESTS,
          MsgRequest
            (ScrapeRequest.mk (id_of (next_id (repository st)))
               (UrlNormalizer.getCanonicalUrl platform_URL url)
               None None (Some 0) (Some 1)))])).
Proof. intros H. unfold submitUrl. rewrite H. reflexivity. Qed.

(** An iteration that meets no fault is the iteration in which nothing
    throws. *)
Lemma submitUrl_or_catch_no_fault (now : Z) (acc : SubmitUrlsResponseDto * State)
    (url : string) :
  submitUrl_or_catch platform_URL scrapeInterval now acc (url, None)
  = submitUrl platform_URL scrapeInterval now acc url.
Proof.
  destruct acc as [r st]. unfold submitUrl_or_catch, submitUrl.
  destruct (getRecentByUrl _ _ _ _ _); reflexivity.
Qed.

Lemma submitUrls_or_catch_no_fault (now : Z) (urls : list string) (st : State) :
  submitUrls_or_catch platform_URL scrapeInterval now ((fun url => (url, None)) <$> urls) st
  = submitUrls platform_URL scrapeInterval now urls st.
Proof.
  unfold submitUrls_or_catch, submitUrls.
  generalize (mkResponse [] [] [], st). induction urls as [|url urls IH]; intros acc;
    [reflexivity|].
  simpl. rewrite submitUrl_or_catch_no_fault. apply IH.
Qed.

(** The ways an iteration of [submitUrls] ends. *)
Lemma submitUrl_or_catch_cases (now : Z) (r : SubmitUrlsResponseDto) (st : State)
    (url : string) (fault : option SubmitFault) :
  let recent := getRecentByUrl platform_URL now url scrapeInterval (repository st) in
  let canonicalUrl := UrlNormalizer.getCanonicalUrl platform_URL url in
  let id := id_of (next_id (repository st)) in
  let created :=
    mkCollection
      (<[id := apply_update (fresh now)
                 [set_url canonicalUrl; set_status PENDING; set_retryCount 0]]>
         (docs (repository st)))
      (N.succ (next_id (repository st))) in
  let result := submitUrl_or_catch platform_URL scrapeInterval now (r, st) (url, fault) in
  (exists error,
      (fault = Some (getRecentByUrl_throws error) \/
       fault = Some (create_throws error) /\ recent = None) /\
      result
      = (mkResponse (submitted r) (skipped r ++ [processing_error url error]) (queued r),
         st)) \/
  (exists error,
      fault = Some (publish_throws error) /\ recent = None /\
      result
      = (mkResponse (submitted r) (skipped r ++ [processing_error url error]) (queued r),
         mkState created (published st))) \/
  (exists recentRequest,
      recent = Some recentRequest /\
      result
      = (mkResponse (submitted r)
           (skipped r ++ [skip platform_URL scrapeInterval url canonicalUrl recentRequest])
           (queued r),
         st)) \/
  (recent = None /\
   result
   = (mkResponse (submitted r ++ [url]) (skipped r) (queued r ++ [id]),
      mkState created
        (published st ++
         [(SCRAPE_REQUESTS,
           MsgRequest (ScrapeRequest.mk id canonicalUrl None None (Some 0) (Some 1)))]))).
Proof.
  intros recent canonicalUrl id created result.
  subst recent canonicalUrl id created result. unfold submitUrl_or_catch.
  destruct fault as [[error|error|error]|];
    destruct (getRecentByUrl platform_URL now url scrapeInterval (repository st))
      as [recentRequest|]; eauto 10.
Qed.

(** The entry written for a record that passes the filter of
    [getRecentByUrl]. *)
Lemma skip_of_recent (url canonicalUrl : string) (variations : list string)
    (cutoffTime : Z) (recent : UrlFetchRequest.t) :
  recent_filter variations cutoffTime recent = true ->
  let s := skip platform_URL scrapeInterval url canonicalUrl recent in
  skipped_url s = url /\
  ((exists fetched,
       status recent = SUCCESS /\
       UrlContentService.lastScrapedAt s = Some fetched /\
       nextAvailableAt s = Some (fetched + scrapeInterval * 60 * 1000) /\
       (reason s = "Successfully scraped within " +:+ Js.string_of_Z scrapeInterval
                   +:+ " minutes" \/
        reason s = "Already scraped via redirect (" +:+ UrlFetchRequest.url recent
                   +:+ " " +:+ arrow +:+ " redirects to this URL)")) \/
   (is_Some (UrlContentService.lastScrapedAt s) /\
    nextAvailableAt s = None /\
    (status recent = PENDING /\
     reason s = "Already queued for scraping (status: PENDING)" \/
     status recent = PROCESSING /\
     reason s = "Already queued for scraping (status: PROCESSING)"))).
Proof.
  intros Hp s. subst s.
  destruct (recent_filter_status _ _ _ Hp) as [[Hs (t & Ht & _)]|[Hs (t & Ht & _)]].
  - split; [unfold skip; rewrite Hs, Ht; reflexivity|].
    left. exists t. split; [exact Hs|].
    unfold skip. rewrite Hs, Ht. simpl.
    destruct (String.eqb _ _ || _); simpl; auto.
  - split; [unfold skip; destruct Hs as [-> | ->]; reflexivity|].
    right. unfold skip.
    destruct Hs as [Hs|Hs]; rewrite Hs; simpl;
      (split; [rewrite Ht; destruct (num recent fetchedAt); eauto|]);
      (split; [reflexivity|]); auto.
Qed.


(** X10. Every entry of [skipped] that [submitUrls] returns is of one of
    four kinds.  Three are written for a recent record and carry a
    last-scraped time: the two reasons of a recent success, with the
    time the URL is available again, and the reason of a request that is
    PENDING or PROCESSING, without such a time.  The fourth is written by
    the [catch] block when a call of the iteration throws: the reason
    [Processing error:] with the message of the exception, without a
    last-scraped time.  The reason [Recent request exists with status],
    which the source holds as well, is never given. *)
Theorem submitUrls_skip_reasons (now : Z) (batch : list (string * option SubmitFault))
    (st : State) :
  Forall
    (fun s =>
       (exists fetched,
           UrlContentService.lastScrapedAt s = Some fetched /\
           nextAvailableAt s = Some (fetched + scrapeInterval * 60 * 1000) /\
           (reason s = "Successfully scraped within " +:+ Js.string_of_Z scrapeInterval
                       +:+ " minutes" \/
            exists u,
              reason s = "Already scraped via redirect (" +:+ u
                         +:+ " " +:+ arrow +:+ " redirects to this URL)")) \/
       (is_Some (UrlContentService.lastScrapedAt s) /\
        nextAvailableAt s = None /\
        (reason s = "Already queued for scraping (status: PENDING)" \/
         reason s = "Already queued for scraping (status: PROCESSING)")) \/
       (UrlContentService.lastScrapedAt s = None /\
        nextAvailableAt s = None /\
        exists url fault error,
          (url, Some fault) ∈ batch /\
          (fault = getRecentByUrl_throws error \/ fault = create_throws error \/
           fault = publish_throws error) /\
          skipped_url s = url /\
          reason s = "Processing error: " +:+
                     match HttpErrorHandler.message error with
                     | Some m => m
                     | None => "undefined"
                     end))
    (skipped (submitUrls_or_catch platform_URL scrapeInterval now batch st).1).
Proof.
  unfold submitUrls_or_catch.
  set (P := fun s : SkippedUrl => _ \/ _ \/ _).
  apply (fold_left_invariant (submitUrl_or_catch platform_URL scrapeInterval now)
           (fun acc => Forall P (skipped acc.1))).
  - constructor.
  - intros [r s] [url fault] Hin Hr. simpl in Hr.
    destruct (submitUrl_or_catch_cases now r s url fault)
      as [(error & Hf & ->)|[(error & Hf & _ & ->)|[(recent & Hrecent & ->)|[_ ->]]]];
      simpl; try exact Hr; apply Forall_app; (split; [exact Hr|]);
      (constructor; [|constructor]).
    + right. right. split; [reflexivity|]. split; [reflexivity|].
      destruct Hf as [Hf|[Hf _]]; subst fault;
        eexists url, _, error; (split; [exact Hin|]); auto.
    + right. right. split; [reflexivity|]. split; [reflexivity|].
      subst fault. eexists url, _, error. split; [exact Hin|]. auto.
    + destruct (getRecentByUrl_some _ _ _ _ _ _ Hrecent) as (_ & Hp & _).
      destruct (skip_of_recent url (UrlNormalizer.getCanonicalUrl platform_URL url)
                  _ _ _ Hp) as [_ [(f & _ & Hl & Hn & Hre)|(Hl & Hn & Hre)]].
      * left. exists f. split; [exact Hl|]. split; [exact Hn|].
        destruct Hre as [Hre|Hre]; [now left|right; eauto].
      * right. left. split; [exact Hl|]. split; [exact Hn|]. tauto.
Qed.



End Submission.

Section SubmissionStore.

Import UrlFetchRequest UrlFetchRequestRepository UrlContentService.

Variable platform_URL : string -> option URL.t.
Variable scrapeInterval : Z.

(** An iteration of [submitUrls] keeps the records there are. *)
Lemma submitUrl_keeps (now : Z) (r : SubmitUrlsResponseDto) (st : State) (url : string) :
  well_formed (repository st) ->
  well_formed (repository (submitUrl platform_URL scrapeInterval now (r, st) url).2) /\
  forall id d,
    docs (repository st) !! id = Some d ->
    docs (repository (submitUrl platform_URL scrapeInterval now (r, st) url).2) !! id
    = Some d.
Proof.
  intros Hwf.
  destruct (getRecentByUrl platform_URL now url scrapeInterval (repository st))
    as [recent|] eqn:Hrecent.
  - rewrite (submitUrl_skips _ _ _ _ _ _ _ Hrecent). simpl. auto.
  - rewrite (submitUrl_queues _ _ _ _ _ _ Hrecent). simpl. split.
    + now apply well_formed_insert_next.
    + intros id d Hd. rewrite lookup_insert_ne; [exact Hd|].
      intros <-. rewrite (well_formed_fresh _ Hwf) in Hd. discriminate.
Qed.

Lemma submitUrls_keeps (now : Z) (urls : list string) (r : SubmitUrlsResponseDto)
    (st : State) :
  well_formed (repository st) ->
  well_formed
    (repository (fold_left (submitUrl platform_URL scrapeInterval now) urls (r, st)).2) /\
  forall id d,
    docs (repository st) !! id = Some d ->
    docs (repository
            (fold_left (submitUrl platform_URL scrapeInterval now) urls (r, st)).2) !! id
    = Some d.
Proof.
  intros Hwf.
  apply (fold_left_invariant (submitUrl platform_URL scrapeInterval now)
           (fun acc => well_formed (repository acc.2) /\
                       forall id d, docs (repository st) !! id = Some d ->
                                    docs (repository acc.2) !! id = Some d)).
  - simpl. auto.
  - intros [r' st'] url _ [Hwf' Hkeep].
    destruct (submitUrl_keeps now r' st' url Hwf') as [Hwf'' Hkeep'].
    split; [exact Hwf''|]. intros id d Hd. apply Hkeep', Hkeep, Hd.
Qed.


(** A record just created for [url] passes the filter of
    [getRecentByUrl] for [url]. *)
Lemma new_record_is_recent (now : Z) (url : string) :
  0 <= scrapeInterval ->
  recent_filter (urlVariations platform_URL url) (now - scrapeInterval * 60 * 1000)
    (apply_update (fresh now)
       [set_url (UrlNormalizer.getCanonicalUrl platform_URL url);
        set_status PENDING; set_retryCount 0])
  = true.
Proof.
  intros Hn. unfold recent_filter, urlVariations, string_in. simpl.
  rewrite String.eqb_refl, orb_true_r. simpl.
  replace (_ <=? now) with true by (symmetry; apply Z.leb_le; lia).
  reflexivity.
Qed.

Lemma recent_is_found (now : Z) (url : string) (c : Collection) (id : string)
    (d : UrlFetchRequest.t) :
  docs c !! id = Some d ->
  recent_filter (urlVariations platform_URL url) (now - scrapeInterval * 60 * 1000) d
  = true ->
  is_Some (getRecentByUrl platform_URL now url scrapeInterval c).
Proof.
  intros Hd Hp.
  destruct (getRecentByUrl platform_URL now url scrapeInterval c) eqn:H; [eauto|].
  rewrite (getRecentByUrl_none _ _ _ _ _ _ _ H Hd) in Hp. discriminate.
Qed.

(** After the loop every URL of the batch has a recent record. *)
Lemma submitUrls_leaves_recent (now : Z) (urls : list string)
    (r : SubmitUrlsResponseDto) (st : State) :
  0 <= scrapeInterval ->
  well_formed (repository st) ->
  Forall
    (fun url =>
       exists id d,
         docs (repository
                 (fold_left (submitUrl platform_URL scrapeInterval now) urls (r, st)).2)
           !! id = Some d /\
         recent_filter (urlVariations platform_URL url)
           (now - scrapeInterval * 60 * 1000) d = true)
    urls.
Proof.
  intros Hn. revert r st. induction urls as [|url urls IH]; intros r st Hwf;
    [constructor|].
  cbn [fold_left].
  destruct (submitUrl_keeps now r st url Hwf) as [Hwf1 _].
  destruct (submitUrl platform_URL scrapeInterval now (r, st) url) as [r1 st1] eqn:Hstep.
  simpl in Hwf1. constructor; [|now apply IH].
  destruct (submitUrls_keeps now urls r1 st1 Hwf1) as [_ Hkeep].
  assert (H1 : exists id d,
             docs (repository st1) !! id = Some d /\
             recent_filter (urlVariations platform_URL url)
               (now - scrapeInterval * 60 * 1000) d = true).
  { destruct (getRecentByUrl platform_URL now url scrapeInterval (repository st))
      as [recent|] eqn:Hrecent.
    - rewrite (submitUrl_skips _ _ _ _ _ _ _ Hrecent) in Hstep.
      injection Hstep as _ <-.
      destruct (getRecentByUrl_some _ _ _ _ _ _ Hrecent) as ((id & Hid) & Hp & _).
      eauto.
    - rewrite (submitUrl_queues _ _ _ _ _ _ Hrecent) in Hstep.
      injection Hstep as _ <-. simpl.
      eexists _, _. split; [apply lookup_insert_eq|].
      now apply new_record_is_recent. }
  destruct H1 as (id & d & Hd & Hp). exists id, d. split; [|exact Hp].
  now apply Hkeep.
Qed.

(** When every URL has a recent record the loop skips them all. *)
Lemma submitUrls_all_recent (now : Z) (urls : list string)
    (r : SubmitUrlsResponseDto) (st : State) :
  Forall (fun url =>
            is_Some (getRecentByUrl platform_URL now url scrapeInterval (repository st)))
    urls ->
  exists skp,
    fold_left (submitUrl platform_URL scrapeInterval now) urls (r, st)
    = (mkResponse (submitted r) (skipped r ++ skp) (queued r), st) /\
    skipped_url <$> skp = urls.
Proof.
  revert r. induction urls as [|url urls IH]; intros r Hall.
  - exists []. rewrite app_nil_r. destruct r; split; reflexivity.
  - inversion Hall as [|? ? [recent Hrecent] Hrest]; subst.
    cbn [fold_left]. rewrite (submitUrl_skips _ _ _ _ _ _ _ Hrecent).
    destruct (IH (mkResponse (submitted r)
                    (skipped r ++
                     [skip platform_URL scrapeInterval url
                        (UrlNormalizer.getCanonicalUrl platform_URL url) recent])
                    (queued r)) Hrest) as (skp & Hfold & Hurls).
    exists (skip platform_URL scrapeInterval url
              (UrlNormalizer.getCanonicalUrl platform_URL url) recent :: skp).
    split.
    + rewrite Hfold. simpl. rewrite <- app_assoc. reflexivity.
    + rewrite fmap_cons, Hurls. f_equal.
      destruct (getRecentByUrl_some _ _ _ _ _ _ Hrecent) as (_ & Hp & _).
      now destruct (skip_of_recent platform_URL scrapeInterval url
                      (UrlNormalizer.getCanonicalUrl platform_URL url) _ _ _ Hp).
Qed.

(** X13. With a window that is not negative, a batch leaves a recent
    record for each of its URLs, so the same batch submitted again at the
    same time is skipped as a whole: nothing is submitted or queued, and
    neither the store nor the queue changes. *)
Theorem submitUrls_again_skips_all (now : Z) (urls : list string) (st : State) :
  well_formed (repository st) ->
  0 <= scrapeInterval ->
  let st1 := (submitUrls platform_URL scrapeInterval now urls st).2 in
  Forall (fun url =>
            is_Some (getRecentByUrl platform_URL now url scrapeInterval (repository st1)))
    urls /\
  exists skp,
    submitUrls platform_URL scrapeInterval now urls st1 = (mkResponse [] skp [], st1) /\
    skipped_url <$> skp = urls.
Proof.
  intros Hwf Hn st1.
  assert (Hall : Forall (fun url =>
                           is_Some (getRecentByUrl platform_URL now url scrapeInterval
                                      (repository st1))) urls).
  { subst st1. unfold submitUrls.
    eapply Forall_impl;
      [exact (submitUrls_leaves_recent now urls (mkResponse [] [] []) st Hn Hwf)|].
    intros url (id & d & Hd & Hp). exact (recent_is_found _ _ _ _ _ Hd Hp). }
  split; [exact Hall|].
  destruct (submitUrls_all_recent now urls (mkResponse [] [] []) st1 Hall)
    as (skp & Hfold & Hurls).
  exists skp. split; [exact Hfold|exact Hurls].
Qed.

End SubmissionStore.

Lemma well_formed_initial :
  well_formed (UrlContentService.repository UrlContentService.initial).
Proof. intros id [d Hd]. cbn in Hd. rewrite lookup_empty in Hd. discriminate. Qed.


(** The same batch, twice. *)
Lemma submitUrls_again_skips_all_witness :
  well_formed (UrlContentService.repository UrlContentService.initial) /\
  0 <= 60 /\
  let urls := ["example.com"; "https://www.example.com/"] in
  let st1 := (UrlContentService.submitUrls new_URL 60 1000 urls UrlContentService.initial).2 in
  Forall (fun url =>
            is_Some (UrlFetchRequestRepository.getRecentByUrl new_URL 1000 url 60
                       (UrlContentService.repository st1)))
    urls /\
  exists skp,
    UrlContentService.submitUrls new_URL 60 1000 urls st1
    = (UrlContentService.mkResponse [] skp [], st1) /\
    UrlContentService.skipped_url <$> skp = urls.
Proof.
  split; [exact well_formed_initial|]. split; [lia|].
  intros urls st1.
  apply (submitUrls_again_skips_all new_URL 60 1000 urls UrlContentService.initial);
    [exact well_formed_initial|lia].
Defined.

(** ** The consumers of the control plane *)

Section Consumers.

Import UrlFetchRequest UrlFetchRequestRepository UrlContentService.

Variable maxRetries : Z.

(** An update that writes neither [url] nor [createdAt] leaves both as
    they are. *)
Lemma apply_update_identity (data : Partial) (d : UrlFetchRequest.t) :
  Forall (fun a => match a with
                   | set_url _ | set_num createdAt _ => False
                   | _ => True
                   end) data ->
  UrlFetchRequest.url (apply_update d data) = UrlFetchRequest.url d /\
  num (apply_update d data) createdAt = num d createdAt.
Proof.
  unfold apply_update. revert d.
  induction data as [|a data IH]; intros d Hall; [split; reflexivity|].
  inversion Hall as [|? ? Ha Hrest]; subst. simpl.
  destruct (IH (assign d a) Hrest) as [-> ->].
  destruct a as [| | | |f [| |]|[] [| |]]; simpl; try contradiction; auto.
Qed.

(** What [update] does to the collection. *)
Lemma update_effect (id : string) (data : Partial) (c : Collection) :
  next_id (update id data c).2 = next_id c /\
  (forall id', id' <> id -> docs (update id data c).2 !! id' = docs c !! id') /\
  docs (update id data c).2 !! id = (fun d => apply_update d data) <$> docs c !! id /\
  (update id data c).1 = (fun d => apply_update d data) <$> docs c !! id /\
  (docs c !! id = None -> (update id data c).2 = c).
Proof.
  unfold update. destruct (docs c !! id) as [d|] eqn:Hd; simpl.
  - repeat split; try discriminate.
    + intros id' Hne. now apply lookup_insert_ne.
    + apply lookup_insert_eq.
  - repeat split; auto.
Qed.

Lemma update_same_ids (id : string) (data : Partial) (c : Collection) (id' : string) :
  is_Some (docs (update id data c).2 !! id') <-> is_Some (docs c !! id').
Proof.
  destruct (update_effect id data c) as (_ & Hne & Heq & _).
  destruct (decide (id' = id)) as [->|H].
  - rewrite Heq. rewrite fmap_is_Some. reflexivity.
  - rewrite (Hne _ H). reflexivity.
Qed.

Lemma update_keeps_identity (id : string) (data : Partial) (c : Collection)
    (id' : string) (d d' : UrlFetchRequest.t) :
  Forall (fun a => match a with
                   | set_url _ | set_num createdAt _ => False
                   | _ => True
                   end) data ->
  docs c !! id' = Some d ->
  docs (update id data c).2 !! id' = Some d' ->
  UrlFetchRequest.url d' = UrlFetchRequest.url d /\ num d' createdAt = num d createdAt.
Proof.
  intros Hsafe Hd Hd'.
  destruct (update_effect id data c) as (_ & Hne & Heq & _).
  destruct (decide (id' = id)) as [->|H].
  - rewrite Heq, Hd in Hd'. injection Hd' as <-. now apply apply_update_identity.
  - rewrite (Hne _ H), Hd in Hd'. injection Hd' as <-. auto.
Qed.

Lemma state_eta (st : State) : mkState (repository st) (published st) = st.
Proof. destruct st; reflexivity. Qed.

(** X14. A message consumed by the control plane touches at most the
    record it names: the other records and the identifier counter are as
    before, no record appears or disappears, no record changes its URL or
    its creation time, and a message that names no stored record changes
    nothing at all.  Nothing is published, except by a retryable failure
    below the limit, which publishes one request for the same record with
    the next retry count and priority 2. *)
Theorem deliver_touches_one_record (queue : QueueNames) (m : Message) (st : State) :
  let st' := deliver maxRetries queue m st in
  next_id (repository st') = next_id (repository st) /\
  (forall id, id <> message_id m ->
              docs (repository st') !! id = docs (repository st) !! id) /\
  (forall id, is_Some (docs (repository st') !! id) <->
              is_Some (docs (repository st) !! id)) /\
  (forall id d d',
      docs (repository st) !! id = Some d ->
      docs (repository st') !! id = Some d' ->
      UrlFetchRequest.url d' = UrlFetchRequest.url d /\
      num d' createdAt = num d createdAt) /\
  (docs (repository st) !! message_id m = None -> st' = st) /\
  (published st' = published st \/
   exists f,
     m = MsgFailure f /\
     ScrapeFailure.canRetry f = true /\
     ScrapeFailure.retryCount f < maxRetries /\
     is_Some (docs (repository st) !! ScrapeFailure.id f) /\
     published st'
     = published st ++
       [(SCRAPE_REQUESTS,
         MsgRequest (ScrapeRequest.mk (ScrapeFailure.id f) (ScrapeFailure.url f)
                       None None (Some (ScrapeFailure.retryCount f + 1)) (Some 2)))]).
Proof.
  assert (Hsame : forall st0 : State,
             next_id (repository st0) = next_id (repository st0) /\
             (forall id, id <> message_id m ->
                         docs (repository st0) !! id = docs (repository st0) !! id) /\
             (forall id, is_Some (docs (repository st0) !! id) <->
                         is_Some (docs (repository st0) !! id)) /\
             (forall id d d',
                 docs (repository st0) !! id = Some d ->
                 docs (repository st0) !! id = Some d' ->
                 UrlFetchRequest.url d' = UrlFetchRequest.url d /\
                 num d' createdAt = num d createdAt)).
  { intros st0. repeat split; auto; intros; congruence. }
  assert (Hupd : forall id data o c,
             id = message_id m ->
             Forall (fun a => match a with
                              | set_url _ | set_num createdAt _ => False
                              | _ => True
                              end) data ->
             update id data (repository st) = (o, c) ->
             next_id c = next_id (repository st) /\
             (forall id', id' <> message_id m ->
                          docs c !! id' = docs (repository st) !! id') /\
             (forall id', is_Some (docs c !! id') <->
                          is_Some (docs (repository st) !! id')) /\
             (forall id' d d',
                 docs (repository st) !! id' = Some d ->
                 docs c !! id' = Some d' ->
                 UrlFetchRequest.url d' = UrlFetchRequest.url d /\
                 num d' createdAt = num d createdAt) /\
             (docs (repository st) !! message_id m = None ->
              o = None /\ mkState c (published st) = st)).
  { intros id data o c -> Hsafe Hu.
    destruct (update_effect (message_id m) data (repository st))
      as (Hn & Hne & _ & Ho & Hmiss).
    pose proof (update_same_ids (message_id m) data (repository st)) as Hids.
    pose proof (update_keeps_identity (message_id m) data (repository st)) as Hid.
    rewrite Hu in *. simpl in *.
    split; [exact Hn|]. split; [exact Hne|]. split; [exact Hids|].
    split; [intros id' d d' Hd Hd'; exact (Hid id' d d' Hsafe Hd Hd')|].
    intros Hnone. rewrite Hnone in Ho. split; [exact Ho|].
    rewrite (Hmiss Hnone). apply state_eta. }
  intros st'. subst st'.
  destruct queue, m as [q|s|r|f]; simpl;
    try (destruct (Hsame st) as (H1 & H2 & H3 & H4);
         split; [exact H1|]; split; [exact H2|]; split; [exact H3|];
         split; [exact H4|]; split; [reflexivity|left; reflexivity]).
  - (* started *)
    unfold handleScrapeStarted.
    match goal with
    | |- context [update ?i ?data ?c] =>
        destruct (update i data c) as [o c'] eqn:Hu;
        destruct (Hupd i data o c' eq_refl) as (H1 & H2 & H3 & H4 & H5);
        [repeat constructor|exact Hu|]
    end.
    simpl. split; [exact H1|]. split; [exact H2|]. split; [exact H3|].
    split; [exact H4|]. split; [intros Hn; apply (H5 Hn)|left; reflexivity].
  - (* result *)
    unfold handleScrapeResult.
    match goal with
    | |- context [update ?i ?data ?c] =>
        destruct (update i data c) as [o c'] eqn:Hu;
        destruct (Hupd i data o c' eq_refl) as (H1 & H2 & H3 & H4 & H5);
        [destruct (ScrapeResult.success r); repeat constructor|exact Hu|]
    end.
    simpl. split; [exact H1|]. split; [exact H2|]. split; [exact H3|].
    split; [exact H4|]. split; [intros Hn; apply (H5 Hn)|left; reflexivity].
  - (* failure *)
    unfold handleScrapeFailure.
    destruct (ScrapeFailure.canRetry f && (ScrapeFailure.retryCount f <? maxRetries))
      eqn:Hretry.
    + match goal with
      | |- context [update ?i ?data ?c] =>
          destruct (update i data c) as [o c'] eqn:Hu;
          destruct (Hupd i data o c' eq_refl) as (H1 & H2 & H3 & H4 & H5);
          [repeat constructor|exact Hu|]
      end.
      apply andb_true_iff in Hretry as [Hc Hlt%Z.ltb_lt].
      destruct o as [d'|]; simpl.
      * split; [exact H1|]. split; [exact H2|]. split; [exact H3|].
        split; [exact H4|]. split.
        -- intros Hn. destruct (H5 Hn) as [Ho _]. discriminate.
        -- right. exists f. repeat split; try assumption.
           destruct (docs (repository st) !! ScrapeFailure.id f) eqn:Hd; [eauto|].
           destruct (H5 Hd) as [Ho _]. discriminate.
      * split; [exact H1|]. split; [exact H2|]. split; [exact H3|].
        split; [exact H4|]. split; [intros Hn; apply (H5 Hn)|left; reflexivity].
    + match goal with
      | |- context [update ?i ?data ?c] =>
          destruct (update i data c) as [o c'] eqn:Hu;
          destruct (Hupd i data o c' eq_refl) as (H1 & H2 & H3 & H4 & H5);
          [repeat constructor|exact Hu|]
      end.
      simpl. split; [exact H1|]. split; [exact H2|]. split; [exact H3|].
      split; [exact H4|]. split; [intros Hn; apply (H5 Hn)|left; reflexivity].
Qed.

End Consumers.

Section Results.

Import UrlFetchRequest UrlFetchRequestRepository UrlContentService.

(** X15. What [handleScrapeResult] leaves in the record the result
    names.  The status follows the [success] flag; the times, the sizes,
    the user agent and the redirect chain are those of the message; the
    retry count is untouched; an optional property of the message that is
    absent leaves the stored value alone.  A success has no error message
    afterwards, whatever was stored before; a failure has no content, no
    content type and no content hash afterwards, even when the message
    carries a hash. *)
Theorem handleScrapeResult_record (result : ScrapeResult.t) (st : State)
    (d : UrlFetchRequest.t) :
  docs (repository st) !! ScrapeResult.id result = Some d ->
  let keep {A} (sent : option A) (stored : option A) :=
    match sent with Some x => Some x | None => stored end in
  exists d',
    docs (repository (handleScrapeResult result st)) !! ScrapeResult.id result
    = Some d' /\
    published (handleScrapeResult result st) = published st /\
    status d' = (if ScrapeResult.success result then SUCCESS else FAILED) /\
    retryCount d' = retryCount d /\
    num d' fetchedAt = Some (ScrapeResult.scrapedAt result) /\
    num d' UrlFetchRequest.lastScrapedAt = Some (ScrapeResult.scrapedAt result) /\
    num d' responseTime = Some (ScrapeResult.responseTime result) /\
    num d' contentLength = Some (ScrapeResult.contentLength result) /\
    num d' httpStatus = keep (ScrapeResult.httpStatus result) (num d httpStatus) /\
    str d' userAgent = Some (ScrapeResult.userAgent result) /\
    str d' finalUrl = keep (ScrapeResult.finalUrl result) (str d finalUrl) /\
    redirectChain d' = default [] (ScrapeResult.redirectChain result) /\
    if ScrapeResult.success result
    then str d' errorMessage = None /\
         str d' content = keep (ScrapeResult.content result) (str d content) /\
         str d' contentType
         = keep (ScrapeResult.contentType result) (str d contentType) /\
         str d' contentHash
         = keep (ScrapeResult.contentHash result) (str d contentHash)
    else str d' errorMessage
         = keep (ScrapeResult.errorMessage result) (str d errorMessage) /\
         str d' content = None /\
         str d' contentType = None /\
         str d' contentHash = None.
Proof.
  intros Hd keep. subst keep. unfold handleScrapeResult.
  rewrite (update_found _ _ _ _ Hd). simpl.
  eexists. split; [apply lookup_insert_eq|].
  destruct result as [id url success content contentType httpStatus errorMessage
                        finalUrl responseTime contentLength contentHash userAgent
                        chain scrapedAt].
  simpl.
  destruct success, content, contentType, httpStatus, errorMessage, finalUrl,
    contentHash; simpl; repeat split.
Qed.

Variable MAX_RETRIES : Z.
Variable sha256_hex : string -> string.
Variable byteLength : string -> Z.
Variable now elapsed : Z.

(** X16. An attempt that gets a response below 400, its two messages
    (the started notification and the result) consumed by the control
    plane in either order, the queues having consumers of their own.  In
    both orders the record of the request ends with the content of the
    page, its type (text/html when the header is missing or empty), its
    digest, the status code, the final URL and the redirect chain,
    fetched at the time of the attempt and without an error message,
    whatever earlier attempts left in it; its retry count and URL stay,
    and nothing is published.  Its status is SUCCESS when the started
    notification is consumed first, and PROCESSING when it is consumed
    after the result. *)
Theorem successful_attempt_record (request : ScrapeRequest.t) (code : Z)
    (final : string) (chain : list string) (page : string) (header : option string)
    (st : State) (d : UrlFetchRequest.t) (messages : list (QueueNames * Message)) :
  code < 400 ->
  docs (repository st) !! ScrapeRequest.id request = Some d ->
  messages ≡ₚ ScraperService.consume MAX_RETRIES sha256_hex byteLength now elapsed
                request (ScraperService.Response code final chain page header) ->
  let st' := fold_left (fun st qm => deliver MAX_RETRIES qm.1 qm.2 st) messages st in
  exists d',
    docs (repository st') !! ScrapeRequest.id request = Some d' /\
    published st' = published st /\
    status d' = match messages with
                | (SCRAPE_STARTED, _) :: _ => SUCCESS
                | _ => PROCESSING
                end /\
    str d' content = Some page /\
    str d' contentType = Some (Js.or_string header "text/html") /\
    str d' contentHash = Some (sha256_hex page) /\
    num d' httpStatus = Some code /\
    num d' contentLength = Some (byteLength page) /\
    num d' responseTime = Some elapsed /\
    num d' fetchedAt = Some now /\
    str d' finalUrl = Some final /\
    redirectChain d' = chain /\
    str d' userAgent = Some ScraperService.userAgent /\
    str d' errorMessage = None /\
    retryCount d' = retryCount d /\
    UrlFetchRequest.url d' = UrlFetchRequest.url d.
Proof.
  intros Hcode Hd Hperm st'. subst st'.
  unfold ScraperService.consume, ScraperService.scrapeUrl,
    ScraperService.scrapeUrl_try in Hperm.
  replace (400 <=? code) with false in Hperm by (symmetry; apply Z.leb_gt; lia).
  cbn [ScrapeResult.success] in Hperm.
  symmetry in Hperm. apply Permutation_length_2_inv in Hperm as [-> | ->];
    cbn [fold_left fst snd deliver].
  - unfold handleScrapeStarted.
    cbn [ScraperService.startedNotification ScrapeStarted.id].
    rewrite (update_found _ _ _ _ Hd). cbn [repository docs].
    unfold handleScrapeResult. cbn [ScrapeResult.id repository].
    rewrite (update_found _ _ _ _ (lookup_insert_eq _ _ _)). simpl.
    eexists. split; [apply lookup_insert_eq|]. repeat split.
  - unfold handleScrapeResult. cbn [ScrapeResult.id repository ScrapeResult.success].
    rewrite (update_found _ _ _ _ Hd). cbn [repository docs].
    unfold handleScrapeStarted.
    cbn [ScraperService.startedNotification ScrapeStarted.id repository].
    rewrite (update_found _ _ _ _ (lookup_insert_eq _ _ _)). simpl.
    eexists. split; [apply lookup_insert_eq|]. repeat split.
Qed.

End Results.

(** A failure result for the record of the submitted URL. *)
Lemma handleScrapeResult_record_witness :
  exists d,
    UrlFetchRequestRepository.docs
      (UrlContentService.repository Scenario.ynet_scraped) !! "0" = Some d /\
    UrlFetchRequest.str d UrlFetchRequest.content = Some "<html>ynet</html>" /\
    exists d',
      UrlFetchRequestRepository.docs
        (UrlContentService.repository
           (UrlContentService.handleScrapeResult
              (ScrapeResult.mk "0" "https://ynet.co.il" false None None (Some 500)
                 (Some "Server error") None 7 0 (Some "abc") "agent" None 3000)
              Scenario.ynet_scraped)) !! "0" = Some d' /\
      UrlFetchRequest.status d' = FAILED /\
      UrlFetchRequest.str d' UrlFetchRequest.content = None /\
      UrlFetchRequest.str d' UrlFetchRequest.contentHash = None /\
      UrlFetchRequest.str d' UrlFetchRequest.errorMessage = Some "Server error".
Proof.
  destruct (UrlFetchRequestRepository.docs
              (UrlContentService.repository Scenario.ynet_scraped) !! "0")
    as [d|] eqn:Hd; [|vm_compute in Hd; discriminate].
  exists d. split; [reflexivity|].
  split; [vm_compute in Hd; injection Hd as <-; reflexivity|].
  destruct (handleScrapeResult_record
              (ScrapeResult.mk "0" "https://ynet.co.il" false None None (Some 500)
                 (Some "Server error") None 7 0 (Some "abc") "agent" None 3000)
              Scenario.ynet_scraped d Hd)
    as (d' & Hd' & _ & Hs & _ & _ & _ & _ & _ & _ & _ & _ & _ & He & Hc & _ & Hh).
  exists d'. split; [exact Hd'|]. split; [exact Hs|]. split; [exact Hc|].
  split; [exact Hh|exact He].
Defined.

(** The first attempt on a submitted URL succeeds, and the started
    notification is consumed after the result. *)
Lemma successful_attempt_record_witness :
  200 < 400 /\
  exists d,
    UrlFetchRequestRepository.docs
      (UrlContentService.repository Scenario.submitted_example) !! "0" = Some d /\
    exists d',
      UrlFetchRequestRepository.docs
        (UrlContentService.repository
           (fold_left (fun st qm => UrlContentService.deliver 3 qm.1 qm.2 st)
              (reverse
                 (ScraperService.consume 3 Scenario.digest Scenario.byteLength 2000 5
                    (ScrapeRequest.mk "0" "https://example.com" None None (Some 0) (Some 1))
                    Scenario.ok))
              Scenario.submitted_example)) !! "0" = Some d' /\
      UrlFetchRequest.status d' = PROCESSING /\
      UrlFetchRequest.str d' UrlFetchRequest.content = Some "<html>OK</html>" /\
      UrlFetchRequest.str d' UrlFetchRequest.errorMessage = None.
Proof.
  split; [lia|].
  destruct (UrlFetchRequestRepository.docs
              (UrlContentService.repository Scenario.submitted_example) !! "0")
    as [d|] eqn:Hd; [|vm_compute in Hd; discriminate].
  exists d. split; [reflexivity|].
  destruct (successful_attempt_record 3 Scenario.digest Scenario.byteLength 2000 5
              (ScrapeRequest.mk "0" "https://example.com" None None (Some 0) (Some 1))
              200 "https://example.com/" [] "<html>OK</html>" None
              Scenario.submitted_example d
              (reverse
                 (ScraperService.consume 3 Scenario.digest Scenario.byteLength 2000 5
                    (ScrapeRequest.mk "0" "https://example.com" None None (Some 0) (Some 1))
                    Scenario.ok))
              ltac:(lia) Hd (reverse_Permutation _))
    as (d' & Hd' & _ & Hs & Hc & _ & _ & _ & _ & _ & _ & _ & _ & _ & He & _).
  exists d'. split; [exact Hd'|]. split; [exact Hs|]. split; [exact Hc|exact He].
Defined.

Section Redelivery.

Import UrlFetchRequest UrlFetchRequestRepository UrlContentService.

Variable maxRetries : Z.

(** A property of a document after an update is either the one it had
    or a value the update fixes. *)
Lemma apply_update_kept_or_fixed {A} (p : UrlFetchRequest.t -> A) (data : Partial) :
  (forall a, (forall d, p (assign d a) = p d) \/ (exists v, forall d, p (assign d a) = v)) ->
  (forall d, p (apply_update d data) = p d) \/
  (exists v, forall d, p (apply_update d data) = v).
Proof.
  intros Hp. unfold apply_update.
  induction data as [|a data IH]; [left; reflexivity|]. simpl.
  destruct IH as [Hkeep|[v Hv]].
  - destruct (Hp a) as [Ha|[v Ha]].
    + left. intros d. now rewrite Hkeep, Ha.
    + right. exists v. intros d. now rewrite Hkeep, Ha.
  - right. exists v. intros d. apply Hv.
Qed.

Lemma apply_update_twice {A} (p : UrlFetchRequest.t -> A) (data : Partial)
    (d : UrlFetchRequest.t) :
  (forall a, (forall d, p (assign d a) = p d) \/ (exists v, forall d, p (assign d a) = v)) ->
  p (apply_update (apply_update d data) data) = p (apply_update d data).
Proof.
  intros Hp. destruct (apply_update_kept_or_fixed p data Hp) as [H|[v H]].
  - apply H.
  - now rewrite !H.
Qed.

(** Applying an update a second time changes nothing. *)
Lemma apply_update_idempotent (data : Partial) (d : UrlFetchRequest.t) :
  same_record (apply_update d data) (apply_update (apply_update d data) data).
Proof.
  unfold same_record. repeat split.
  - symmetry. apply (apply_update_twice UrlFetchRequest.url).
    intros [| | | |f [| |]|f [| |]]; simpl; eauto.
  - symmetry. apply (apply_update_twice status).
    intros [| | | |f [| |]|f [| |]]; simpl; eauto.
  - symmetry. apply (apply_update_twice retryCount).
    intros [| | | |f [| |]|f [| |]]; simpl; eauto.
  - symmetry. apply (apply_update_twice redirectChain).
    intros [| | | |f [| |]|f [| |]]; simpl; eauto.
  - intros g. symmetry. apply (apply_update_twice (fun d => str d g)).
    intros [| | | |f [| |]|f [| |]]; simpl; eauto;
      unfold write; destruct (StrField_eqb f g); eauto.
  - intros g _. symmetry. apply (apply_update_twice (fun d => num d g)).
    intros [| | | |f [| |]|f [| |]]; simpl; eauto;
      unfold write; destruct (NumField_eqb f g); eauto.
Qed.

Lemma same_record_refl (d : UrlFetchRequest.t) : same_record d d.
Proof. unfold same_record. repeat split. Qed.

Lemma update_twice (id : string) (data : Partial) (c c1 c2 : Collection)
    (o1 o2 : option UrlFetchRequest.t) :
  update id data c = (o1, c1) ->
  update id data c1 = (o2, c2) ->
  (forall id', option_Forall2 same_record (docs c1 !! id') (docs c2 !! id')) /\
  next_id c2 = next_id c1 /\
  (is_Some o2 <-> is_Some o1).
Proof.
  intros H1 H2. unfold update in H1.
  destruct (docs c !! id) as [d|] eqn:Hd.
  - injection H1 as <- <-. unfold update in H2. simpl in H2.
    rewrite lookup_insert_eq in H2. injection H2 as <- <-. simpl.
    split; [|split; [reflexivity|split; eauto]].
    intros id'. destruct (decide (id' = id)) as [->|Hne].
    + rewrite !lookup_insert_eq. constructor. apply apply_update_idempotent.
    + rewrite !lookup_insert_ne by congruence.
      destruct (docs c !! id'); constructor. apply same_record_refl.
  - injection H1 as <- <-. unfold update in H2. rewrite Hd in H2.
    injection H2 as <- <-.
    split; [|split; [reflexivity|reflexivity]].
    intros id'. destruct (docs c !! id'); constructor. apply same_record_refl.
Qed.

(** X17. A message delivered a second time leaves every record as the
    first delivery left it (but for the time of the last update, which
    the store keeps) and draws no identifier.  Only a retryable failure
    below the limit publishes again: the request of the first delivery,
    once more. *)
Theorem redelivery_keeps_the_store (queue : QueueNames) (m : Message) (st : State) :
  let st1 := deliver maxRetries queue m st in
  let st2 := deliver maxRetries queue m st1 in
  same_store st1 st2 /\
  next_id (repository st2) = next_id (repository st1) /\
  (published st2 = published st1 \/
   exists request,
     published st1 = published st ++ [(SCRAPE_REQUESTS, MsgRequest request)] /\
     published st2 = published st1 ++ [(SCRAPE_REQUESTS, MsgRequest request)]).
Proof.
  assert (Hsame : forall st0 : State, same_store st0 st0).
  { intros st0 id. destruct (docs (repository st0) !! id); constructor.
    apply same_record_refl. }
  intros st1 st2. subst st1 st2.
  destruct queue, m as [q|s|r|f]; simpl;
    try (split; [apply Hsame|split; [reflexivity|left; reflexivity]]).
  - unfold handleScrapeStarted.
    match goal with
    | |- context [update ?i ?data (repository st)] =>
        remember data as D eqn:HD;
        destruct (update i D (repository st)) as [o1 c1] eqn:H1; simpl;
        destruct (update i D c1) as [o2 c2] eqn:H2; simpl;
        destruct (update_twice i D _ _ _ _ _ H1 H2) as (Hs & Hn & _)
    end.
    split; [exact Hs|]. split; [exact Hn|left; reflexivity].
  - unfold handleScrapeResult.
    match goal with
    | |- context [update ?i ?data (repository st)] =>
        remember data as D eqn:HD;
        destruct (update i D (repository st)) as [o1 c1] eqn:H1; simpl;
        destruct (update i D c1) as [o2 c2] eqn:H2; simpl;
        destruct (update_twice i D _ _ _ _ _ H1 H2) as (Hs & Hn & _)
    end.
    split; [exact Hs|]. split; [exact Hn|left; reflexivity].
  - unfold handleScrapeFailure.
    destruct (ScrapeFailure.canRetry f && (ScrapeFailure.retryCount f <? maxRetries)).
    + match goal with
      | |- context [update ?i ?data (repository st)] =>
          remember data as D eqn:HD;
          destruct (update i D (repository st)) as [o1 c1] eqn:H1
      end.
      destruct o1 as [d1|]; simpl.
      * destruct (update (ScrapeFailure.id f) D c1) as [o2 c2] eqn:H2.
        destruct (update_twice _ _ _ _ _ _ _ H1 H2) as (Hs & Hn & Ho).
        destruct o2 as [d2|]; [|destruct (proj2 Ho) as [? ?]; [eauto|discriminate]].
        simpl. split; [exact Hs|]. split; [exact Hn|].
        right. eexists. split; reflexivity.
      * destruct (update (ScrapeFailure.id f) D c1) as [o2 c2] eqn:H2.
        destruct (update_twice _ _ _ _ _ _ _ H1 H2) as (Hs & Hn & Ho).
        destruct o2 as [d2|]; [destruct (proj1 Ho) as [? ?]; [eauto|discriminate]|].
        simpl. split; [exact Hs|]. split; [exact Hn|left; reflexivity].
    + match goal with
      | |- context [update ?i ?data (repository st)] =>
          remember data as D eqn:HD;
          destruct (update i D (repository st)) as [o1 c1] eqn:H1; simpl;
          destruct (update i D c1) as [o2 c2] eqn:H2; simpl;
          destruct (update_twice i D _ _ _ _ _ H1 H2) as (Hs & Hn & _)
      end.
      split; [exact Hs|]. split; [exact Hn|left; reflexivity].
Qed.

End Redelivery.

(** ** Maintenance *)

Section Maintenance.

Import UrlFetchRequest UrlFetchRequestRepository UrlContentService.

Lemma created_order_trans : Transitive created_order.
Proof.
  intros a b c. unfold created_order, created_not_before, newer.
  destruct (num a.2 createdAt) as [x|], (num b.2 createdAt) as [y|],
    (num c.2 createdAt) as [z|]; simpl; try discriminate; auto.
  intros H1%negb_true_iff%Z.ltb_ge H2%negb_true_iff%Z.ltb_ge.
  apply negb_true_iff, Z.ltb_ge. lia.
Qed.

Lemma created_order_total : Total created_order.
Proof.
  intros a b. unfold created_order, created_not_before, newer.
  destruct (num a.2 createdAt) as [x|], (num b.2 createdAt) as [y|]; simpl; auto.
  destruct (Z.ltb_spec x y); [right|left]; [|reflexivity].
  apply negb_true_iff, Z.ltb_ge. lia.
Qed.

Lemma StronglySorted_sublist {A} (R : A -> A -> Prop) (k l : list A) :
  k `sublist_of` l -> StronglySorted R l -> StronglySorted R k.
Proof.
  induction 1 as [|x k l Hkl IH|x k l Hkl IH]; intros Hs.
  - constructor.
  - inversion Hs as [|? ? Hl Hall]; subst. constructor; [now apply IH|].
    rewrite Forall_forall in *. intros y Hy. apply Hall.
    eapply elem_of_sublist; eassumption.
  - inversion Hs; subst. now apply IH.
Qed.

Lemma findAll_sublist (query : UrlFetchRequest.t -> bool) (limit offset : nat)
    (c : Collection) :
  findAll query limit offset c
  `sublist_of` merge_sort created_order
                 (filter (fun p => query p.2 = true) (map_to_list (docs c))).
Proof.
  unfold findAll. destruct limit.
  - apply sublist_drop.
  - etransitivity; [apply sublist_take|apply sublist_drop].
Qed.

Lemma matches_NoDup (query : UrlFetchRequest.t -> bool) (c : Collection) :
  NoDup (filter (fun p : string * UrlFetchRequest.t => query p.2 = true)
           (map_to_list (docs c))).*1.
Proof.
  apply (sublist_NoDup _ (map_to_list (docs c)).*1);
    [apply NoDup_fst_map_to_list|].
  apply fmap_sublist, sublist_filter.
Qed.

Lemma findAll_ids_NoDup (query : UrlFetchRequest.t -> bool) (limit offset : nat)
    (c : Collection) :
  NoDup (findAll query limit offset c).*1.
Proof.
  apply (sublist_NoDup _
           (merge_sort created_order
              (filter (fun p => query p.2 = true) (map_to_list (docs c)))).*1);
    [|apply fmap_sublist, findAll_sublist].
  rewrite merge_sort_Permutation. apply matches_NoDup.
Qed.

Lemma findAll_sound (query : UrlFetchRequest.t -> bool) (limit offset : nat)
    (c : Collection) (id : string) (d : UrlFetchRequest.t) :
  (id, d) ∈ findAll query limit offset c ->
  docs c !! id = Some d /\ query d = true.
Proof.
  intros Hin. eapply elem_of_sublist in Hin; [|apply findAll_sublist].
  rewrite merge_sort_Permutation in Hin.
  apply list_elem_of_filter in Hin as [Hq Hin].
  apply elem_of_map_to_list in Hin. auto.
Qed.

Lemma findAll_complete (query : UrlFetchRequest.t -> bool) (limit : nat)
    (c : Collection) (id : string) (d : UrlFetchRequest.t) :
  (length (findAll query (S limit) 0 c) < S limit)%nat ->
  docs c !! id = Some d -> query d = true ->
  (id, d) ∈ findAll query (S limit) 0 c.
Proof.
  unfold findAll. cbn [drop]. intros Hlen Hd Hq.
  rewrite take_ge.
  - rewrite merge_sort_Permutation. apply list_elem_of_filter. split; [exact Hq|].
    now apply elem_of_map_to_list.
  - rewrite length_take in Hlen. lia.
Qed.

(** X18. [findAll] returns stored records that satisfy the query, none of
    them twice, the later created first; with a limit above 0 it returns
    at most that many, and when it returns fewer than the limit from
    offset 0 it returns every stored record that satisfies the query. *)
Theorem findAll_page (query : UrlFetchRequest.t -> bool) (limit offset : nat)
    (c : Collection) :
  (forall id d, (id, d) ∈ findAll query limit offset c ->
                docs c !! id = Some d /\ query d = true) /\
  NoDup (findAll query limit offset c).*1 /\
  StronglySorted created_order (findAll query limit offset c) /\
  ((0 < limit)%nat -> (length (findAll query limit offset c) <= limit)%nat) /\
  ((length (findAll query limit 0 c) < limit)%nat ->
   forall id d, docs c !! id = Some d -> query d = true ->
                (id, d) ∈ findAll query limit 0 c).
Proof.
  split; [intros id d; apply findAll_sound|].
  split; [apply findAll_ids_NoDup|]. split; [|split].
  - eapply StronglySorted_sublist; [apply findAll_sublist|].
    pose proof created_order_trans. pose proof created_order_total.
    apply StronglySorted_merge_sort; apply _.
  - intros Hl. unfold findAll. destruct limit; [lia|]. apply firstn_le_length.
  - destruct limit; [lia|]. intros Hlen id d. now apply findAll_complete.
Qed.

(** The loop of [fixDataInconsistencies] and of [cleanupStaleRequests]:
    the same update for each of the records, which have different
    identifiers. *)
Lemma fix_each_effect (data : Partial) (records : list (string * UrlFetchRequest.t))
    (n : Z) (st : State) :
  NoDup records.*1 ->
  (fix_each records data (n, st)).1 = n + Z.of_nat (length records) /\
  published (fix_each records data (n, st)).2 = published st /\
  next_id (repository (fix_each records data (n, st)).2) = next_id (repository st) /\
  forall id,
    docs (repository (fix_each records data (n, st)).2) !! id
    = (fun d => if decide (id ∈ records.*1) then apply_update d data else d)
        <$> docs (repository st) !! id.
Proof.
  revert n st. induction records as [|[i x] l IH]; intros n st Hnd.
  - simpl. repeat split; [lia|]. intros id.
    destruct (docs (repository st) !! id); reflexivity.
  - rewrite fmap_cons in Hnd. apply NoDup_cons in Hnd as [Hi Hnd].
    unfold fix_each. cbn [fold_left fst].
    destruct (update_effect i data (repository st)) as (Hn & Hne & Heq & _ & _).
    destruct (update i data (repository st)) as [o c1]. simpl in Hn, Hne, Heq.
    destruct (IH (n + 1) (mkState c1 (published st)) Hnd) as (H1 & H2 & H3 & H4).
    unfold fix_each in H1, H2, H3, H4.
    split; [rewrite H1; simpl length; lia|]. split; [exact H2|].
    split; [rewrite H3; exact Hn|].
    intros id. rewrite H4. simpl repository. rewrite fmap_cons. simpl fst.
    destruct (decide (id = i)) as [->|Hid].
    + rewrite Heq. destruct (docs (repository st) !! i); [|reflexivity]. simpl.
      rewrite decide_False by exact Hi.
      rewrite decide_True by left. reflexivity.
    + rewrite (Hne _ Hid). destruct (docs (repository st) !! id); [|reflexivity].
      simpl. f_equal.
      destruct (decide (id ∈ l.*1)) as [Hin|Hin].
      * rewrite decide_True by now right. reflexivity.
      * rewrite decide_False; [reflexivity|].
        intros [?|?]%elem_of_cons; contradiction.
Qed.

Lemma elem_of_ids (l : list (string * UrlFetchRequest.t)) (id : string) :
  id ∈ l.*1 <-> exists d, (id, d) ∈ l.
Proof.
  rewrite list_elem_of_fmap. split.
  - intros [[i d] [-> Hin]]. eauto.
  - intros [d Hin]. exists (id, d). auto.
Qed.

Lemma elem_of_stale (now timeoutMinutes : Z) (c : Collection) (id : string)
    (d : UrlFetchRequest.t) :
  (id, d) ∈ findStalePendingRequests now timeoutMinutes c <->
  docs c !! id = Some d /\
  stale_pending (now - timeoutMinutes * 60 * 1000) d = true.
Proof.
  unfold findStalePendingRequests.
  rewrite list_elem_of_filter, elem_of_map_to_list. simpl. tauto.
Qed.

Lemma filter_none {A} (P : A -> Prop) `{!forall x, Decision (P x)} (l : list A) :
  (forall x, x ∈ l -> ~ P x) -> filter P l = [].
Proof.
  induction l as [|a l IH]; intros Hall; [reflexivity|].
  rewrite filter_cons_False by (apply Hall; left).
  apply IH. intros x Hx. apply Hall. now right.
Qed.

(** X19. [cleanupStaleRequests] turns every PENDING record created before
    the cut-off into FAILED with the time-out message, changes nothing
    else in these records (the time of the last update apart), leaves
    every other record as it is, publishes
    nothing, and returns the number of records it turned; run again with
    the same clock it finds nothing and returns 0. *)
Theorem cleanupStaleRequests_effect (now timeoutMinutes : Z) (st : State) :
  let cutoffTime := now - timeoutMinutes * 60 * 1000 in
  let cleaned := (cleanupStaleRequests now timeoutMinutes st).1 in
  let st' := (cleanupStaleRequests now timeoutMinutes st).2 in
  cleaned
  = Z.of_nat (length (findStalePendingRequests now timeoutMinutes (repository st))) /\
  published st' = published st /\
  next_id (repository st') = next_id (repository st) /\
  (forall id, docs (repository st) !! id = None -> docs (repository st') !! id = None) /\
  (forall id d,
      docs (repository st) !! id = Some d ->
      exists d',
        docs (repository st') !! id = Some d' /\
        if stale_pending cutoffTime d
        then status d' = FAILED /\
             str d' errorMessage = Some "Request timed out - no response from scraper" /\
             UrlFetchRequest.url d' = UrlFetchRequest.url d /\
             retryCount d' = retryCount d /\
             redirectChain d' = redirectChain d /\
             (forall f, f <> updatedAt -> num d' f = num d f) /\
             (forall f, f <> errorMessage -> str d' f = str d f)
        else d' = d) /\
  findStalePendingRequests now timeoutMinutes (repository st') = [] /\
  (cleanupStaleRequests now timeoutMinutes st').1 = 0.
Proof.
  intros cutoffTime cleaned st'. subst cleaned st'.
  set (data := [set_status FAILED;
                set_str errorMessage
                  (Js.value "Request timed out - no response from scraper")]).
  assert (Hrun : forall s,
             cleanupStaleRequests now timeoutMinutes s
             = fix_each (findStalePendingRequests now timeoutMinutes (repository s))
                 data (0, s)) by reflexivity.
  assert (Hnd : forall s,
             NoDup (findStalePendingRequests now timeoutMinutes (repository s)).*1)
    by (intros s; apply matches_NoDup).
  rewrite Hrun.
  destruct (fix_each_effect data _ 0 st (Hnd st)) as (H1 & H2 & H3 & H4).
  set (st' := (fix_each _ data (0, st)).2) in *.
  assert (Hchar : forall id d,
             docs (repository st) !! id = Some d ->
             docs (repository st') !! id
             = Some (if stale_pending cutoffTime d then apply_update d data else d)).
  { intros id d Hd. rewrite H4, Hd. simpl. f_equal.
    destruct (stale_pending cutoffTime d) eqn:Hs.
    - rewrite decide_True; [reflexivity|].
      apply elem_of_ids. exists d. apply elem_of_stale. auto.
    - rewrite decide_False; [reflexivity|].
      intros [d0 [Hd0 Hs0]%elem_of_stale]%elem_of_ids.
      fold cutoffTime in Hs0. congruence. }
  assert (Hempty : findStalePendingRequests now timeoutMinutes (repository st') = []).
  { unfold findStalePendingRequests. apply filter_none.
    intros [id d'] Hin%elem_of_map_to_list. simpl. fold cutoffTime.
    destruct (docs (repository st) !! id) as [d|] eqn:Hd.
    - rewrite (Hchar _ _ Hd) in Hin. injection Hin as <-.
      destruct (stale_pending cutoffTime d) eqn:Hs; [|congruence].
      unfold stale_pending. simpl. discriminate.
    - rewrite H4, Hd in Hin. discriminate. }
  split; [rewrite H1; lia|]. split; [exact H2|]. split; [exact H3|].
  split; [intros id Hd; rewrite H4, Hd; reflexivity|].
  split; [|split; [exact Hempty|]].
  - intros id d Hd. eexists. split; [apply (Hchar _ _ Hd)|].
    destruct (stale_pending cutoffTime d); [|reflexivity].
    simpl. repeat split. intros f Hf. unfold write.
    destruct f; try reflexivity. contradiction.
  - rewrite Hrun.
    destruct (fix_each_effect data _ 0 st' (Hnd st')) as (H1' & _).
    rewrite H1', Hempty. reflexivity.
Qed.

(** X20. [fixDataInconsistencies] leaves each record either as it was, or,
    if it was a SUCCESS with an error message, without the error message
    and otherwise the same, or, if it was FAILED with content, without
    content, content type and content hash and otherwise the same (the
    time of the last update apart).  It
    publishes nothing, returns at most 200, and when it returns less than
    100 no SUCCESS record has an error message and no FAILED record has
    content afterwards. *)
Theorem fixDataInconsistencies_effect (st : State) :
  let fixed := (fixDataInconsistencies st).1 in
  let st' := (fixDataInconsistencies st).2 in
  0 <= fixed <= 200 /\
  published st' = published st /\
  next_id (repository st') = next_id (repository st) /\
  (forall id, docs (repository st) !! id = None -> docs (repository st') !! id = None) /\
  (forall id d,
      docs (repository st) !! id = Some d ->
      exists d',
        docs (repository st') !! id = Some d' /\
        (d' = d \/
         success_with_error d = true /\
         same_record d' (apply_update d [set_str errorMessage Js.null]) \/
         failed_with_content d = true /\
         same_record d'
           (apply_update d [set_str content Js.null; set_str contentType Js.null;
                            set_str contentHash Js.null]))) /\
  (fixed < 100 ->
   forall id d',
     docs (repository st') !! id = Some d' ->
     (status d' = SUCCESS -> str d' errorMessage = None) /\
     (status d' = FAILED -> str d' content = None)).
Proof.
  intros fixed st'. subst fixed st'. unfold fixDataInconsistencies.
  set (D1 := [set_str errorMessage Js.null]).
  set (D2 := [set_str content Js.null; set_str contentType Js.null;
              set_str contentHash Js.null]).
  set (L1 := findAll success_with_error 100 0 (repository st)).
  destruct (fix_each_effect D1 L1 0 st (findAll_ids_NoDup _ _ _ _))
    as (A1 & A2 & A3 & A4).
  destruct (fix_each L1 D1 (0, st)) as [n1 st1] eqn:Hloop1.
  simpl in A1, A2, A3, A4. cbn [snd].
  set (L2 := findAll failed_with_content 100 0 (repository st1)).
  destruct (fix_each_effect D2 L2 n1 st1 (findAll_ids_NoDup _ _ _ _))
    as (B1 & B2 & B3 & B4).
  set (res := fix_each L2 D2 (n1, st1)) in *.
  assert (Hlen1 : (length L1 <= 100)%nat) by apply firstn_le_length.
  assert (Hlen2 : (length L2 <= 100)%nat) by apply firstn_le_length.
  (* the records of the second loop were not touched by the first *)
  assert (Hin1 : forall id d, docs (repository st) !! id = Some d ->
                              id ∈ L1.*1 -> success_with_error d = true).
  { intros id d Hd [d0 Hin]%elem_of_ids.
    apply findAll_sound in Hin as [Hd0 Hq]. congruence. }
  assert (Hin2 : forall id d, docs (repository st) !! id = Some d ->
                              id ∈ L2.*1 ->
                              (id ∉ L1.*1) /\ failed_with_content d = true).
  { intros id d Hd [d1 Hin]%elem_of_ids.
    apply findAll_sound in Hin as [Hd1 Hq].
    rewrite A4, Hd in Hd1. simpl in Hd1. injection Hd1 as <-.
    destruct (decide (id ∈ L1.*1)) as [H|H]; [|auto].
    pose proof (Hin1 _ _ Hd H) as Hs.
    unfold success_with_error in Hs. unfold failed_with_content in Hq.
    simpl in Hq. destruct (status d); discriminate. }
  assert (Hchar : forall id d,
             docs (repository st) !! id = Some d ->
             docs (repository res.2) !! id
             = Some (if decide (id ∈ L1.*1) then apply_update d D1
                     else if decide (id ∈ L2.*1) then apply_update d D2 else d)).
  { intros id d Hd. rewrite B4, A4, Hd. simpl. f_equal.
    destruct (decide (id ∈ L2.*1)) as [H2|H2].
    - destruct (Hin2 _ _ Hd H2) as [H1 _]. rewrite !decide_False by exact H1.
      reflexivity.
    - reflexivity. }
  split; [rewrite B1, A1; lia|]. split; [rewrite B2; exact A2|].
  split; [rewrite B3; exact A3|].
  split; [intros id Hd; rewrite B4, A4, Hd; reflexivity|]. split.
  - intros id d Hd. eexists. split; [apply (Hchar _ _ Hd)|].
    destruct (decide (id ∈ L1.*1)) as [H1|H1].
    + right. left. split; [exact (Hin1 _ _ Hd H1)|apply same_record_refl].
    + destruct (decide (id ∈ L2.*1)) as [H2|H2]; [|now left].
      right. right. split; [exact (proj2 (Hin2 _ _ Hd H2))|apply same_record_refl].
  - rewrite B1, A1. intros Hfew id d' Hd'.
    destruct (docs (repository st) !! id) as [d|] eqn:Hd;
      [|rewrite B4, A4, Hd in Hd'; discriminate].
    rewrite (Hchar _ _ Hd) in Hd'. injection Hd' as <-.
    destruct (decide (id ∈ L1.*1)) as [H1|H1].
    + pose proof (Hin1 _ _ Hd H1) as Hs. unfold success_with_error in Hs.
      simpl. split; [reflexivity|].
      destruct (status d); discriminate.
    + assert (Hs : success_with_error d = false).
      { destruct (success_with_error d) eqn:Hs; [|reflexivity].
        exfalso. apply H1. apply elem_of_ids. exists d.
        apply findAll_complete; [fold L1; lia|exact Hd|exact Hs]. }
      destruct (decide (id ∈ L2.*1)) as [H2|H2].
      * simpl. split; [|reflexivity].
        destruct (Hin2 _ _ Hd H2) as [_ Hf]. unfold failed_with_content in Hf.
        destruct (status d); discriminate.
      * assert (Hf : failed_with_content d = false).
        { destruct (failed_with_content d) eqn:Hf; [|reflexivity].
          exfalso. apply H2. apply elem_of_ids. exists d.
          apply findAll_complete; [fold L2; lia| |exact Hf].
          rewrite A4, Hd. simpl. rewrite decide_False by exact H1. reflexivity. }
        unfold success_with_error in Hs. unfold failed_with_content in Hf.
        split; intros Hst; rewrite Hst in *; simpl in *.
        -- destruct (str d errorMessage); [discriminate|reflexivity].
        -- destruct (str d content); [discriminate|reflexivity].
Qed.

End Maintenance.

(** ** Failed attempts and the retry limit *)

Section Retries.

Import UrlFetchRequest UrlFetchRequestRepository UrlContentService.

Variable MAX_RETRIES : Z.
Variable sha256_hex : string -> string.
Variable byteLength : string -> Z.
Variable now elapsed : Z.

(** Every failure the consumer of the worker hands to the broker is
    built by [createFailure]. *)
Lemma consumed_failure_is_created (request : ScrapeRequest.t)
    (page : ScraperService.PageOutcome) (failure : ScrapeFailure.t) :
  ScraperService.consume MAX_RETRIES sha256_hex byteLength now elapsed request page
  = [ (SCRAPE_STARTED, MsgStarted (ScraperService.startedNotification now request));
      (SCRAPE_FAILURES, MsgFailure failure) ] ->
  exists msg retryable http,
    failure = ScraperService.createFailure MAX_RETRIES now request msg retryable http.
Proof.
  intros H.
  destruct (consume_shape MAX_RETRIES sha256_hex byteLength now elapsed request page)
    as (m & Hm & Hshape).
  rewrite Hm in H. injection H as ->.
  destruct page as [e| |s finalUrl chain body ctype|e].
  - destruct Hshape as (msg & c & http & [= ->]). eauto.
  - destruct Hshape as (msg & c & http & [= ->]). eauto.
  - destruct (400 <=? s).
    + destruct Hshape as (msg & c & http & [= ->]). eauto.
    + discriminate.
  - injection Hshape as ->. eauto.
Qed.


(** The started notification and the failure of one attempt, consumed
    in one order or the other. *)
Lemma failure_and_started (request : ScrapeRequest.t) (msg : string)
    (retryable : bool) (http : option Z) (st : State) (d : UrlFetchRequest.t)
    (accepted started_first : bool) :
  docs (repository st) !! ScrapeRequest.id request = Some d ->
  let started :=
    (SCRAPE_STARTED, MsgStarted (ScraperService.startedNotification now request)) in
  let failed :=
    (SCRAPE_FAILURES,
     MsgFailure (ScraperService.createFailure MAX_RETRIES now request msg retryable
                   http)) in
  let st' :=
    fold_left (fun st qm => deliver_or_catch MAX_RETRIES accepted qm.1 qm.2 st)
      (if started_first then [started; failed] else [failed; started]) st in
  let k := ScraperService.retryCount_or_0 request in
  exists d',
    docs (repository st') !! ScrapeRequest.id request = Some d' /\
    UrlFetchRequest.url d' = UrlFetchRequest.url d /\
    str d' userAgent = Some ScraperService.userAgent /\
    if retryable && (k <? MAX_RETRIES)
    then status d' = (if started_first then PENDING else PROCESSING) /\
         retryCount d' = k + 1 /\
         str d' errorMessage
         = Some ("Retry " +:+ Js.string_of_Z (k + 1) +:+ "/"
                 +:+ Js.string_of_Z MAX_RETRIES +:+ ": " +:+ msg) /\
         published st'
         = (if accepted
            then published st ++
                 [(SCRAPE_REQUESTS,
                   MsgRequest (ScrapeRequest.mk (ScrapeRequest.id request)
                                 (ScrapeRequest.url request) None None
                                 (Some (k + 1)) (Some 2)))]
            else published st)
    else status d' = (if started_first then FAILED else PROCESSING) /\
         retryCount d' = retryCount d /\
         str d' errorMessage = Some ("Error is not retryable: " +:+ msg) /\
         published st' = published st.
Proof.
  intros Hd started failed st' k. subst started failed st' k.
  destruct started_first, accepted; unfold deliver_or_catch;
    cbn [fold_left fst snd deliver];
    unfold handleScrapeStarted, handleScrapeFailure;
    cbn [ScraperService.startedNotification ScrapeStarted.id
         ScraperService.createFailure ScrapeFailure.canRetry ScrapeFailure.retryCount
         ScrapeFailure.id ScrapeFailure.url ScrapeFailure.errorMessage
         ScrapeFailure.httpStatus];
    destruct (ScraperService.retryCount_or_0 request <? MAX_RETRIES);
    destruct retryable; cbn [andb];
    repeat first
      [ rewrite (update_found _ _ _ _ Hd)
      | rewrite (update_found _ _ _ _ (lookup_insert_eq _ _ _))
      | progress cbn [repository docs published publish fst snd] ];
    simpl; (eexists; split; [apply lookup_insert_eq|]);
    try (destruct http); repeat split.
Qed.

(** X21. An attempt that ends in a failure (the one [scrapeUrl] returns
    or the processing error of the consumer), its two messages consumed
    by the control plane in either order, the queues having consumers of
    their own.  If the failure is marked retryable the request was below
    the limit: the record gets the next retry count and a retry message,
    and one request with that count and priority 2 is published if the
    broker takes it, none otherwise.  If not, the retry count stays,
    nothing is published, and the reason in the error message is always
    [Error is not retryable]: with one limit for both planes the reason
    [Maximum retries exceeded] is never written for a failure that the
    worker reports.  The status is PENDING, or FAILED, when the started
    notification is consumed first; it is PROCESSING when the started
    notification is consumed after the failure. *)
Theorem failed_attempt_record (request : ScrapeRequest.t)
    (page : ScraperService.PageOutcome) (failure : ScrapeFailure.t) (st : State)
    (d : UrlFetchRequest.t) (messages : list (QueueNames * Message))
    (accepted : bool) :
  ScraperService.consume MAX_RETRIES sha256_hex byteLength now elapsed request page
  = [ (SCRAPE_STARTED, MsgStarted (ScraperService.startedNotification now request));
      (SCRAPE_FAILURES, MsgFailure failure) ] ->
  docs (repository st) !! ScrapeRequest.id request = Some d ->
  messages ≡ₚ ScraperService.consume MAX_RETRIES sha256_hex byteLength now elapsed
                request page ->
  let st' :=
    fold_left (fun st qm => deliver_or_catch MAX_RETRIES accepted qm.1 qm.2 st)
      messages st in
  let k := ScraperService.retryCount_or_0 request in
  let started_first :=
    match messages with
    | (SCRAPE_STARTED, _) :: _ => true
    | _ => false
    end in
  exists d',
    docs (repository st') !! ScrapeRequest.id request = Some d' /\
    UrlFetchRequest.url d' = UrlFetchRequest.url d /\
    str d' userAgent = Some ScraperService.userAgent /\
    if ScrapeFailure.canRetry failure
    then k < MAX_RETRIES /\
         status d' = (if started_first then PENDING else PROCESSING) /\
         retryCount d' = k + 1 /\
         str d' errorMessage
         = Some ("Retry " +:+ Js.string_of_Z (k + 1) +:+ "/"
                 +:+ Js.string_of_Z MAX_RETRIES +:+ ": "
                 +:+ ScrapeFailure.errorMessage failure) /\
         published st'
         = (if accepted
            then published st ++
                 [(SCRAPE_REQUESTS,
                   MsgRequest (ScrapeRequest.mk (ScrapeRequest.id request)
                                 (ScrapeRequest.url request) None None
                                 (Some (k + 1)) (Some 2)))]
            else published st)
    else status d' = (if started_first then FAILED else PROCESSING) /\
         retryCount d' = retryCount d /\
         str d' errorMessage
         = Some ("Error is not retryable: " +:+ ScrapeFailure.errorMessage failure) /\
         published st' = published st.
Proof.
  intros Hconsume Hd Hperm st' k started_first. subst st' k started_first.
  destruct (consumed_failure_is_created _ _ _ Hconsume) as (msg & c & http & ->).
  rewrite Hconsume in Hperm. symmetry in Hperm.
  apply Permutation_length_2_inv in Hperm as [-> | ->].
  - destruct (failure_and_started request msg c http st d accepted true Hd)
      as (d' & Hd' & Hu & Ha & Hcase).
    exists d'. split; [exact Hd'|]. split; [exact Hu|]. split; [exact Ha|].
    cbn [ScraperService.createFailure ScrapeFailure.canRetry ScrapeFailure.errorMessage].
    destruct (c && (ScraperService.retryCount_or_0 request <? MAX_RETRIES)) eqn:Hc;
      [|exact Hcase].
    apply andb_true_iff in Hc as [_ Hlt%Z.ltb_lt]. split; [exact Hlt|exact Hcase].
  - destruct (failure_and_started request msg c http st d accepted false Hd)
      as (d' & Hd' & Hu & Ha & Hcase).
    exists d'. split; [exact Hd'|]. split; [exact Hu|]. split; [exact Ha|].
    cbn [ScraperService.createFailure ScrapeFailure.canRetry ScrapeFailure.errorMessage].
    destruct (c && (ScraperService.retryCount_or_0 request <? MAX_RETRIES)) eqn:Hc;
      [|exact Hcase].
    apply andb_true_iff in Hc as [_ Hlt%Z.ltb_lt]. split; [exact Hlt|exact Hcase].
Qed.

End Retries.

(** A refused connection at the first attempt, the started notification
    consumed after the failure. *)
Lemma failed_attempt_record_witness :
  let request := ScrapeRequest.mk "0" "https://example.com" None None (Some 0) (Some 1) in
  let messages :=
    reverse (ScraperService.consume 3 Scenario.digest Scenario.byteLength 2000 5
               request Scenario.refused) in
  exists failure d,
    ScraperService.consume 3 Scenario.digest Scenario.byteLength 2000 5 request
      Scenario.refused
    = [ (SCRAPE_STARTED, MsgStarted (ScraperService.startedNotification 2000 request));
        (SCRAPE_FAILURES, MsgFailure failure) ] /\
    UrlFetchRequestRepository.docs
      (UrlContentService.repository Scenario.submitted_example) !! "0" = Some d /\
    ScrapeFailure.canRetry failure = true /\
    exists d',
      UrlFetchRequestRepository.docs
        (UrlContentService.repository
           (fold_left
              (fun st qm => UrlContentService.deliver_or_catch 3 true qm.1 qm.2 st)
              messages Scenario.submitted_example)) !! "0" = Some d' /\
      UrlFetchRequest.status d' = PROCESSING /\
      UrlFetchRequest.retryCount d' = 1.
Proof.
  intros request messages.
  destruct (UrlFetchRequestRepository.docs
              (UrlContentService.repository Scenario.submitted_example) !! "0")
    as [d|] eqn:Hd; [|vm_compute in Hd; discriminate].
  eexists _, d. split; [reflexivity|]. split; [reflexivity|].
  split; [reflexivity|].
  destruct (failed_attempt_record 3 Scenario.digest Scenario.byteLength 2000 5
              request Scenario.refused _ Scenario.submitted_example d messages true
              eq_refl Hd (reverse_Permutation _))
    as (d' & Hd' & _ & _ & Hcase).
  cbn [ScrapeFailure.canRetry] in Hcase.
  change (true && (ScraperService.retryCount_or_0 request <? 3)) with true in Hcase.
  destruct Hcase as (_ & Hs & Hr & _).
  exists d'. split; [exact Hd'|]. split; [exact Hs|exact Hr].
Defined.

(** ** Schedules of the two planes *)

Section Schedules.

Import UrlFetchRequest UrlFetchRequestRepository UrlContentService.

Variable MAX_RETRIES : Z.
Variable sha256_hex : string -> string.
Variable byteLength : string -> Z.
Variable now elapsed : Z.










(** The attempt in the order of publication is one of the schedules:
    the scraper serves the request, then the three consumers take what
    waits for them. *)
Lemma attempt_is_a_schedule (cfg : Pipeline.Config) (request : ScrapeRequest.t)
    (page : ScraperService.PageOutcome) :
  Pipeline.requests_published (Pipeline.control cfg) !! Pipeline.served cfg
  = Some request ->
  Pipeline.started_queue cfg = [] ->
  Pipeline.results_queue cfg = [] ->
  Pipeline.failures_queue cfg = [] ->
  Pipeline.control
    (Pipeline.schedule MAX_RETRIES sha256_hex byteLength now elapsed
       [ Pipeline.Scrape page; Pipeline.Consume SCRAPE_STARTED true;
         Pipeline.Consume SCRAPE_RESULTS true; Pipeline.Consume SCRAPE_FAILURES true ]
       cfg)
  = Pipeline.attempt MAX_RETRIES sha256_hex byteLength now elapsed request page
      (Pipeline.control cfg).
Proof.
  intros Hreq Hsq Hrq Hfq.
  unfold Pipeline.schedule, Pipeline.attempt. cbn [fold_left].
  unfold Pipeline.act at 4. rewrite Hreq.
  destruct (consume_shape MAX_RETRIES sha256_hex byteLength now elapsed request page)
    as (m & -> & Hshape).
  assert (Hm : exists msg, m = (SCRAPE_RESULTS, msg) \/ m = (SCRAPE_FAILURES, msg)).
  { destruct page as [e| |s finalUrl chain body ctype|e].
    - destruct Hshape as (? & ? & ? & ->). eauto.
    - destruct Hshape as (? & ? & ? & ->). eauto.
    - destruct (400 <=? s); [destruct Hshape as (? & ? & ? & ->)|subst m]; eauto.
    - subst m. eauto. }
  destruct Hm as [msg [-> | ->]];
    cbn [fold_left Pipeline.enqueue fst snd Pipeline.control Pipeline.served
         Pipeline.started_queue Pipeline.results_queue Pipeline.failures_queue];
    rewrite Hsq, Hrq, Hfq; reflexivity.
Qed.


End Schedules.



(** A record that a late, non-retryable failure left FAILED with the
    content of an earlier success. *)
Lemma fixDataInconsistencies_effect_witness :
  let st :=
    UrlContentService.handleScrapeFailure 3
      (ScrapeFailure.mk "0" "https://ynet.co.il" "gone" 0 3 false None 3000)
      Scenario.ynet_scraped in
  (exists d,
      UrlFetchRequestRepository.docs (UrlContentService.repository st) !! "0" = Some d /\
      UrlFetchRequest.status d = FAILED /\
      UrlFetchRequest.str d UrlFetchRequest.content = Some "<html>ynet</html>") /\
  (UrlContentService.fixDataInconsistencies st).1 = 1 /\
  forall id d',
    UrlFetchRequestRepository.docs
      (UrlContentService.repository (UrlContentService.fixDataInconsistencies st).2)
      !! id = Some d' ->
    (UrlFetchRequest.status d' = SUCCESS ->
     UrlFetchRequest.str d' UrlFetchRequest.errorMessage = None) /\
    (UrlFetchRequest.status d' = FAILED ->
     UrlFetchRequest.str d' UrlFetchRequest.content = None).
Proof.
  intros st. split; [|split; [vm_compute; reflexivity|]].
  - destruct (UrlFetchRequestRepository.docs (UrlContentService.repository st) !! "0")
      as [d|] eqn:Hd; [|vm_compute in Hd; discriminate].
    exists d. split; [reflexivity|].
    vm_compute in Hd. injection Hd as <-. split; reflexivity.
  - destruct (fixDataInconsistencies_effect st) as (_ & _ & _ & _ & _ & H).
    apply H. vm_compute. reflexivity.
Defined.
